(** * codec_agences: the news-wire ingestion scripts

    A shallow embedding of the five ingestion scripts of [codec_agences]
    ([fetch_and_parse_articles_ANSA.py], [..._MENA.py], [..._APS_CHINE.py],
    [..._MAP_FR.py], [..._AZERTAC_FR.py]) and the properties their
    specification states about them.

    Conventions.
    - A Python [str] is the list of its code points ([list N]); [bytes] is a
      list of byte values.
    - Timestamps ([datetime] values compared by the scripts) are integers.
    - The two tables [online2024_articles] and [processedfiles] and the log
      are the state threaded through the scripts; a script also yields the
      sequence of the calls it made to the store and to the source.  The
      most recent row, record or call is the head of its list.
    - An exception is the [Raised] outcome of a computation.  Whatever can
      raise where a script runs it (the queries of the store, the listing
      of a folder, the date of a file, the server) has an outcome that the
      script is run on. *)

From Stdlib Require Import List NArith ZArith Bool String Ascii Lia.
From Stdlib Require Import Permutation Sorted.
Import ListNotations.

Set Implicit Arguments.
Set Warnings "-register-all".

(** ** Python values *)

Definition str := list N.
Definition bytes := list N.

(** A string literal of the scripts, as code points. *)
Definition py (s : string) : str :=
  map N_of_ascii (list_ascii_of_string s).

Fixpoint str_eqb (a b : str) : bool :=
  match a, b with
  | [], [] => true
  | x :: a', y :: b' => N.eqb x y && str_eqb a' b'
  | _, _ => false
  end.

Inductive exn :=
| IndexError | UnboundLocalError | TypeError | KeyError | ValueError
| UnicodeError | OSError | ExpatError | DatabaseError.

Inductive result (A : Type) :=
| Ok (a : A)
| Raised (e : exn).
Arguments Raised {A} e.

(** ** Built-ins of [str] *)

Module Builtins.

(** [str.isspace] on one character. *)
Definition isspace (c : N) : bool :=
  ((9 <=? c) && (c <=? 13) || (28 <=? c) && (c <=? 32)
   || (c =? 133) || (c =? 160) || (c =? 5760)
   || (8192 <=? c) && (c <=? 8202)
   || (c =? 8232) || (c =? 8233) || (c =? 8239) || (c =? 8287)
   || (c =? 12288))%N.

(** Line boundaries of [str.splitlines] (CR LF is handled apart). *)
Definition islinebreak (c : N) : bool :=
  ((10 <=? c) && (c <=? 13) || (28 <=? c) && (c <=? 30)
   || (c =? 133) || (c =? 8232) || (c =? 8233))%N.

Fixpoint lstrip (s : str) : str :=
  match s with
  | [] => []
  | c :: t => if isspace c then lstrip t else s
  end.

Definition rstrip (s : str) : str := rev (lstrip (rev s)).

Definition strip (s : str) : str := rstrip (lstrip s).

(** [s.endswith(suffix)] *)
Definition endswith (s suffix : str) : bool :=
  str_eqb (skipn (List.length s - List.length suffix) s) suffix
  && (List.length suffix <=? List.length s)%nat.

(** [sep.join(parts)] *)
Fixpoint join (sep : str) (parts : list str) : str :=
  match parts with
  | [] => []
  | [p] => p
  | p :: rest => p ++ sep ++ join sep rest
  end.

(** [s.splitlines()]: [cur] is the line being read, reversed. *)
Fixpoint splitlines_from (cur : str) (s : str) : list str :=
  match s with
  | [] => match cur with [] => [] | _ => [rev cur] end
  | c :: t =>
      if (c =? 13)%N then
        match t with
        | 10%N :: t' => rev cur :: splitlines_from [] t'
        | _ => rev cur :: splitlines_from [] t
        end
      else if islinebreak c then rev cur :: splitlines_from [] t
      else splitlines_from (c :: cur) t
  end.

Definition splitlines (s : str) : list str := splitlines_from [] s.

(** Universal newlines of a file opened in text mode: CR LF and CR are
    read as LF. *)
Fixpoint translate_newlines (s : str) : str :=
  match s with
  | [] => []
  | c :: t =>
      if (c =? 13)%N then
        match t with
        | 10%N :: t' => 10%N :: translate_newlines t'
        | _ => 10%N :: translate_newlines t
        end
      else c :: translate_newlines t
  end.

(** Lines of a text, each with its terminating LF; [cur] is the line being
    read, reversed. *)
Fixpoint keepends_from (cur : str) (s : str) : list str :=
  match s with
  | [] => match cur with [] => [] | _ => [rev cur] end
  | c :: t =>
      if (c =? 10)%N then rev (c :: cur) :: keepends_from [] t
      else keepends_from (c :: cur) t
  end.

(** [file.readlines()] on the text of a file opened with [open(path, "r")]. *)
Definition readlines (text : str) : list str := keepends_from [] text.

(** [xs[i]] *)
Definition getitem {A} (xs : list A) (i : nat) : result A :=
  match nth_error xs i with
  | Some x => Ok x
  | None => Raised IndexError
  end.

(** A character class [[a-b...]] of [re] and [re.sub(class, '', text)]. *)
Definition char_class := list (N * N).

Definition in_class (cls : char_class) (c : N) : bool :=
  existsb (fun r => (fst r <=? c)%N && (c <=? snd r)%N) cls.

Fixpoint re_sub_class (cls : char_class) (text : str) : str :=
  match text with
  | [] => []
  | c :: t =>
      if in_class cls c then re_sub_class cls t
      else c :: re_sub_class cls t
  end.

End Builtins.
Import Builtins.

(** The class [[\u0000-\u0008\u000B\u000C\u000E-\u001F\u007F-\u009F]] of
    [clean_text], the same in both text scripts. *)
Definition control_codes : char_class :=
  [(0, 8); (11, 11); (12, 12); (14, 31); (127, 159)]%N.

(** ** Results of partial operations *)

Definition rbind {A B} (m : result A) (k : A -> result B) : result B :=
  match m with
  | Ok a => k a
  | Raised e => Raised e
  end.

Notation "x <-- m ;; k" := (rbind m (fun x => k))
  (at level 61, m at next level, right associativity).

(** ** What the interpreter and its libraries provide

    The Unicode table behind [\d] and [int], the codecs, [chardet] and
    [xmltodict] are not part of the repository: the scripts are modelled
    over any such [runtime]. *)

(** The tree [xmltodict.parse] returns. *)
Inductive value :=
| VNone
| VStr (s : str)
| VDict (items : list (str * value))
| VList (items : list value).

Record runtime := {
  (** the decimal digits ([\d]) with their values *)
  decimal_value : N -> option N;
  codec : Type;
  (** [chardet.detect(raw)["encoding"]] *)
  chardet_detect : bytes -> option codec;
  (** [raw.decode(encoding)] *)
  decode : codec -> bytes -> result str;
  (** the encoding [open] uses when it is given [None] *)
  preferred_encoding : codec;
  windows_1256 : codec;
  (** [xmltodict.parse(text)] *)
  xmltodict_parse : str -> result value
}.

Section Runtime.
Context (R : runtime).

Definition isdecimal (c : N) : bool :=
  match decimal_value R c with Some _ => true | None => false end.

(** The longest run of [\d] at the head of a text, and what follows it. *)
Fixpoint span_digits (text : str) : str * str :=
  match text with
  | [] => ([], [])
  | c :: t =>
      if isdecimal c then
        let (ds, rest) := span_digits t in (c :: ds, rest)
      else ([], text)
  end.

(** [open(path, "r", encoding=encoding).read()] on the bytes of the file. *)
Definition open_read (encoding : option (codec R)) (raw : bytes) : result str :=
  text <-- decode R
    (match encoding with Some c => c | None => preferred_encoding R end) raw ;;
  Ok (translate_newlines text).

(** [raw.decode(encoding)], where [encoding] may be [None]. *)
Definition bytes_decode (encoding : option (codec R)) (raw : bytes) : result str :=
  match encoding with
  | Some c => decode R c raw
  | None => Raised TypeError
  end.

End Runtime.

(** [data[key]] on a parsed document. *)
Definition subscript (data : value) (key : string) : result value :=
  match data with
  | VDict items =>
      match find (fun kv => str_eqb (fst kv) (py key)) items with
      | Some kv => Ok (snd kv)
      | None => Raised KeyError
      end
  | _ => Raised TypeError
  end.

(** Truth value of a parsed field ([x if x else ""]). *)
Definition truthy (v : value) : bool :=
  match v with
  | VNone => false
  | VStr s => negb (str_eqb s [])
  | VDict items => match items with [] => false | _ => true end
  | VList items => match items with [] => false | _ => true end
  end.

(** [$]: the end of the text, or just before its final line feed. *)
Definition at_end (rest : str) : bool :=
  match rest with
  | [] => true
  | [c] => (c =? 10)%N
  | _ => false
  end.

(** Whether [text] starts with [prefix], and what follows. *)
Fixpoint starts (prefix text : str) : option str :=
  match prefix, text with
  | [], _ => Some text
  | p :: prefix', c :: text' =>
      if (p =? c)%N then starts prefix' text' else None
  | _ :: _, [] => None
  end.

(** [re.search]: the match at the leftmost position that has one. *)
Fixpoint re_search {A} (match_at : str -> option A) (text : str) : option A :=
  match match_at text with
  | Some g => Some g
  | None =>
      match text with
      | [] => None
      | _ :: t => re_search match_at t
      end
  end.

(** ** The store, the log and the calls *)

(** The dictionary a parser returns. *)
Record parsed := {
  title : value;
  label : value;
  slug : value;
  full_text : value;
  file_name : str
}.

Record article := {
  a_title : value;
  a_slug : value;
  a_full_text : value;
  a_file_name : str;
  a_label : value;
  a_created_date : Z;
  a_id_agency : Z
}.

Record processed_file := {
  p_file_name : str;
  p_id_agency : Z;
  p_created_date : Z
}.

Inductive level := INFO | WARNING | ERROR.

Record log_record := {
  lr_level : level;
  lr_message : string;
  lr_subject : str
}.

Inductive call :=
| Get_last_processed_time (agency_id : Z) (answer : result (option Z))
| Is_file_processed (name : str) (answer : result bool)
| Parse (name : str)
| Retrieve (name : str)
| Insert_into_db (name : str)
| Mark_file_as_processed (name : str).

Record world := {
  online2024_articles : list article;
  processedfiles : list processed_file;
  log : list log_record
}.

(** How an [INSERT] followed by [commit] ends: it returns, or it raises
    with the row not stored, or it raises when the row is already stored. *)
Inductive db_outcome := Done | Error_before_commit | Error_after_commit.

(** How the store answers: the two writes about a file, and whether the
    two queries ([connect_db], [execute], [fetchone] under [try ... finally
    conn.close()], no [except]) return or raise. *)
Record storage := {
  insert_outcome : str -> db_outcome;
  mark_outcome : str -> db_outcome;
  lookup_returns : str -> bool;
  watermark_returns : Z -> bool
}.

(** What a query gives: its answer, or the exception of the store. *)
Definition select {A} (returns : bool) (answer : A) : result A :=
  if returns then Ok answer else Raised DatabaseError.

(** A computation of a script: from the state it starts in, how it ends
    (a value or an exception), the state it leaves, and the calls it made,
    the latest first. *)
Definition M (A : Type) := world -> result A * world * list call.

Definition ret {A} (a : A) : M A := fun w => (Ok a, w, []).

Definition raise {A} (e : exn) : M A := fun w => (Raised e, w, []).

Definition bind {A B} (m : M A) (k : A -> M B) : M B :=
  fun w =>
    match m w with
    | (Ok a, w', made) =>
        match k a w' with
        | (r, w'', made') => (r, w'', made' ++ made)
        end
    | (Raised e, w', made) => (Raised e, w', made)
    end.

Notation "x <- m ;; k" := (bind m (fun x => k))
  (at level 61, m at next level, right associativity).
Notation "m ;;; k" := (bind m (fun _ => k))
  (at level 61, right associativity).

(** [try: m  except Exception as e: handler e] *)
Definition try_except {A} (m : M A) (handler : exn -> M A) : M A :=
  fun w =>
    match m w with
    | (Ok a, w', made) => (Ok a, w', made)
    | (Raised e, w', made) =>
        match handler e w' with
        | (r, w'', made') => (r, w'', made' ++ made)
        end
    end.

Definition lift {A} (r : result A) : M A := fun w => (r, w, []).

(** [for x in xs: body x] *)
Fixpoint for_each {A} (xs : list A) (body : A -> M unit) : M unit :=
  match xs with
  | [] => ret tt
  | x :: rest => body x ;;; for_each rest body
  end.

(** A loop that updates a local variable. *)
Fixpoint for_fold {A S} (xs : list A) (s : S) (body : A -> S -> M S) : M S :=
  match xs with
  | [] => ret s
  | x :: rest => s' <- body x s ;; for_fold rest s' body
  end.

(** The state with one more record in the log. *)
Definition logged (l : level) (message : string) (subject : str) (w : world)
  : world :=
  {| online2024_articles := online2024_articles w;
     processedfiles := processedfiles w;
     log := {| lr_level := l; lr_message := message;
               lr_subject := subject |} :: log w |}.

Definition logging (l : level) (message : string) (subject : str) : M unit :=
  fun w => (Ok tt, logged l message subject w, []).

Definition record_call (c : call) : M unit := fun w => (Ok tt, w, [c]).

Definition store_article (row : article) : M unit :=
  fun w =>
    (Ok tt,
     {| online2024_articles := row :: online2024_articles w;
        processedfiles := processedfiles w;
        log := log w |},
     []).

Definition store_processed_file (row : processed_file) : M unit :=
  fun w =>
    (Ok tt,
     {| online2024_articles := online2024_articles w;
        processedfiles := row :: processedfiles w;
        log := log w |},
     []).

(** [SELECT MAX(created_date) FROM processedfiles WHERE id_agency = %s] *)
Fixpoint max_created_date (agency_id : Z) (rows : list processed_file)
  : option Z :=
  match rows with
  | [] => None
  | r :: rest =>
      if (p_id_agency r =? agency_id)%Z then
        match max_created_date agency_id rest with
        | Some m => Some (Z.max (p_created_date r) m)
        | None => Some (p_created_date r)
        end
      else max_created_date agency_id rest
  end.

(** [SELECT 1 FROM processedfiles WHERE file_name = %s] has a row. *)
Definition has_file_name (name : str) (rows : list processed_file) : bool :=
  existsb (fun r => str_eqb (p_file_name r) name) rows.

(** The functions every script defines over the store, in the same words. *)
Module Store.

Definition get_last_processed_time (E : storage) (agency_id : Z)
  : M (option Z) :=
  fun w =>
    let answer :=
      select (watermark_returns E agency_id)
        (max_created_date agency_id (processedfiles w)) in
    (answer, w, [Get_last_processed_time agency_id answer]).

Definition is_file_processed (E : storage) (name : str) : M bool :=
  fun w =>
    let answer :=
      select (lookup_returns E name) (has_file_name name (processedfiles w)) in
    (answer, w, [Is_file_processed name answer]).

End Store.

Module Import StoreWrites.

Definition article_of (data : parsed) (agency_id created_date : Z) : article :=
  {| a_title := title data; a_slug := slug data;
     a_full_text := full_text data; a_file_name := file_name data;
     a_label := label data; a_created_date := created_date;
     a_id_agency := agency_id |}.

(** [cursor.execute(INSERT ...); conn.commit()] under [try ... finally
    conn.close()], for either table. *)
Definition execute_commit (outcome : db_outcome) (write : M unit) : M unit :=
  match outcome with
  | Done => write
  | Error_before_commit => raise DatabaseError
  | Error_after_commit => write ;;; raise DatabaseError
  end.

Definition mark_file_as_processed (E : storage)
    (name : str) (agency_id created_date : Z) : M unit :=
  record_call (Mark_file_as_processed name) ;;;
  execute_commit (mark_outcome E name)
    (store_processed_file
       {| p_file_name := name; p_id_agency := agency_id;
          p_created_date := created_date |}).

Definition insert_into_db (E : storage)
    (data : parsed) (agency_id created_date : Z) : M unit :=
  record_call (Insert_into_db (file_name data)) ;;;
  execute_commit (insert_outcome E (file_name data))
    (store_article (article_of data agency_id created_date)).

End StoreWrites.

(** [if last_processed_time and created_date <= last_processed_time] *)
Definition not_after (last_processed_time : option Z) (created_date : Z)
  : bool :=
  match last_processed_time with
  | Some last => (created_date <=? last)%Z
  | None => false
  end.

Definition label_value (l : option str) : value :=
  match l with
  | Some s => VStr s
  | None => VNone
  end.

(** ** Sources *)

(** A file of a mounted directory or of an SFTP directory: its name, its
    modification time and what reading it gives. *)
Record file := {
  f_name : str;
  st_mtime : Z;
  f_data : result bytes
}.

(** A folder that exists: [listdir] is what [os.listdir] gives, each name
    with the modification time that [sorted] reads as its key and with
    what reading the file gives, or the exception of [os.listdir] or of one
    of these [os.path.getmtime]; [getmtime] is what [os.path.getmtime]
    gives for a name when the loop asks again. *)
Record folder := {
  listdir : result (list file);
  getmtime : str -> result Z
}.

(** [os.path.exists] of the folder of an agency: [None] when it does not
    exist. *)
Definition filesystem := str -> option folder.

(** [sorted(files, key=mtime, reverse=True)] *)
Fixpoint insert_by_mtime (x : file) (sorted : list file) : list file :=
  match sorted with
  | [] => [x]
  | y :: rest =>
      if (st_mtime x <? st_mtime y)%Z then y :: insert_by_mtime x rest
      else x :: sorted
  end.

Definition sorted_reverse (files : list file) : list file :=
  fold_right insert_by_mtime [] files.

(** * fetch_and_parse_articles_ANSA.py *)

Module ANSA.

Definition AGENCIES : list (string * Z) :=
  [("Ansa_Ar", 22); ("Ansa_It", 23); ("Ansa_Fr", 24)]%Z%string.

Section Script.
Context (R : runtime) (E : storage).

(** [_A\d{3}(\d+)\.xml$] at the head of [text]: group 1. *)
Definition label_at (text : str) : option str :=
  match starts (py "_A") text with
  | Some after =>
      let (ds, rest) := span_digits R after in
      match starts (py ".xml") rest with
      | Some tail =>
          if (4 <=? List.length ds)%nat && at_end tail
          then Some (skipn 3 ds) else None
      | None => None
      end
  | None => None
  end.

Definition extract_label (name : str) : option str :=
  match re_search label_at name with
  | Some group1 => Some group1
  | None => None
  end.

(** The body of the [try] of [parse_xml]. *)
Definition parse_xml_try (f : file) : result parsed :=
  raw_data <-- f_data f ;;
  let encoding := chardet_detect R raw_data in
  text <-- open_read R encoding raw_data ;;
  data <-- xmltodict_parse R text ;;
  nitf <-- subscript data "nitf" ;;
  head <-- subscript nitf "head" ;;
  headline <-- subscript head "title" ;;
  let label := extract_label (f_name f) in
  nitf' <-- subscript data "nitf" ;;
  body <-- subscript nitf' "body" ;;
  content <-- subscript body "body.content" ;;
  block <-- subscript content "block" ;;
  full_text <-- subscript block "p" ;;
  Ok {| title := headline; label := label_value label;
        slug := VStr (py " "); full_text := full_text;
        file_name := f_name f |}.

Definition parse_xml (f : file) : M (option parsed) :=
  try_except
    (data <- lift (parse_xml_try f) ;; ret (Some data))
    (fun e =>
       logging ERROR "Unexpected error while parsing" (f_name f) ;;;
       ret None).

(** The body of [for file_name in files] in [main]. *)
Definition main_file (agency_id : Z) (last_processed_time : option Z)
    (d : folder) (f : file) : M unit :=
  let file_name := f_name f in
  if negb (endswith file_name (py ".xml") || endswith file_name (py ".txt"))
  then ret tt
  else
    created_date <- lift (getmtime d file_name) ;;
    if not_after last_processed_time created_date then ret tt
    else
      processed <- Store.is_file_processed E file_name ;;
      if processed then ret tt
      else
        data <- try_except
                  (record_call (Parse file_name) ;;;
                   data <- parse_xml f ;;
                   match data with
                   | None =>
                       logging WARNING "Skipping file due to parsing error."
                         file_name ;;;
                       ret None
                   | Some d => ret (Some d)
                   end)
                  (fun e =>
                     logging ERROR "Error while parsing file" file_name ;;;
                     ret None) ;;
        match data with
        | None => ret tt
        | Some data =>
            try_except
              (insert_into_db E data agency_id created_date ;;;
               mark_file_as_processed E file_name agency_id created_date ;;;
               logging INFO "Successfully processed file" file_name)
              (fun e =>
                 logging ERROR "Error while processing file" file_name ;;;
                 raise e)
        end.

(** What [main] does with one folder that exists. *)
Definition main_folder (agency_id : Z) (d : folder) : M unit :=
  files <- lift (listdir d) ;;
  let files := sorted_reverse files in
  last_processed_time <- Store.get_last_processed_time E agency_id ;;
  for_each files (main_file agency_id last_processed_time d).

(** The body of [for agency_folder, agency_id in AGENCIES.items()]. *)
Definition main_agency (fs : filesystem) (agency : string * Z)
    (has_folders_to_process : bool) : M bool :=
  let (agency_folder, agency_id) := agency in
  match fs (py agency_folder) with
  | None =>
      logging WARNING "Folder does not exist. It might not be mounted."
        (py agency_folder) ;;;
      ret has_folders_to_process
  | Some d =>
      logging INFO "Processing folder" (py agency_folder) ;;;
      main_folder agency_id d ;;;
      ret true
  end.

Definition main (fs : filesystem) : M unit :=
  has_folders_to_process <- for_fold AGENCIES false (main_agency fs) ;;
  if negb has_folders_to_process
  then logging ERROR "No folders to process." []
  else ret tt.

End Script.
End ANSA.

(** * fetch_and_parse_articles_MENA.py *)

Module MENA.

Definition AGENCIES : list (string * Z) := [("mena", 9)]%Z%string.

Definition clean_text (text : str) : str := re_sub_class control_codes text.

Section Script.
Context (R : runtime) (E : storage).

(** [^\d+] at the start of [text]: group 0. *)
Definition get_label (text : str) : option str :=
  match fst (span_digits R text) with
  | [] => None
  | ds => Some ds
  end.

(** [for line in lines[4:]: if not line.strip(): break;
    title_lines.append(line.strip())]: the last value of [line], if the loop
    bound it, and [title_lines]. *)
Fixpoint title_loop (rest : list str) (line : option str)
    (title_lines : list str) : option str * list str :=
  match rest with
  | [] => (line, title_lines)
  | l :: rest' =>
      if str_eqb (strip l) [] then (Some l, title_lines)
      else title_loop rest' (Some l) (title_lines ++ [strip l])
  end.

(** [lines.index(line)] *)
Fixpoint index (lines : list str) (line : str) : result nat :=
  match lines with
  | [] => Raised ValueError
  | l :: rest =>
      if str_eqb l line then Ok 0%nat
      else (i <-- index rest line ;; Ok (S i))
  end.

(** [parse_txt]: it has no handler of its own. *)
Definition parse_txt (f : file) : result parsed :=
  raw <-- f_data f ;;
  let encoding := chardet_detect R raw in
  text <-- open_read R encoding raw ;;
  let lines := readlines text in
  line2 <-- getitem lines 2 ;;
  let label := get_label (strip line2) in
  line3 <-- getitem lines 3 ;;
  let slug := strip line3 in
  let (line, title_lines) := title_loop (skipn 4 lines) None [] in
  let title := join (py " ") title_lines in
  full_text_start <--
    match line with
    | Some l => (i <-- index lines l ;; Ok (i + 1)%nat)
    | None => Raised UnboundLocalError
    end ;;
  let full_text := strip (join [] lines) in
  Ok {| label := label_value label;
        title := VStr (clean_text title);
        slug := VStr (clean_text slug);
        full_text := VStr (clean_text full_text);
        file_name := f_name f |}.

(** The body of [for file_name in files] in [main]. *)
Definition main_file (agency_id : Z) (last_processed_time : option Z)
    (d : folder) (f : file) : M unit :=
  let file_name := f_name f in
  created_date <- lift (getmtime d file_name) ;;
  if not_after last_processed_time created_date then ret tt
  else
    processed <- Store.is_file_processed E file_name ;;
    if processed then ret tt
    else
      data <- try_except
                (record_call (Parse file_name) ;;;
                 data <- lift (parse_txt f) ;;
                 ret (Some data))
                (fun e =>
                   logging ERROR "Error while parsing file" file_name ;;;
                   ret None) ;;
      match data with
      | None => ret tt
      | Some data =>
          try_except
            (insert_into_db E data agency_id created_date ;;;
             mark_file_as_processed E file_name agency_id created_date ;;;
             logging INFO "Successfully processed file" file_name)
            (fun e =>
               logging ERROR "Error while processing file" file_name ;;;
               raise e)
      end.

Definition main_folder (agency_id : Z) (d : folder) : M unit :=
  files <- lift (listdir d) ;;
  let files := sorted_reverse files in
  last_processed_time <- Store.get_last_processed_time E agency_id ;;
  for_each files (main_file agency_id last_processed_time d).

Definition main_agency (fs : filesystem) (agency : string * Z)
    (has_folders_to_process : bool) : M bool :=
  let (agency_folder, agency_id) := agency in
  match fs (py agency_folder) with
  | None =>
      logging WARNING "Folder does not exist. It might not be mounted."
        (py agency_folder) ;;;
      ret has_folders_to_process
  | Some d =>
      logging INFO "Processing folder" (py agency_folder) ;;;
      main_folder agency_id d ;;;
      ret true
  end.

Definition main (fs : filesystem) : M unit :=
  has_folders_to_process <- for_fold AGENCIES false (main_agency fs) ;;
  if negb has_folders_to_process
  then logging ERROR "No folders to process." []
  else ret tt.

End Script.
End MENA.

(** * fetch_and_parse_articles_APS_CHINE.py *)

Module APS_CHINE.

Definition AGENCIES : list (string * Z) :=
  [("aps_ar_xml", 1); ("aps_fr_xml", 2); ("aps_en_xml", 36);
   ("chine_nouvelles_fr", 5); ("chine_nouvelles_ar", 6)]%Z%string.

Fixpoint str_of_uint (d : Decimal.uint) : str :=
  match d with
  | Decimal.Nil => []
  | Decimal.D0 d' => 48%N :: str_of_uint d'
  | Decimal.D1 d' => 49%N :: str_of_uint d'
  | Decimal.D2 d' => 50%N :: str_of_uint d'
  | Decimal.D3 d' => 51%N :: str_of_uint d'
  | Decimal.D4 d' => 52%N :: str_of_uint d'
  | Decimal.D5 d' => 53%N :: str_of_uint d'
  | Decimal.D6 d' => 54%N :: str_of_uint d'
  | Decimal.D7 d' => 55%N :: str_of_uint d'
  | Decimal.D8 d' => 56%N :: str_of_uint d'
  | Decimal.D9 d' => 57%N :: str_of_uint d'
  end.

(** [str(n)] for a natural number. *)
Definition str_of_int (n : N) : str := str_of_uint (N.to_uint n).

Definition islower_az (c : N) : bool := ((97 <=? c) && (c <=? 122))%N.
Definition isupper_AZ (c : N) : bool := ((65 <=? c) && (c <=? 90))%N.

Section Script.
Context (R : runtime) (E : storage).

(** [int(digits)] for a text of decimal digits. *)
Definition int_of (digits : str) : N :=
  fold_left
    (fun acc c =>
       match decimal_value R c with
       | Some v => (10 * acc + v)%N
       | None => acc
       end)
    digits 0%N.

(** [([a-z]{3})([A-Z])(\d{6})_] at the head of [text]: groups 1 and 3. *)
Definition counter_at (text : str) : option (str * str) :=
  match text with
  | a :: b :: c :: u :: rest =>
      let ds := firstn 6 rest in
      if islower_az a && islower_az b && islower_az c && isupper_AZ u
         && (List.length ds =? 6)%nat && forallb (isdecimal R) ds
         && match skipn 6 rest with 95%N :: _ => true | _ => false end
      then Some ([a; b; c], ds) else None
  | _ => None
  end.

(** [re.match(r'^.*?([a-z]{3})([A-Z])(\d{6})_', text)]: the shortest
    prefix without a line feed after which the groups match. *)
Fixpoint match_counter (text : str) : option (str * str) :=
  match counter_at text with
  | Some groups => Some groups
  | None =>
      match text with
      | [] => None
      | c :: t => if (c =? 10)%N then None else match_counter t
      end
  end.

Definition extract_label (name : str) (agency_folder : string)
  : option str :=
  if (String.eqb agency_folder "chine_nouvelles_fr"
      || String.eqb agency_folder "chine_nouvelles_ar")%bool
  then
    match match_counter name with
    | Some (letters, digits) =>
        let cleaned_digits := str_of_int (int_of digits) in
        Some (letters ++ firstn 4 cleaned_digits)
    | None => None
    end
  else None.

(** The body of the [try] of [parse_xml]. *)
Definition parse_xml_try (f : file) (agency_folder : string)
  : result parsed :=
  raw_data <-- f_data f ;;
  let encoding :=
    if String.eqb agency_folder "aps_ar_xml" then Some (windows_1256 R)
    else chardet_detect R raw_data in
  text <-- open_read R encoding raw_data ;;
  data <-- xmltodict_parse R text ;;
  if (String.eqb agency_folder "chine_nouvelles_ar"
      || String.eqb agency_folder "chine_nouvelles_fr")%bool
  then
    cnml <-- subscript data "CNML" ;;
    items <-- subscript cnml "Items" ;;
    item <-- subscript items "Item" ;;
    meta <-- subscript item "MetaInfo" ;;
    group <-- subscript meta "DescriptionMetaGroup" ;;
    titles <-- subscript group "Titles" ;;
    headline <-- subscript titles "HeadLine" ;;
    contents <-- subscript item "Contents" ;;
    content_item <-- subscript contents "ContentItem" ;;
    full_text <-- subscript content_item "DataContent" ;;
    keywords_group <-- subscript group "Keywords" ;;
    keywords <-- subscript keywords_group "Keyword" ;;
    let label := extract_label (f_name f) agency_folder in
    Ok {| title := headline; label := label_value label;
          slug := keywords;
          full_text := if truthy full_text then full_text else VStr [];
          file_name := f_name f |}
  else
    newsml <-- subscript data "NewsML" ;;
    item <-- subscript newsml "NewsItem" ;;
    component <-- subscript item "NewsComponent" ;;
    lines <-- subscript component "NewsLines" ;;
    headline <-- subscript lines "HeadLine" ;;
    identification <-- subscript item "Identification" ;;
    label_node <-- subscript identification "Label" ;;
    label <-- subscript label_node "LabelText" ;;
    slug <-- subscript lines "SlugLine" ;;
    content_item <-- subscript component "ContentItem" ;;
    full_text <-- subscript content_item "DataContent" ;;
    Ok {| title := headline; label := label; slug := slug;
          full_text := full_text; file_name := f_name f |}.

Definition parse_xml (f : file) (agency_folder : string)
  : M (option parsed) :=
  try_except
    (data <- lift (parse_xml_try f agency_folder) ;; ret (Some data))
    (fun e =>
       logging ERROR "Unexpected error while parsing" (f_name f) ;;;
       ret None).

(** The body of [for file_name in files] in [main]. *)
Definition main_file (agency_folder : string) (agency_id : Z)
    (last_processed_time : option Z) (d : folder) (f : file) : M unit :=
  let file_name := f_name f in
  created_date <- lift (getmtime d file_name) ;;
  if not_after last_processed_time created_date then ret tt
  else
    processed <- Store.is_file_processed E file_name ;;
    if processed then ret tt
    else
      data <- try_except
                (record_call (Parse file_name) ;;;
                 data <- parse_xml f agency_folder ;;
                 match data with
                 | None =>
                     logging WARNING "Skipping file due to parsing error."
                       file_name ;;;
                     ret None
                 | Some d => ret (Some d)
                 end)
                (fun e =>
                   logging ERROR "Error while parsing file" file_name ;;;
                   ret None) ;;
      match data with
      | None => ret tt
      | Some data =>
          try_except
            (insert_into_db E data agency_id created_date ;;;
             mark_file_as_processed E file_name agency_id created_date ;;;
             logging INFO "Successfully processed file" file_name)
            (fun e =>
               logging ERROR "Error while processing file" file_name)
      end.

Definition main_folder (agency_folder : string) (agency_id : Z)
    (d : folder) : M unit :=
  files <- lift (listdir d) ;;
  let files := sorted_reverse files in
  last_processed_time <- Store.get_last_processed_time E agency_id ;;
  for_each files (main_file agency_folder agency_id last_processed_time d).

Definition main_agency (fs : filesystem) (agency : string * Z)
    (has_folders_to_process : bool) : M bool :=
  let (agency_folder, agency_id) := agency in
  match fs (py agency_folder) with
  | None =>
      logging WARNING "Folder does not exist. It might not be mounted."
        (py agency_folder) ;;;
      ret has_folders_to_process
  | Some d =>
      logging INFO "Processing folder" (py agency_folder) ;;;
      main_folder agency_folder agency_id d ;;;
      ret true
  end.

Definition main (fs : filesystem) : M unit :=
  has_folders_to_process <- for_fold AGENCIES false (main_agency fs) ;;
  if negb has_folders_to_process
  then logging ERROR "No folders to process." []
  else ret tt.

End Script.
End APS_CHINE.

(** * fetch_and_parse_articles_MAP_FR.py *)

Module MAP_FR.

Definition clean_text (text : str) : str := re_sub_class control_codes text.

(** A naive [datetime], to the minute. *)
Record datetime := {
  year : Z;
  month : Z;
  day : Z;
  hour : Z;
  minute : Z
}.

Definition is_leap (y : Z) : bool :=
  ((y mod 4 =? 0) && (negb (y mod 100 =? 0) || (y mod 400 =? 0)))%Z.

Definition days_in_month (y m : Z) : Z :=
  if (m =? 2)%Z then (if is_leap y then 29 else 28)%Z
  else if ((m =? 4) || (m =? 6) || (m =? 9) || (m =? 11))%Z then 30%Z
  else 31%Z.

(** The checks of the [datetime] constructor. *)
Definition valid (d : datetime) : bool :=
  ((1 <=? year d) && (year d <=? 9999)
   && (1 <=? month d) && (month d <=? 12)
   && (1 <=? day d) && (day d <=? days_in_month (year d) (month d))
   && (0 <=? hour d) && (hour d <=? 23)
   && (0 <=? minute d) && (minute d <=? 59))%Z.

Definition make_datetime (y m d H M : Z) : result datetime :=
  let dt := {| year := y; month := m; day := d; hour := H; minute := M |} in
  if valid dt then Ok dt else Raised ValueError.

(** [dt.replace(year=y)] *)
Definition replace_year (dt : datetime) (y : Z) : result datetime :=
  make_datetime y (month dt) (day dt) (hour dt) (minute dt).

(** [a.date() > b.date()] *)
Definition date_gt (a b : datetime) : bool :=
  ((year b <? year a)
   || (year a =? year b)
      && ((month b <? month a)
          || (month a =? month b) && (day b <? day a)))%Z.

(** Days before January 1st of year [y], and before the first of month [m]
    in year [y] ([date.toordinal]). *)
Definition days_before_year (y : Z) : Z :=
  let y1 := (y - 1)%Z in
  (y1 * 365 + y1 / 4 - y1 / 100 + y1 / 400)%Z.

Definition days_before_month (y m : Z) : Z :=
  fold_left (fun acc k => (acc + days_in_month y (Z.of_nat k))%Z)
    (seq 1 (Z.to_nat m - 1)) 0%Z.

Definition toordinal (dt : datetime) : Z :=
  (days_before_year (year dt) + days_before_month (year dt) (month dt)
   + day dt)%Z.

(** The place of a [datetime] on the time line, in minutes: the value the
    store keeps and compares. *)
Definition timestamp (dt : datetime) : Z :=
  ((toordinal dt * 24 + hour dt) * 60 + minute dt)%Z.

(** A line of the [LIST] answer, split into fields: the last field, the
    month, day, hour and minute that ["%b %d %H:%M"] reads in the three
    fields before it ([None] when they are not of that form), and what
    [RETR] gives for that name. *)
Record ftp_entry := {
  e_name : str;
  e_stamp : option (Z * Z * Z * Z);
  e_data : result bytes
}.

(** What [FTP.connect], [login] and [cwd], then [LIST], give: of the
    lines of the listing, [None] is one without any field, in which
    [parts[-1]] finds no name. *)
Record ftp_server := {
  ftp_login : result unit;
  ftp_list : result (list (option ftp_entry))
}.

(** [datetime.strptime(date_str, "%b %d %H:%M")]: the fields missing from
    the format take the default, year 1900. *)
Definition strptime (e : ftp_entry) : result datetime :=
  match e_stamp e with
  | Some (m, d, H, M) => make_datetime 1900 m d H M
  | None => Raised ValueError
  end.

(** The modification time the loop of [process_mapl_from_ftp] gives an
    entry, [current_date] being [datetime.now()]. *)
Definition infer_modified_time (current_date : datetime) (e : ftp_entry)
  : result datetime :=
  modified_time <-- strptime e ;;
  modified_time <-- replace_year modified_time (year current_date) ;;
  if date_gt modified_time current_date
  then replace_year modified_time (year current_date - 1)
  else Ok modified_time.

Section Script.
Context (R : runtime) (E : storage).

(** [MAP(\d+)] at the head of [text]: group 1. *)
Definition label_at (text : str) : option str :=
  match starts (py "MAP") text with
  | Some after =>
      match fst (span_digits R after) with
      | [] => None
      | ds => Some ds
      end
  | None => None
  end.

Definition get_label (text : str) : str :=
  match re_search label_at text with
  | Some group1 => group1
  | None => py "0"
  end.

(** The body of the [try] of [parse_txt]. *)
Definition parse_txt_try (file_content : bytes) (name : str)
  : result parsed :=
  let encoding := chardet_detect R file_content in
  content <-- bytes_decode R encoding file_content ;;
  let lines := splitlines content in
  line1 <-- getitem lines 1 ;;
  let label := get_label (strip line1) in
  line3 <-- getitem lines 3 ;;
  let slug := strip line3 in
  line4 <-- getitem lines 4 ;;
  let title := strip line4 in
  let full_text := strip (join [10%N] lines) in
  Ok {| label := VStr label;
        title := VStr (clean_text title);
        slug := VStr (clean_text slug);
        full_text := VStr (clean_text full_text);
        file_name := name |}.

Definition parse_txt (file_content : bytes) (name : str)
  : M (option parsed) :=
  try_except
    (data <- lift (parse_txt_try file_content name) ;; ret (Some data))
    (fun e => logging ERROR "Error parsing file" name ;;; ret None).

Definition insert_into_db (data : parsed) (agency_id created_date : Z)
  : M unit :=
  StoreWrites.insert_into_db E data agency_id created_date ;;;
  logging INFO "Inserted data into the database." (file_name data).

(** The body of [for detail in files_details] for a line that has a
    name. *)
Definition process_detail (agency_id : Z) (last_processed_time : option Z)
    (current_date : datetime) (e : ftp_entry) : M unit :=
  let file_name := e_name e in
  try_except
    (modified_time <- lift (infer_modified_time current_date e) ;;
     let modified_time := timestamp modified_time in
     if negb (endswith file_name (py ".xml")
              || endswith file_name (py ".txt")
              || endswith file_name (py ".DAT"))
     then ret tt
     else if not_after last_processed_time modified_time then ret tt
     else
       processed <- Store.is_file_processed E file_name ;;
       if processed then ret tt
       else
         record_call (Retrieve file_name) ;;;
         file_content <- lift (e_data e) ;;
         record_call (Parse file_name) ;;;
         data <- parse_txt file_content file_name ;;
         match data with
         | Some data =>
             insert_into_db data agency_id modified_time ;;;
             mark_file_as_processed E file_name agency_id modified_time
         | None => logging WARNING "Skipped: parsing failed." file_name
         end)
    (fun e => logging ERROR "Error processing file" file_name).

(** The body of [for detail in files_details]; [file_name] is the value
    the variable has from the lines before, if one of them had a name, and
    the result its value after this line. In a line without any field
    [parts[-1]] raises before [file_name] is assigned, and the handler
    formats [file_name] as it is: the name of an earlier line, or none,
    which raises out of the handler. [clock name] is what [datetime.now()]
    returns while the entry of that name is handled. *)
Definition process_line (agency_id : Z) (last_processed_time : option Z)
    (clock : str -> datetime) (detail : option ftp_entry)
    (file_name : option str) : M (option str) :=
  match detail with
  | Some e =>
      process_detail agency_id last_processed_time (clock (e_name e)) e ;;;
      ret (Some (e_name e))
  | None =>
      match file_name with
      | Some name =>
          logging ERROR "Error processing file" name ;;; ret file_name
      | None => raise UnboundLocalError
      end
  end.

Definition process_mapl_from_ftp (server : ftp_server)
    (clock : str -> datetime) (agency_id : Z) : M unit :=
  try_except
    (lift (ftp_login server) ;;;
     logging INFO "Connected to FTP server." [] ;;;
     last_processed_time <- Store.get_last_processed_time E agency_id ;;
     files_details <- lift (ftp_list server) ;;
     for_fold files_details None
       (process_line agency_id last_processed_time clock) ;;;
     ret tt)
    (fun e => logging ERROR "Failed to process MAPL files from FTP" []).

Definition main (server : ftp_server) (clock : str -> datetime) : M unit :=
  logging INFO "Starting MAPL processing." [] ;;;
  process_mapl_from_ftp server clock 4 ;;;
  logging INFO "MAPL processing completed." [].

End Script.
End MAP_FR.

(** * fetch_and_parse_articles_AZERTAC_FR.py *)

Module AZERTAC_FR.

(** What opening the SFTP session, then [chdir], then [listdir_attr],
    give. *)
Record sftp_server := {
  sftp_connect : result unit;
  sftp_chdir : result unit;
  sftp_listdir_attr : result (list file)
}.

Section Script.
Context (R : runtime) (E : storage).

(** [_(\d+)\.xml$] at the head of [text]: group 1. *)
Definition label_at (text : str) : option str :=
  match starts (py "_") text with
  | Some after =>
      let (ds, rest) := span_digits R after in
      match ds, starts (py ".xml") rest with
      | _ :: _, Some tail => if at_end tail then Some ds else None
      | _, _ => None
      end
  | None => None
  end.

Definition get_label (text : str) : str :=
  match re_search label_at text with
  | Some group1 => group1
  | None => py "0"
  end.

(** The body of the [try] of [parse_xml]. *)
Definition parse_xml_try (file_content : bytes) (name : str)
  : result parsed :=
  let encoding := chardet_detect R file_content in
  decoded_content <-- bytes_decode R encoding file_content ;;
  data <-- xmltodict_parse R decoded_content ;;
  let label := get_label name in
  news <-- subscript data "news" ;;
  headline <-- subscript news "title" ;;
  full_text <-- subscript news "body" ;;
  Ok {| title := headline; label := VStr label; slug := VStr (py " ");
        full_text := full_text; file_name := name |}.

Definition parse_xml (file_content : bytes) (name : str)
  : M (option parsed) :=
  try_except
    (data <- lift (parse_xml_try file_content name) ;; ret (Some data))
    (fun e =>
       logging ERROR "Unexpected error while parsing" name ;;; ret None).

Definition insert_into_db (data : parsed) (agency_id created_date : Z)
  : M unit :=
  StoreWrites.insert_into_db E data agency_id created_date ;;;
  logging INFO "Inserted data into the database." (file_name data).

(** The body of [for file_attr in files]. *)
Definition process_file_attr (agency_id : Z)
    (last_processed_time : option Z) (file_attr : file) : M unit :=
  let file_name := f_name file_attr in
  try_except
    (let modified_time := st_mtime file_attr in
     if not_after last_processed_time modified_time then ret tt
     else
       processed <- Store.is_file_processed E file_name ;;
       if processed then ret tt
       else
         record_call (Retrieve file_name) ;;;
         file_content <- lift (f_data file_attr) ;;
         record_call (Parse file_name) ;;;
         data <- parse_xml file_content file_name ;;
         match data with
         | Some data =>
             insert_into_db data agency_id modified_time ;;;
             mark_file_as_processed E file_name agency_id modified_time
         | None => logging WARNING "Skipped: parsing failed." file_name
         end)
    (fun e => logging ERROR "Error processing file" file_name).

Definition process_azertacFr_from_sftp (server : sftp_server)
    (agency_id : Z) : M unit :=
  try_except
    (lift (sftp_connect server) ;;;
     logging INFO "Connected to SFTP server." [] ;;;
     lift (sftp_chdir server) ;;;
     last_processed_time <- Store.get_last_processed_time E agency_id ;;
     files <- lift (sftp_listdir_attr server) ;;
     let files := sorted_reverse files in
     for_each files (process_file_attr agency_id last_processed_time))
    (fun e =>
       logging ERROR "Failed to process Azertac Fr files from SFTP" []).

Definition main (server : sftp_server) : M unit :=
  logging INFO "Starting Azertac Fr processing." [] ;;;
  process_azertacFr_from_sftp server 25 ;;;
  logging INFO "Azertac Fr processing completed." [].

End Script.
End AZERTAC_FR.

(** * Vocabulary of the specification *)

(** The characters the specification says [clean_text] removes:
    U+0000-U+0008, U+000B, U+000C, U+000E-U+001F and U+007F-U+009F. *)
Definition scrubbed (c : N) : Prop :=
  (c <= 8 \/ c = 11 \/ c = 12 \/ (14 <= c /\ c <= 31)
   \/ (127 <= c /\ c <= 159))%N.

(** [scrub s r]: [r] is [s] without its scrubbed characters, the others
    kept in their order. *)
Inductive scrub : str -> str -> Prop :=
| scrub_nil : scrub [] []
| scrub_drop c s r : scrubbed c -> scrub s r -> scrub (c :: s) r
| scrub_keep c s r : ~ scrubbed c -> scrub s r -> scrub (c :: s) (c :: r).

(** [a] occurs in [b] as a run of consecutive characters. *)
Definition occurs_in (a b : str) : Prop :=
  exists before after, b = before ++ a ++ after.

(** What a plain-text parser that left the header lines out of
    [full_text] would store: the lines after the title, as the
    specification describes the other variant. *)
Definition MAP_FR_text_after_header (content : str) : str :=
  MAP_FR.clean_text (strip (join [10%N] (skipn 5 (splitlines content)))).

Definition MENA_text_after_header (text : str) : str :=
  let lines := readlines text in
  match MENA.title_loop (skipn 4 lines) None [] with
  | (Some line, _) =>
      match MENA.index lines line with
      | Ok i => MENA.clean_text (strip (join [] (skipn (i + 1) lines)))
      | Raised _ => []
      end
  | (None, _) => []
  end.

(** A text parser leaves the header out when every [full_text] it
    returns is the text after the header. *)
Definition MENA_leaves_header_out : Prop :=
  forall R f raw text d,
    f_data f = Ok raw ->
    open_read R (chardet_detect R raw) raw = Ok text ->
    MENA.parse_txt R f = Ok d ->
    full_text d = VStr (MENA_text_after_header text).

Definition MAP_FR_leaves_header_out : Prop :=
  forall R raw name content d,
    bytes_decode R (chardet_detect R raw) raw = Ok content ->
    MAP_FR.parse_txt_try R raw name = Ok d ->
    full_text d = VStr (MAP_FR_text_after_header content).

(** The store answers every write: no [INSERT] raises. *)
Definition reliable (E : storage) : Prop :=
  forall name, insert_outcome E name = Done /\ mark_outcome E name = Done.

(** The store answers every query: neither [is_file_processed] nor
    [get_last_processed_time] raises. *)
Definition readable (E : storage) : Prop :=
  (forall name, lookup_returns E name = true)
  /\ (forall agency_id, watermark_returns E agency_id = true).

(** How a script treats the errors of one file.  In ANSA and MENA the date
    of the file and the ledger lookup are outside every [try] and a failed
    write is raised again by its handler; in APS_CHINE the reads are
    outside every [try] too, and the handler of the writes only logs; in
    MAP_FR and AZERTAC_FR the whole body of the loop is in one [try] whose
    handler logs. *)
Inductive policy := Raises_again | Logs_writes | Logs_all.

Definition reraises_writes (p : policy) : bool :=
  match p with
  | Raises_again => true
  | _ => false
  end.

Definition guards_reads (p : policy) : bool :=
  match p with
  | Logs_all => true
  | _ => false
  end.

(** [t] is after the watermark: [not (last and t <= last)]. *)
Definition after_watermark (last : option Z) (t : Z) : Prop :=
  match last with
  | Some m => (m < t)%Z
  | None => True
  end.

(** An article row and a ledger row written for the same file. *)
Definition same_file (a : article) (p : processed_file) : Prop :=
  a_file_name a = p_file_name p /\ a_id_agency a = p_id_agency p
  /\ a_created_date a = p_created_date p.

(** * The course of one file through a pass

    The states of the specification ([SkippedNotProcessable],
    [SkippedStale], [SkippedDuplicate], [SkippedParseFailed], [Failed],
    [Committed]) as the ways the body of a loop can end. *)

Definition same_tables (w w' : world) : Prop :=
  online2024_articles w' = online2024_articles w
  /\ processedfiles w' = processedfiles w.

Definition error_logged (name : str) (w : world) : Prop :=
  exists message,
    In {| lr_level := ERROR; lr_message := message; lr_subject := name |}
       (log w).

(** Which rows the two writes of a file leave, by how they end. *)
Definition article_stored (io : db_outcome) : bool :=
  match io with
  | Error_before_commit => false
  | _ => true
  end.

Definition marked (io mo : db_outcome) : bool :=
  match io, mo with
  | Done, Done | Done, Error_after_commit => true
  | _, _ => false
  end.

Definition committed (io mo : db_outcome) : bool :=
  match io, mo with
  | Done, Done => true
  | _, _ => false
  end.

Definition mark_called (io : db_outcome) (name : str) : list call :=
  match io with
  | Done => [Mark_file_as_processed name]
  | _ => []
  end.

(** The calls that read a file, once it passed the ledger. *)
Inductive reads (name : str) : list call -> Prop :=
| reads_local : reads name [Parse name]
| reads_remote : reads name [Parse name; Retrieve name].

(** [handled E agency_id last policy name accepted stamp content w r w'
    made]: the body of the loop, run in [w] on the file [name] whose
    extension is [accepted] or not, whose modification time is [stamp] and
    whose reading and parsing give [content], ends as [r] in [w'] having
    made the calls [made]; [last] is the watermark and [policy] tells which
    errors the script lets out of the body. *)
Inductive handled (E : storage) (agency_id : Z) (last : option Z)
    (policy : policy) (name : str) (accepted : bool) (stamp : result Z)
    (content : result parsed) (w : world)
    (r : result unit) (w' : world) (made : list call) : Prop :=
| skipped_not_processable :
    accepted = false
    \/ (guards_reads policy = true /\ exists e, stamp = Raised e) ->
    same_tables w w' -> r = Ok tt -> made = [] ->
    handled E agency_id last policy name accepted stamp content w r w' made
| skipped_stale t :
    accepted = true -> stamp = Ok t -> not_after last t = true ->
    w' = w -> r = Ok tt -> made = [] ->
    handled E agency_id last policy name accepted stamp content w r w' made
| skipped_duplicate t :
    accepted = true -> stamp = Ok t -> not_after last t = false ->
    lookup_returns E name = true ->
    has_file_name name (processedfiles w) = true ->
    w' = w -> r = Ok tt -> made = [Is_file_processed name (Ok true)] ->
    handled E agency_id last policy name accepted stamp content w r w' made
| skipped_parse_failed t e pre :
    accepted = true -> stamp = Ok t -> not_after last t = false ->
    lookup_returns E name = true ->
    has_file_name name (processedfiles w) = false ->
    content = Raised e ->
    same_tables w w' -> error_logged name w' ->
    reads name pre \/ pre = [Retrieve name] ->
    r = Ok tt -> made = pre ++ [Is_file_processed name (Ok false)] ->
    handled E agency_id last policy name accepted stamp content w r w' made
| attempted t data pre :
    accepted = true -> stamp = Ok t -> not_after last t = false ->
    lookup_returns E name = true ->
    has_file_name name (processedfiles w) = false ->
    content = Ok data -> file_name data = name ->
    reads name pre ->
    online2024_articles w' =
      (if article_stored (insert_outcome E name)
       then [article_of data agency_id t] else [])
      ++ online2024_articles w ->
    processedfiles w' =
      (if marked (insert_outcome E name) (mark_outcome E name)
       then [{| p_file_name := name; p_id_agency := agency_id;
                p_created_date := t |}]
       else [])
      ++ processedfiles w ->
    (committed (insert_outcome E name) (mark_outcome E name) = false ->
     error_logged name w') ->
    r = (if committed (insert_outcome E name) (mark_outcome E name)
            || negb (reraises_writes policy)
         then Ok tt else Raised DatabaseError) ->
    made = mark_called (insert_outcome E name) name
           ++ Insert_into_db name :: pre
           ++ [Is_file_processed name (Ok false)] ->
    handled E agency_id last policy name accepted stamp content w r w' made
| lookup_failed t :
    accepted = true -> stamp = Ok t -> not_after last t = false ->
    lookup_returns E name = false ->
    same_tables w w' ->
    (if guards_reads policy then error_logged name w' else w' = w) ->
    r = (if guards_reads policy then Ok tt else Raised DatabaseError) ->
    made = [Is_file_processed name (Raised DatabaseError)] ->
    handled E agency_id last policy name accepted stamp content w r w' made
| date_failed e :
    accepted = true -> stamp = Raised e -> guards_reads policy = false ->
    w' = w -> r = Raised e -> made = [] ->
    handled E agency_id last policy name accepted stamp content w r w' made.

(** [steps step xs w r w' made]: the files [xs] handled one after the
    other from [w], each as [step] says, up to the first that raises;
    between two files the log may get records. *)
Inductive steps {C : Type}
    (step : C -> world -> result unit -> world -> list call -> Prop)
  : list C -> world -> result unit -> world -> list call -> Prop :=
| steps_nil w : steps step [] w (Ok tt) w []
| steps_next x xs w w1 made1 r w2 made2 :
    step x w (Ok tt) w1 made1 ->
    steps step xs w1 r w2 made2 ->
    steps step (x :: xs) w r w2 (made2 ++ made1)
| steps_raise x xs w e w1 made1 :
    step x w (Raised e) w1 made1 ->
    steps step (x :: xs) w (Raised e) w1 made1
| steps_log xs w w1 r w2 made :
    same_tables w w1 ->
    steps step xs w1 r w2 made ->
    steps step xs w r w2 made.

(** The order of the calls of a pass: what the call made just before each
    call has to be. *)
Definition allowed_after (E : storage) (c : call) (previous : option call)
  : Prop :=
  match c with
  | Mark_file_as_processed name =>
      previous = Some (Insert_into_db name) /\ insert_outcome E name = Done
  | Insert_into_db name => previous = Some (Parse name)
  | Parse name =>
      previous = Some (Retrieve name)
      \/ previous = Some (Is_file_processed name (Ok false))
  | Retrieve name => previous = Some (Is_file_processed name (Ok false))
  | Is_file_processed _ _ => True
  | Get_last_processed_time _ _ => True
  end.

Fixpoint chained (E : storage) (made : list call) : Prop :=
  match made with
  | [] => True
  | c :: earlier => allowed_after E c (hd_error earlier) /\ chained E earlier
  end.

(** No ledger row without its article: every row of [processedfiles] in
    [w'] was there in [w] or has an article for the same file in [w']. *)
Definition no_ghost (w w' : world) : Prop :=
  incl (online2024_articles w) (online2024_articles w')
  /\ forall p, In p (processedfiles w') ->
       In p (processedfiles w)
       \/ exists a, In a (online2024_articles w') /\ same_file a p.

(** ** Properties of a run

    [respects P m]: every run of [m] relates the state it starts in, the
    state it leaves and the calls it made by [P]. *)
Definition respects {A} (P : world -> world -> list call -> Prop) (m : M A)
  : Prop :=
  forall w r w' made, m w = (r, w', made) -> P w w' made.

(** Properties that hold of a run that changes no table and makes no call,
    of the reading of the watermark, and of two runs in a row when they
    hold of each. *)
Record composable (P : world -> world -> list call -> Prop) : Prop := {
  comp_same : forall w w', same_tables w w' -> P w w' [];
  comp_watermark :
    forall w agency_id answer,
      P w w [Get_last_processed_time agency_id answer];
  comp_trans :
    forall w1 w2 w3 made1 made2,
      P w1 w2 made1 -> P w2 w3 made2 -> P w1 w3 (made2 ++ made1)
}.

Definition safe (E : storage) (w w' : world) (made : list call) : Prop :=
  chained E made /\ no_ghost w w'.

(** A run of one of the five scripts. *)
Inductive script_run (R : runtime) (E : storage)
  : world -> result unit -> world -> list call -> Prop :=
| run_ANSA fs w r w' made :
    ANSA.main R E fs w = (r, w', made) -> script_run R E w r w' made
| run_MENA fs w r w' made :
    MENA.main R E fs w = (r, w', made) -> script_run R E w r w' made
| run_APS_CHINE fs w r w' made :
    APS_CHINE.main R E fs w = (r, w', made) -> script_run R E w r w' made
| run_MAP_FR server clock w r w' made :
    MAP_FR.main R E server clock w = (r, w', made) ->
    script_run R E w r w' made
| run_AZERTAC_FR server w r w' made :
    AZERTAC_FR.main R E server w = (r, w', made) ->
    script_run R E w r w' made.

(** [watermark_then E agency_id loop]: the watermark of the agency is read,
    once, in the state the pass is in; the loop runs with what was read,
    and does not run when the read raises. *)
Definition watermark_then {A} (E : storage) (agency_id : Z)
    (loop : option Z -> M A) : M A :=
  fun w =>
    if watermark_returns E agency_id then
      let last := max_created_date agency_id (processedfiles w) in
      match loop last w with
      | (r, w', made) =>
          (r, w', made ++ [Get_last_processed_time agency_id (Ok last)])
      end
    else
      (Raised DatabaseError, w,
       [Get_last_processed_time agency_id (Raised DatabaseError)]).

(** [guarded_by_ledger E name body]: run on a file that the ledger holds,
    the body of a loop makes the one call of [is_file_processed], which
    answers [True] if it answers, and writes nothing. *)
Definition guarded_by_ledger (E : storage) (name : str) (body : M unit)
  : Prop :=
  forall w r w' made,
    body w = (r, w', made) ->
    has_file_name name (processedfiles w) = true ->
    same_tables w w'
    /\ made = [Is_file_processed name (select (lookup_returns E name) true)].

(** [after_lookup made]: in the calls [made], each fetch, parse and insert
    of a file comes after the ledger was asked about that file and
    answered that it does not hold it, nothing but the fetch and the parse
    of the file in between. *)
Definition after_lookup (made : list call) : Prop :=
  forall later name earlier,
    (made = later ++ Retrieve name :: earlier ->
     exists before, earlier = Is_file_processed name (Ok false) :: before)
    /\ (made = later ++ Parse name :: earlier ->
        exists before,
          earlier = Is_file_processed name (Ok false) :: before
          \/ earlier = Retrieve name
                       :: Is_file_processed name (Ok false) :: before)
    /\ (made = later ++ Insert_into_db name :: earlier ->
        exists before,
          earlier = Parse name :: Is_file_processed name (Ok false) :: before
          \/ earlier = Parse name :: Retrieve name
                       :: Is_file_processed name (Ok false) :: before).

(** The file a call is about; the reading of the watermark is about
    none. *)
Definition call_name (c : call) : option str :=
  match c with
  | Get_last_processed_time _ _ => None
  | Is_file_processed name _ => Some name
  | Parse name => Some name
  | Retrieve name => Some name
  | Insert_into_db name => Some name
  | Mark_file_as_processed name => Some name
  end.

(** [only_for accepted w w' made]: the rows that [w'] has and [w] has not,
    and the calls [made] about a file, are about files whose names are
    [accepted]. *)
Definition only_for (accepted : str -> bool) (w w' : world)
    (made : list call) : Prop :=
  (forall a, In a (online2024_articles w') ->
     In a (online2024_articles w) \/ accepted (a_file_name a) = true)
  /\ (forall p, In p (processedfiles w') ->
        In p (processedfiles w) \/ accepted (p_file_name p) = true)
  /\ (forall c name,
        In c made -> call_name c = Some name -> accepted name = true).

(** The extensions the loop of ANSA lets through. *)
Definition ANSA_accepted (name : str) : bool :=
  endswith name (py ".xml") || endswith name (py ".txt").

(** [returns m]: [m] never ends with an exception. *)
Definition returns {A} (m : M A) : Prop :=
  forall w, exists a w' made, m w = (Ok a, w', made).

(** [logs_failures E name content body]: when the body of a loop, run on
    the file [name] whose reading and parsing give [content], gets past
    the ledger and the reading fails, or calls [insert_into_db] and one of
    the two writes fails, an [ERROR] record about [name] is in the log. *)
Definition logs_failures (E : storage) (name : str) (content : result parsed)
    (body : M unit) : Prop :=
  forall w r w' made,
    body w = (r, w', made) ->
    (In (Is_file_processed name (Ok false)) made ->
     (exists e, content = Raised e) -> error_logged name w')
    /\ (In (Insert_into_db name) made ->
        committed (insert_outcome E name) (mark_outcome E name) = false ->
        error_logged name w').

(** How the body of a loop ends on a file, by what the file is, what the
    ledger holds and how the store answers: with the exception of the date
    or of the ledger lookup where the script has these outside every
    [try], with the exception of a failed write where the script raises it
    again, and normally otherwise. *)
Definition file_result (E : storage) (policy : policy) (last : option Z)
    (ledger : list processed_file) (name : str) (accepted : bool)
    (stamp : result Z) (content : result parsed) : result unit :=
  if negb accepted then Ok tt
  else
    match stamp with
    | Raised e => if guards_reads policy then Ok tt else Raised e
    | Ok t =>
        if not_after last t then Ok tt
        else if negb (lookup_returns E name)
        then (if guards_reads policy then Ok tt else Raised DatabaseError)
        else if has_file_name name ledger then Ok tt
        else
          match content with
          | Raised _ => Ok tt
          | Ok _ =>
              if committed (insert_outcome E name) (mark_outcome E name)
                 || negb (reraises_writes policy)
              then Ok tt else Raised DatabaseError
          end
    end.

(** [ends_as expected body]: run in a state, [body] ends as [expected]
    says of the ledger of that state. *)
Definition ends_as (expected : list processed_file -> result unit)
    (body : M unit) : Prop :=
  forall w r w' made, body w = (r, w', made) -> r = expected (processedfiles w).

(** Every folder that exists can be listed, and the date of each file it
    lists can be read when the loop asks for it. *)
Definition statable (fs : filesystem) : Prop :=
  forall name d,
    fs name = Some d ->
    exists files,
      listdir d = Ok files
      /\ forall f, In f files -> exists t, getmtime d (f_name f) = Ok t.

(** [stops_at_raise body]: a loop whose body raises on a file ends there,
    with that exception: the files after it are not handled. *)
Definition stops_at_raise {A} (body : A -> M unit) : Prop :=
  forall x rest w e w' made,
    body x w = (Raised e, w', made) ->
    for_each (x :: rest) body w = (Raised e, w', made).

(** Whether a partial operation gave a value. *)
Definition succeeds {A} (r : result A) : bool :=
  match r with
  | Ok _ => true
  | Raised _ => false
  end.

(** The same file under another name. *)
Definition renamed (name : str) (f : file) : file :=
  {| f_name := name; st_mtime := st_mtime f; f_data := f_data f |}.

(** ** A pass repeated *)

(** Why a pass leaves a file: its extension, a date that cannot be read,
    the watermark, the ledger, or a reading or parsing that fails. *)
Inductive eliminated (last : option Z) (ledger : list processed_file)
    (name : str) (accepted : bool) (stamp : result Z)
    (content : result parsed) : Prop :=
| by_extension :
    accepted = false -> eliminated last ledger name accepted stamp content
| by_unread_date e :
    stamp = Raised e -> eliminated last ledger name accepted stamp content
| by_watermark t :
    stamp = Ok t -> not_after last t = true ->
    eliminated last ledger name accepted stamp content
| by_ledger :
    has_file_name name ledger = true ->
    eliminated last ledger name accepted stamp content
| by_parse_failure e :
    content = Raised e -> eliminated last ledger name accepted stamp content.

(** No call of [insert_into_db] or [mark_file_as_processed]. *)
Definition writes_nothing (made : list call) : Prop :=
  forall c, In c made ->
    match c with
    | Insert_into_db _ | Mark_file_as_processed _ => False
    | _ => True
    end.

(** A file that has everything to be read once more: it passes the
    extension filter, has a date after the watermark, is not in the ledger,
    and its reading or parsing fails. *)
Definition unparsed (last : option Z) (ledger : list processed_file)
    (name : str) (accepted : bool) (stamp : result Z)
    (content : result parsed) : Prop :=
  accepted = true
  /\ (exists t, stamp = Ok t /\ not_after last t = false)
  /\ has_file_name name ledger = false
  /\ exists e, content = Raised e.

(** The file is fetched or given to its parser among the calls. *)
Definition read_in (name : str) (made : list call) : Prop :=
  In (Parse name) made \/ In (Retrieve name) made.

(** [second_pass_idle first second all_eliminated read_again]: after a
    pass that completed, during which the store answered every query and
    every write, a second pass, however the store answers then, changes
    neither table and calls no write; [all_eliminated] holds of the state
    between the two; and when the store answers the queries of the second
    pass, it returns and [read_again] holds of its calls. *)
Definition second_pass_idle (first second : storage -> M unit)
    (all_eliminated : world -> Prop)
    (read_again : world -> list call -> Prop) : Prop :=
  forall E1 E2 w0 w1 made1 r2 w2 made2,
    reliable E1 -> readable E1 ->
    first E1 w0 = (Ok tt, w1, made1) ->
    second E2 w1 = (r2, w2, made2) ->
    same_tables w1 w2 /\ writes_nothing made2 /\ all_eliminated w1
    /\ (readable E2 -> r2 = Ok tt /\ read_again w1 made2).

(** The first line of the listing, if there is one, has a name. *)
Definition named_first (lines : list (option MAP_FR.ftp_entry)) : Prop :=
  match lines with
  | None :: _ => False
  | _ => True
  end.

(** The lines of a listing that have a name. *)
Fixpoint entries (lines : list (option MAP_FR.ftp_entry))
  : list MAP_FR.ftp_entry :=
  match lines with
  | [] => []
  | Some e :: rest => e :: entries rest
  | None :: rest => entries rest
  end.

(** ** What the remote scripts obtain for an entry *)

(** The modification time and the content of an entry of the listing, as
    the loop of MAP_FR obtains them. *)
Definition MAP_FR_stamp (now : MAP_FR.datetime) (e : MAP_FR.ftp_entry)
  : result Z :=
  modified_time <-- MAP_FR.infer_modified_time now e ;;
  Ok (MAP_FR.timestamp modified_time).

Definition MAP_FR_content (R : runtime) (e : MAP_FR.ftp_entry)
  : result parsed :=
  file_content <-- MAP_FR.e_data e ;;
  MAP_FR.parse_txt_try R file_content (MAP_FR.e_name e).

Definition MAP_FR_accepted (name : str) : bool :=
  endswith name (py ".xml") || endswith name (py ".txt")
  || endswith name (py ".DAT").

(** The folders of APS_CHINE whose files [parse_xml] reads as NewsML. *)
Definition newsml_folder (agency_folder : string) : bool :=
  negb (String.eqb agency_folder "chine_nouvelles_ar"
        || String.eqb agency_folder "chine_nouvelles_fr").

(** The document that [parse_xml] of APS_CHINE gets from a file. *)
Definition APS_CHINE_document (R : runtime) (f : file)
    (agency_folder : string) : result value :=
  raw_data <-- f_data f ;;
  let encoding :=
    if String.eqb agency_folder "aps_ar_xml" then Some (windows_1256 R)
    else chardet_detect R raw_data in
  text <-- open_read R encoding raw_data ;;
  xmltodict_parse R text.

(** [data["NewsML"]["NewsItem"]["Identification"]["Label"]["LabelText"]] *)
Definition label_text (data : value) : result value :=
  newsml <-- subscript data "NewsML" ;;
  item <-- subscript newsml "NewsItem" ;;
  identification <-- subscript item "Identification" ;;
  label_node <-- subscript identification "Label" ;;
  subscript label_node "LabelText".

(** The other fields that [parse_xml] of APS_CHINE takes from a NewsML
    document. *)
Definition news_lines (data : value) : result (value * value * value) :=
  newsml <-- subscript data "NewsML" ;;
  item <-- subscript newsml "NewsItem" ;;
  component <-- subscript item "NewsComponent" ;;
  lines <-- subscript component "NewsLines" ;;
  headline <-- subscript lines "HeadLine" ;;
  slug <-- subscript lines "SlugLine" ;;
  content_item <-- subscript component "ContentItem" ;;
  full_text <-- subscript content_item "DataContent" ;;
  Ok (headline, slug, full_text).

(** The content of a file of the SFTP directory, read and parsed. *)
Definition AZERTAC_FR_content (R : runtime) (f : file) : result parsed :=
  file_content <-- f_data f ;;
  AZERTAC_FR.parse_xml_try R file_content (f_name f).

(** * A runtime and sources to run the scripts on *)

Module Sample.

Definition is_ascii (raw : bytes) : bool := forallb (fun b => (b <? 128)%N) raw.

Definition nitf_document : value :=
  VDict
    [(py "nitf",
      VDict
        [(py "head", VDict [(py "title", VStr (py "Titolo"))]);
         (py "body",
          VDict
            [(py "body.content",
              VDict [(py "block", VDict [(py "p", VStr (py "Testo"))])])])])].

Definition news_document : value :=
  VDict
    [(py "news",
      VDict [(py "title", VStr (py "Titre")); (py "body", VStr (py "Texte"))])].

(** ASCII digits and ASCII files; of XML, the two documents above are read,
    from their first characters. *)
Definition ascii_runtime : runtime :=
  {| decimal_value :=
       fun c => if ((48 <=? c) && (c <=? 57))%N then Some (c - 48)%N else None;
     codec := unit;
     chardet_detect :=
       fun raw =>
         match raw with
         | [] => None
         | _ => if is_ascii raw then Some tt else None
         end;
     decode := fun _ raw => if is_ascii raw then Ok raw else Raised UnicodeError;
     preferred_encoding := tt;
     windows_1256 := tt;
     xmltodict_parse :=
       fun text =>
         match starts (py "<nitf>") text, starts (py "<news>") text with
         | Some _, _ => Ok nitf_document
         | _, Some _ => Ok news_document
         | _, _ => Raised ExpatError
         end |}.

(** A NewsML document, with its label or with an identification that has
    none, and a runtime that reads the two from their first characters. *)
Definition newsml_document (labelled : bool) : value :=
  VDict
    [(py "NewsML",
      VDict
        [(py "NewsItem",
          VDict
            [(py "Identification",
              VDict
                ((py "NewsIdentifier", VStr (py "aps-1"))
                 :: if labelled
                    then [(py "Label",
                           VDict [(py "LabelText", VStr (py "APS0042"))])]
                    else []));
             (py "NewsComponent",
              VDict
                [(py "NewsLines",
                  VDict [(py "HeadLine", VStr (py "Titre"));
                         (py "SlugLine", VStr (py "Sport"))]);
                 (py "ContentItem",
                  VDict [(py "DataContent", VStr (py "Texte"))])])])])].

Definition newsml_runtime : runtime :=
  {| decimal_value := decimal_value ascii_runtime;
     codec := codec ascii_runtime;
     chardet_detect := chardet_detect ascii_runtime;
     decode := decode ascii_runtime;
     preferred_encoding := preferred_encoding ascii_runtime;
     windows_1256 := windows_1256 ascii_runtime;
     xmltodict_parse :=
       fun text =>
         match starts (py "<NewsML><Label>") text,
               starts (py "<NewsML>") text with
         | Some _, _ => Ok (newsml_document true)
         | _, Some _ => Ok (newsml_document false)
         | _, _ => Raised ExpatError
         end |}.

Definition always_done : storage :=
  {| insert_outcome := fun _ => Done; mark_outcome := fun _ => Done;
     lookup_returns := fun _ => true; watermark_returns := fun _ => true |}.

(** The store that fails to insert the article of one file. *)
Definition insert_fails_for (name : str) : storage :=
  {| insert_outcome :=
       fun n => if str_eqb n name then Error_before_commit else Done;
     mark_outcome := fun _ => Done;
     lookup_returns := fun _ => true; watermark_returns := fun _ => true |}.

(** The store that fails to answer [is_file_processed] for one file. *)
Definition lookup_fails_for (name : str) : storage :=
  {| insert_outcome := fun _ => Done; mark_outcome := fun _ => Done;
     lookup_returns := fun n => negb (str_eqb n name);
     watermark_returns := fun _ => true |}.

Definition empty_world : world :=
  {| online2024_articles := []; processedfiles := []; log := [] |}.

(** Lines of text, each ended by a line feed. *)
Definition text_of (lines : list string) : str :=
  List.concat (map (fun l => py l ++ [10%N]) lines).

Definition plain_file (name : string) (mtime : Z) (lines : list string)
  : file :=
  {| f_name := py name; st_mtime := mtime; f_data := Ok (text_of lines) |}.

(** A dispatch in the layout of MENA: two heading lines, the number, the
    slug, the title, an empty line, the body. *)
Definition dispatch : list string :=
  ["MENA"; "-"; "123 urgent"; "Economy"; "Markets open higher"; "";
   "Cairo - stocks rose."]%string.

(** A dispatch in the layout of MAP. *)
Definition map_dispatch : list string :=
  ["ZCZC"; "MAP0042 4 GEN"; "-"; "Sport"; "Le match est reporte";
   "Rabat - le match est reporte."]%string.

Definition at_time (y m d H M : Z) : MAP_FR.datetime :=
  {| MAP_FR.year := y; MAP_FR.month := m; MAP_FR.day := d;
     MAP_FR.hour := H; MAP_FR.minute := M |}.

Definition ftp_file (name : string) (stamp : Z * Z * Z * Z)
    (lines : list string) : MAP_FR.ftp_entry :=
  {| MAP_FR.e_name := py name; MAP_FR.e_stamp := Some stamp;
     MAP_FR.e_data := Ok (text_of lines) |}.

(** A folder that lists the files given, each with the date it keeps. *)
Definition folder_of (files : list file) : folder :=
  {| listdir := Ok files;
     getmtime :=
       fun name =>
         match find (fun f => str_eqb (f_name f) name) files with
         | Some f => Ok (st_mtime f)
         | None => Raised OSError
         end |}.

Definition mena_files : list file :=
  [plain_file "d1.txt" 100 dispatch;
   plain_file "d2.txt" 200 dispatch;
   plain_file "short.txt" 300 ["MENA"; "-"]%string].

(** The folder of MENA with two dispatches and a file that is none. *)
Definition mena_depot : filesystem :=
  fun folder =>
    if str_eqb folder (py "mena") then Some (folder_of mena_files) else None.

(** An FTP server that lists one dispatch of March 1st, and a clock that
    reads noon of that day in 2024. *)
Definition map_server : MAP_FR.ftp_server :=
  {| MAP_FR.ftp_login := Ok tt;
     MAP_FR.ftp_list :=
       Ok [Some (ftp_file "m1.txt" (3, 1, 10, 0)%Z map_dispatch)] |}.

Definition noon (_ : str) : MAP_FR.datetime := at_time 2024 3 1 12 0.

(** An FTP server that lists one dispatch dated March 2nd, half past
    midnight; a state whose newest file of MAP_FR is of March 1st 2024,
    20:00; a clock that reads 23:30 of March 1st and one that reads 00:40
    of March 2nd. *)
Definition night_server : MAP_FR.ftp_server :=
  {| MAP_FR.ftp_login := Ok tt;
     MAP_FR.ftp_list :=
       Ok [Some (ftp_file "m1.txt" (3, 2, 0, 30)%Z map_dispatch)] |}.

Definition evening_world : world :=
  {| online2024_articles := [];
     processedfiles :=
       [{| p_file_name := py "m0.txt"; p_id_agency := 4;
           p_created_date := MAP_FR.timestamp (at_time 2024 3 1 20 0) |}];
     log := [] |}.

Definition before_midnight (_ : str) : MAP_FR.datetime :=
  at_time 2024 3 1 23 30.

Definition after_midnight (_ : str) : MAP_FR.datetime :=
  at_time 2024 3 2 0 40.

End Sample.



(** * Further vocabulary *)

(** [newer_first a b]: [a] may come before [b] in a listing sorted by
    modification time, the latest first. *)
Definition newer_first (a b : file) : Prop := (st_mtime b <= st_mtime a)%Z.

(** The files of a listing modified at time [t], in their order. *)
Definition modified_at (t : Z) (files : list file) : list file :=
  filter (fun f => (st_mtime f =? t)%Z) files.

(** [grows w w' made]: [w'] has the rows of [w], and new ones on top. *)
Definition grows (w w' : world) (made : list call) : Prop :=
  (exists new, online2024_articles w' = new ++ online2024_articles w)
  /\ (exists new, processedfiles w' = new ++ processedfiles w).

(** [keeps_names_apart w w' made]: if no two rows of the ledger of [w] have
    the same file name, none of the ledger of [w'] have. *)
Definition keeps_names_apart (w w' : world) (made : list call) : Prop :=
  NoDup (map p_file_name (processedfiles w)) ->
  NoDup (map p_file_name (processedfiles w')).

(** [committable last ledger name accepted stamp content]: the file passes
    the extension filter, has a date, which is after the watermark, is not
    in the ledger, and is read and parsed. *)
Definition committable (last : option Z) (ledger : list processed_file)
    (name : str) (accepted : bool) (stamp : result Z)
    (content : result parsed) : bool :=
  accepted
  && match stamp with
     | Ok t => negb (not_after last t)
     | Raised _ => false
     end
  && negb (has_file_name name ledger)
  && succeeds content.

(** [commits_exactly pass name selected xs]: the pass returns, and the file
    names of the rows it adds to each table are those of the files of [xs]
    that [selected] picks in the state the pass starts in, each once, the
    last handled on top. *)
Definition commits_exactly {C} (pass : M unit) (name : C -> str)
    (selected : world -> C -> bool) (xs : list C) : Prop :=
  forall w r w' made,
    pass w = (r, w', made) ->
    r = Ok tt
    /\ map p_file_name (processedfiles w')
       = rev (map name (filter (selected w) xs))
         ++ map p_file_name (processedfiles w)
    /\ map a_file_name (online2024_articles w')
       = rev (map name (filter (selected w) xs))
         ++ map a_file_name (online2024_articles w).

(** [idle_run m new]: the run [m] returns, changes neither table, makes no
    call, and adds the records [new], the latest first, to the log. *)
Definition idle_run (m : M unit) (new : list log_record) : Prop :=
  forall w,
    exists w',
      m w = (Ok tt, w', []) /\ same_tables w w' /\ log w' = new ++ log w.

(** [asks_only m asked new]: the run [m] returns, changes neither table,
    makes the calls [asked w] when it starts in [w], and adds the records
    [new], the latest first, to the log. *)
Definition asks_only (m : M unit) (asked : world -> list call)
    (new : list log_record) : Prop :=
  forall w,
    exists w',
      m w = (Ok tt, w', asked w) /\ same_tables w w'
      /\ log w' = new ++ log w.

(** The one call of [get_last_processed_time] of a pass that starts in
    [w], with its answer. *)
Definition watermark_asked (E : storage) (agency_id : Z) (w : world)
  : list call :=
  [Get_last_processed_time agency_id
     (select (watermark_returns E agency_id)
        (max_created_date agency_id (processedfiles w)))].

(** The records of [main] about the folders: an agency whose folder does
    not exist, and no folder at all. *)
Definition folder_missing (agency : string * Z) : log_record :=
  {| lr_level := WARNING;
     lr_message := "Folder does not exist. It might not be mounted.";
     lr_subject := py (fst agency) |}.

Definition no_folders : log_record :=
  {| lr_level := ERROR; lr_message := "No folders to process.";
     lr_subject := [] |}.

Definition info (message : string) : log_record :=
  {| lr_level := INFO; lr_message := message; lr_subject := [] |}.

Definition error (message : string) : log_record :=
  {| lr_level := ERROR; lr_message := message; lr_subject := [] |}.

(** A run of decimal digits that is not empty. *)
Definition number (R : runtime) (s : str) : Prop :=
  s <> [] /\ Forall (fun c => isdecimal R c = true) s.

(** [rest] does not go on with a decimal digit. *)
Definition no_digit_ahead (R : runtime) (rest : str) : Prop :=
  match rest with
  | [] => True
  | c :: _ => isdecimal R c = false
  end.

(** No character of [s] is one of those [clean_text] removes. *)
Definition control_free (s : str) : Prop := Forall (fun c => ~ scrubbed c) s.

(** The lines before the first one that is empty or white space only. *)
Fixpoint until_blank (lines : list str) : list str :=
  match lines with
  | [] => []
  | l :: rest =>
      if str_eqb (strip l) [] then [] else l :: until_blank rest
  end.

(** [adds_after agency last w w' made]: the rows that [w'] has and [w] has
    not are on top of those of [w], are rows of the agency, and are dated
    after [last]. *)
Definition adds_after (agency : Z) (last : option Z) (w w' : world)
    (made : list call) : Prop :=
  exists new_articles new_files,
    online2024_articles w' = new_articles ++ online2024_articles w
    /\ processedfiles w' = new_files ++ processedfiles w
    /\ Forall (fun a => a_id_agency a = agency
                        /\ not_after last (a_created_date a) = false)
         new_articles
    /\ Forall (fun p => p_id_agency p = agency
                        /\ not_after last (p_created_date p) = false)
         new_files.
(** * Properties of the built-ins *)

Unset Implicit Arguments.

Arguments in_class : simpl never.

Lemma in_class_control_codes c :
  in_class control_codes c = true <-> scrubbed c.
Proof.
  unfold in_class, control_codes, scrubbed; simpl.
  rewrite orb_false_r, !orb_true_iff, !andb_true_iff, !N.leb_le.
  lia.
Qed.

Lemma re_sub_class_scrub s : scrub s (re_sub_class control_codes s).
Proof.
  induction s as [|c s IH]; simpl.
  - constructor.
  - destruct (in_class control_codes c) eqn:Hc.
    + apply scrub_drop; [apply in_class_control_codes; exact Hc | exact IH].
    + apply scrub_keep; [| exact IH].
      intro Hs. apply in_class_control_codes in Hs. congruence.
Qed.

Lemma re_sub_class_app cls a b :
  re_sub_class cls (a ++ b) = re_sub_class cls a ++ re_sub_class cls b.
Proof.
  induction a as [|c a IH]; simpl; [reflexivity|].
  destruct (in_class cls c); simpl; rewrite IH; reflexivity.
Qed.

Lemma re_sub_class_idempotent cls s :
  re_sub_class cls (re_sub_class cls s) = re_sub_class cls s.
Proof.
  induction s as [|c s IH]; simpl; [reflexivity|].
  destruct (in_class cls c) eqn:Hc; simpl; [exact IH|].
  rewrite Hc, IH. reflexivity.
Qed.

Lemma scrub_functional s r1 r2 : scrub s r1 -> scrub s r2 -> r1 = r2.
Proof.
  intros H1; revert r2.
  induction H1; intros r2 H2; inversion H2; subst;
    try reflexivity; try contradiction; auto.
  f_equal; auto.
Qed.

(** C10. [clean_text], in both text scripts, removes exactly the
    characters U+0000-U+0008, U+000B, U+000C, U+000E-U+001F and
    U+007F-U+009F and keeps every other character (tab, line feed and
    carriage return among them) in its place; cleaning a cleaned text
    changes nothing. *)
Theorem clean_text_removes_control_codes (s : str) :
  scrub s (MAP_FR.clean_text s) /\ scrub s (MENA.clean_text s)
  /\ (forall r, scrub s r -> r = MAP_FR.clean_text s)
  /\ MAP_FR.clean_text [9; 10; 13]%N = [9; 10; 13]%N
  /\ MENA.clean_text [9; 10; 13]%N = [9; 10; 13]%N
  /\ MAP_FR.clean_text (MAP_FR.clean_text s) = MAP_FR.clean_text s
  /\ MENA.clean_text (MENA.clean_text s) = MENA.clean_text s.
Proof.
  unfold MAP_FR.clean_text, MENA.clean_text.
  repeat split;
    try apply re_sub_class_scrub; try apply re_sub_class_idempotent.
  intros r Hr. eapply scrub_functional; [exact Hr | apply re_sub_class_scrub].
Qed.

(** * Year inference of the FTP listing *)

Lemma days_in_month_1900_le y m :
  (MAP_FR.days_in_month 1900 m <= MAP_FR.days_in_month y m)%Z.
Proof.
  unfold MAP_FR.days_in_month.
  destruct (m =? 2)%Z; [|lia].
  change (MAP_FR.is_leap 1900) with false. destruct (MAP_FR.is_leap y); lia.
Qed.

Lemma valid_in_any_year y dt :
  MAP_FR.valid dt = true -> MAP_FR.year dt = 1900%Z -> (1 <= y <= 9999)%Z ->
  MAP_FR.valid
    {| MAP_FR.year := y; MAP_FR.month := MAP_FR.month dt;
       MAP_FR.day := MAP_FR.day dt; MAP_FR.hour := MAP_FR.hour dt;
       MAP_FR.minute := MAP_FR.minute dt |} = true.
Proof.
  unfold MAP_FR.valid; simpl. intros Hv Hy Hr.
  rewrite !andb_true_iff, !Z.leb_le in *.
  pose proof (days_in_month_1900_le y (MAP_FR.month dt)).
  rewrite Hy in Hv. lia.
Qed.

(** The rule of the listing: an entry that [strptime] accepts takes the
    current year, and the year before exactly when its month and day come
    later in the year than today's. *)
Lemma infer_modified_time_rule now e m d H M :
  MAP_FR.e_stamp e = Some (m, d, H, M) ->
  MAP_FR.valid
    {| MAP_FR.year := 1900; MAP_FR.month := m; MAP_FR.day := d;
       MAP_FR.hour := H; MAP_FR.minute := M |} = true ->
  (2 <= MAP_FR.year now <= 9999)%Z ->
  MAP_FR.infer_modified_time now e =
    Ok {| MAP_FR.year :=
            if ((MAP_FR.month now <? m)
                || (m =? MAP_FR.month now) && (MAP_FR.day now <? d))%Z
            then (MAP_FR.year now - 1)%Z else MAP_FR.year now;
          MAP_FR.month := m; MAP_FR.day := d;
          MAP_FR.hour := H; MAP_FR.minute := M |}.
Proof.
  intros He Hv Hy.
  unfold MAP_FR.infer_modified_time, MAP_FR.strptime, MAP_FR.replace_year,
    MAP_FR.make_datetime.
  rewrite He, Hv. simpl.
  assert (Hv1 := valid_in_any_year (MAP_FR.year now) _ Hv eq_refl).
  simpl in Hv1. rewrite Hv1 by lia. simpl.
  unfold MAP_FR.date_gt; simpl.
  rewrite Z.ltb_irrefl, Z.eqb_refl. simpl.
  destruct ((MAP_FR.month now <? m)%Z
            || (m =? MAP_FR.month now)%Z && (MAP_FR.day now <? d)%Z);
    [|reflexivity].
  assert (Hv2 := valid_in_any_year (MAP_FR.year now - 1) _ Hv eq_refl).
  simpl in Hv2. rewrite Hv2 by lia. reflexivity.
Qed.

(** An entry dated Dec 31 read on January 2 is given December 31 of the
    year before; one dated Jan 1 read the same day keeps the year. *)
Example dec_31_seen_on_jan_2 :
  MAP_FR.infer_modified_time (Sample.at_time 2024 1 2 9 0)
    (Sample.ftp_file "item.xml" (12, 31, 10, 30)%Z Sample.map_dispatch)
  = Ok (Sample.at_time 2023 12 31 10 30)
  /\ MAP_FR.infer_modified_time (Sample.at_time 2024 1 2 9 0)
       (Sample.ftp_file "item.xml" (1, 1, 10, 30)%Z Sample.map_dispatch)
     = Ok (Sample.at_time 2024 1 1 10 30).
Proof. split; reflexivity. Qed.

(** C7. An entry of the listing dated Feb 29, read on February 29, 2024:
    [strptime] gives the fields it does not read the year 1900, which has
    no such day, and raises; no timestamp is built, with the current year
    or another, and the loop logs the error and leaves the file, which is
    neither looked up in the ledger nor fetched. *)
Theorem leap_day_entry_gets_no_timestamp :
  let now := Sample.at_time 2024 2 29 12 0 in
  let entry :=
    Sample.ftp_file "item.xml" (2, 29, 10, 30)%Z Sample.map_dispatch in
  MAP_FR.infer_modified_time now entry = Raised ValueError
  /\ MAP_FR.process_detail Sample.ascii_runtime Sample.always_done 4 None
       now entry Sample.empty_world
     = (Ok tt,
        {| online2024_articles := []; processedfiles := [];
           log := [{| lr_level := ERROR;
                      lr_message := "Error processing file";
                      lr_subject := py "item.xml" |}] |},
        []).
Proof. split; reflexivity. Qed.

(** * Running the body of a loop *)

Lemma str_eqb_refl s : str_eqb s s = true.
Proof. induction s; simpl; [reflexivity|]. rewrite N.eqb_refl; assumption. Qed.

Lemma str_eqb_eq a b : str_eqb a b = true <-> a = b.
Proof.
  split.
  - revert b; induction a as [|x a IH]; intros [|y b] H; simpl in H;
      try discriminate; [reflexivity|].
    apply andb_true_iff in H as [Hx Hr]. apply N.eqb_eq in Hx.
    f_equal; auto.
  - intros ->. apply str_eqb_refl.
Qed.

(** Case analysis on the innermost scrutinee of a hypothesis. *)
Ltac case_scrutinee_in H :=
  match type of H with
  | context [match ?x with _ => _ end] =>
      lazymatch x with
      | context [match _ with _ => _ end] => fail
      | _ => destruct x eqn:?
      end
  end.

Ltac unfold_monad_in H :=
  cbv beta iota delta
    [bind ret raise try_except lift logging record_call store_article
     store_processed_file execute_commit StoreWrites.insert_into_db
     StoreWrites.mark_file_as_processed Store.is_file_processed
     Store.get_last_processed_time select MAP_FR.insert_into_db
     AZERTAC_FR.insert_into_db] in H.

(** A parser names its result after the file it was given. *)
Ltac parser_file_name H :=
  unfold rbind in H;
  repeat (first [ discriminate H | case_scrutinee_in H ]);
  inversion H; reflexivity.

Lemma ANSA_file_name R f d :
  ANSA.parse_xml_try R f = Ok d -> file_name d = f_name f.
Proof. unfold ANSA.parse_xml_try. intro H. parser_file_name H. Qed.

Lemma MENA_file_name R f d :
  MENA.parse_txt R f = Ok d -> file_name d = f_name f.
Proof. unfold MENA.parse_txt. intro H. parser_file_name H. Qed.

Lemma APS_CHINE_file_name R f folder d :
  APS_CHINE.parse_xml_try R f folder = Ok d -> file_name d = f_name f.
Proof. unfold APS_CHINE.parse_xml_try. intro H. parser_file_name H. Qed.

Lemma MAP_FR_file_name R raw name d :
  MAP_FR.parse_txt_try R raw name = Ok d -> file_name d = name.
Proof. unfold MAP_FR.parse_txt_try. intro H. parser_file_name H. Qed.

Lemma AZERTAC_FR_file_name R raw name d :
  AZERTAC_FR.parse_xml_try R raw name = Ok d -> file_name d = name.
Proof. unfold AZERTAC_FR.parse_xml_try. intro H. parser_file_name H. Qed.

Ltac show_error_logged := unfold error_logged; simpl; eauto 8.

(** The last step of each case below: the two writes, by their outcomes. *)
Ltac by_outcomes E name H pre0 d0 :=
  destruct (insert_outcome E name) eqn:Hio;
  destruct (mark_outcome E name) eqn:Hmo; simpl in H;
  inversion H; subst; clear H;
  (eapply attempted with (pre := pre0) (data := d0);
   simpl; eauto; rewrite ?Hio, ?Hmo; simpl;
   first [ reflexivity | solve [constructor] | discriminate
         | intros _; show_error_logged ]).

Lemma ANSA_main_file_handled R E agency last d f w r w' made :
  ANSA.main_file R E agency last d f w = (r, w', made) ->
  handled E agency last Raises_again (f_name f) (ANSA_accepted (f_name f))
    (getmtime d (f_name f)) (ANSA.parse_xml_try R f) w r w' made.
Proof.
  unfold ANSA.main_file, ANSA.parse_xml, ANSA_accepted. intro H.
  destruct (endswith (f_name f) (py ".xml")
            || endswith (f_name f) (py ".txt")) eqn:Hext; simpl in H.
  2:{ inversion H; subst. apply skipped_not_processable; auto.
      split; reflexivity. }
  unfold_monad_in H.
  destruct (getmtime d (f_name f)) as [t|e0] eqn:Hmt.
  2:{ inversion H; subst. eapply date_failed; eauto. }
  destruct (not_after last t) eqn:Hst.
  { inversion H; subst. eapply skipped_stale; eauto. }
  destruct (lookup_returns E (f_name f)) eqn:Hlk.
  2:{ inversion H; subst. eapply lookup_failed; simpl; eauto;
        solve [split; reflexivity | show_error_logged]. }
  destruct (has_file_name (f_name f) (processedfiles w)) eqn:Hled.
  { inversion H; subst. eapply skipped_duplicate; eauto. }
  destruct (ANSA.parse_xml_try R f) as [p|e] eqn:Hp.
  2:{ simpl in H. inversion H; subst.
      eapply skipped_parse_failed with (pre := [Parse (f_name f)]); eauto.
      - split; reflexivity.
      - show_error_logged.
      - left; constructor. }
  pose proof (ANSA_file_name _ _ _ Hp) as Hn.
  simpl in H. rewrite Hn in H.
  by_outcomes E (f_name f) H [Parse (f_name f)] p.
Qed.

Lemma MENA_main_file_handled R E agency last d f w r w' made :
  MENA.main_file R E agency last d f w = (r, w', made) ->
  handled E agency last Raises_again (f_name f) true
    (getmtime d (f_name f)) (MENA.parse_txt R f) w r w' made.
Proof.
  unfold MENA.main_file. intro H.
  unfold_monad_in H.
  destruct (getmtime d (f_name f)) as [t|e0] eqn:Hmt.
  2:{ inversion H; subst. eapply date_failed; eauto. }
  destruct (not_after last t) eqn:Hst.
  { inversion H; subst. eapply skipped_stale; eauto. }
  destruct (lookup_returns E (f_name f)) eqn:Hlk.
  2:{ inversion H; subst. eapply lookup_failed; simpl; eauto;
        solve [split; reflexivity | show_error_logged]. }
  destruct (has_file_name (f_name f) (processedfiles w)) eqn:Hled.
  { inversion H; subst. eapply skipped_duplicate; eauto. }
  destruct (MENA.parse_txt R f) as [p|e] eqn:Hp.
  2:{ simpl in H. inversion H; subst.
      eapply skipped_parse_failed with (pre := [Parse (f_name f)]); eauto.
      - split; reflexivity.
      - show_error_logged.
      - left; constructor. }
  pose proof (MENA_file_name _ _ _ Hp) as Hn.
  simpl in H. rewrite Hn in H.
  by_outcomes E (f_name f) H [Parse (f_name f)] p.
Qed.

Lemma APS_CHINE_main_file_handled R E folder agency last d f w r w' made :
  APS_CHINE.main_file R E folder agency last d f w = (r, w', made) ->
  handled E agency last Logs_writes (f_name f) true
    (getmtime d (f_name f)) (APS_CHINE.parse_xml_try R f folder)
    w r w' made.
Proof.
  unfold APS_CHINE.main_file, APS_CHINE.parse_xml. intro H.
  unfold_monad_in H.
  destruct (getmtime d (f_name f)) as [t|e0] eqn:Hmt.
  2:{ inversion H; subst. eapply date_failed; eauto. }
  destruct (not_after last t) eqn:Hst.
  { inversion H; subst. eapply skipped_stale; eauto. }
  destruct (lookup_returns E (f_name f)) eqn:Hlk.
  2:{ inversion H; subst. eapply lookup_failed; simpl; eauto;
        solve [split; reflexivity | show_error_logged]. }
  destruct (has_file_name (f_name f) (processedfiles w)) eqn:Hled.
  { inversion H; subst. eapply skipped_duplicate; eauto. }
  destruct (APS_CHINE.parse_xml_try R f folder) as [p|e] eqn:Hp.
  2:{ simpl in H. inversion H; subst.
      eapply skipped_parse_failed with (pre := [Parse (f_name f)]); eauto.
      - split; reflexivity.
      - show_error_logged.
      - left; constructor. }
  pose proof (APS_CHINE_file_name _ _ _ _ Hp) as Hn.
  simpl in H. rewrite Hn in H.
  by_outcomes E (f_name f) H [Parse (f_name f)] p.
Qed.

Lemma MAP_FR_process_detail_handled R E agency last now e w r w' made :
  MAP_FR.process_detail R E agency last now e w = (r, w', made) ->
  handled E agency last Logs_all (MAP_FR.e_name e)
    (MAP_FR_accepted (MAP_FR.e_name e)) (MAP_FR_stamp now e)
    (MAP_FR_content R e) w r w' made.
Proof.
  unfold MAP_FR.process_detail, MAP_FR.parse_txt, MAP_FR_stamp,
    MAP_FR_content, MAP_FR_accepted.
  intro H.
  destruct (MAP_FR.infer_modified_time now e) as [dt|e0] eqn:Hdt.
  2:{ unfold_monad_in H. simpl in H. inversion H; subst.
      apply skipped_not_processable;
        [right; simpl; eauto | split; reflexivity | reflexivity
        | reflexivity]. }
  unfold_monad_in H. simpl in H.
  destruct (endswith (MAP_FR.e_name e) (py ".xml")
            || endswith (MAP_FR.e_name e) (py ".txt")
            || endswith (MAP_FR.e_name e) (py ".DAT")) eqn:Hext; simpl in H.
  2:{ inversion H; subst. apply skipped_not_processable; auto.
      split; reflexivity. }
  destruct (not_after last (MAP_FR.timestamp dt)) eqn:Hst.
  { inversion H; subst. eapply skipped_stale; simpl; eauto. }
  destruct (lookup_returns E (MAP_FR.e_name e)) eqn:Hlk.
  2:{ inversion H; subst. eapply lookup_failed; simpl; eauto;
        solve [split; reflexivity | show_error_logged]. }
  destruct (has_file_name (MAP_FR.e_name e) (processedfiles w)) eqn:Hled.
  { inversion H; subst. eapply skipped_duplicate; simpl; eauto. }
  destruct (MAP_FR.e_data e) as [raw|e1] eqn:Hraw.
  2:{ simpl in H. inversion H; subst.
      eapply skipped_parse_failed
        with (pre := [Retrieve (MAP_FR.e_name e)]); simpl; eauto.
      - split; reflexivity.
      - show_error_logged. }
  destruct (MAP_FR.parse_txt_try R raw (MAP_FR.e_name e)) as [p|e2] eqn:Hp.
  2:{ simpl in H. inversion H; subst.
      eapply skipped_parse_failed
        with (pre := [Parse (MAP_FR.e_name e); Retrieve (MAP_FR.e_name e)]);
        simpl; eauto.
      - split; reflexivity.
      - show_error_logged.
      - left; constructor. }
  pose proof (MAP_FR_file_name _ _ _ _ Hp) as Hn.
  simpl in H. rewrite Hn in H.
  by_outcomes E (MAP_FR.e_name e) H
    [Parse (MAP_FR.e_name e); Retrieve (MAP_FR.e_name e)] p.
Qed.

Lemma AZERTAC_FR_process_file_attr_handled R E agency last f w r w' made :
  AZERTAC_FR.process_file_attr R E agency last f w = (r, w', made) ->
  handled E agency last Logs_all (f_name f) true (Ok (st_mtime f))
    (AZERTAC_FR_content R f) w r w' made.
Proof.
  unfold AZERTAC_FR.process_file_attr, AZERTAC_FR.parse_xml,
    AZERTAC_FR_content.
  intro H. unfold_monad_in H.
  destruct (not_after last (st_mtime f)) eqn:Hst.
  { inversion H; subst. eapply skipped_stale; eauto. }
  destruct (lookup_returns E (f_name f)) eqn:Hlk.
  2:{ inversion H; subst. eapply lookup_failed; simpl; eauto;
        solve [split; reflexivity | show_error_logged]. }
  destruct (has_file_name (f_name f) (processedfiles w)) eqn:Hled.
  { inversion H; subst. eapply skipped_duplicate; eauto. }
  destruct (f_data f) as [raw|e1] eqn:Hraw.
  2:{ simpl in H. inversion H; subst.
      eapply skipped_parse_failed with (pre := [Retrieve (f_name f)]);
        simpl; eauto.
      - split; reflexivity.
      - show_error_logged. }
  destruct (AZERTAC_FR.parse_xml_try R raw (f_name f)) as [p|e2] eqn:Hp.
  2:{ simpl in H. inversion H; subst.
      eapply skipped_parse_failed
        with (pre := [Parse (f_name f); Retrieve (f_name f)]); simpl; eauto.
      - split; reflexivity.
      - show_error_logged.
      - left; constructor. }
  pose proof (AZERTAC_FR_file_name _ _ _ _ Hp) as Hn.
  simpl in H. rewrite Hn in H.
  by_outcomes E (f_name f) H [Parse (f_name f); Retrieve (f_name f)] p.
Qed.

(** * Rules for composed runs *)

Section Rules.
Context (P : world -> world -> list call -> Prop) (HP : composable P).

Lemma comp_refl w : P w w [].
Proof. apply (comp_same HP). split; reflexivity. Qed.

Lemma respects_ret {A} (a : A) : respects P (ret a).
Proof. intros w r w' made H. inversion H; subst. apply comp_refl. Qed.

Lemma respects_raise {A} e : respects P (@raise A e).
Proof. intros w r w' made H. inversion H; subst. apply comp_refl. Qed.

Lemma respects_lift {A} (x : result A) : respects P (lift x).
Proof. intros w r w' made H. inversion H; subst. apply comp_refl. Qed.

Lemma respects_logging l message subject :
  respects P (logging l message subject).
Proof.
  intros w r w' made H. inversion H; subst.
  apply (comp_same HP). split; reflexivity.
Qed.

Lemma respects_get_last_processed_time E agency :
  respects P (Store.get_last_processed_time E agency).
Proof.
  intros w r w' made H. inversion H; subst. apply (comp_watermark HP).
Qed.

Lemma respects_bind {A B} (m : M A) (k : A -> M B) :
  respects P m -> (forall a, respects P (k a)) -> respects P (bind m k).
Proof.
  intros Hm Hk w r w' made H. unfold bind in H.
  destruct (m w) as [[[a|e] w1] made1] eqn:Em.
  - destruct (k a w1) as [[r2 w2] made2] eqn:Ek.
    inversion H; subst.
    eapply (comp_trans HP); [eapply Hm; eauto | eapply Hk; eauto].
  - inversion H; subst. eapply Hm; eauto.
Qed.

Lemma respects_try_except {A} (m : M A) (handler : exn -> M A) :
  respects P m -> (forall e, respects P (handler e)) ->
  respects P (try_except m handler).
Proof.
  intros Hm Hh w r w' made H. unfold try_except in H.
  destruct (m w) as [[[a|e] w1] made1] eqn:Em.
  - inversion H; subst. eapply Hm; eauto.
  - destruct (handler e w1) as [[r2 w2] made2] eqn:Eh.
    inversion H; subst.
    eapply (comp_trans HP); [eapply Hm; eauto | eapply Hh; eauto].
Qed.

Lemma respects_for_each {A} (xs : list A) (body : A -> M unit) :
  (forall x, In x xs -> respects P (body x)) ->
  respects P (for_each xs body).
Proof.
  induction xs as [|x xs IH]; intros Hb; simpl.
  - apply respects_ret.
  - apply respects_bind.
    + apply Hb; left; reflexivity.
    + intros _. apply IH. intros y Hy. apply Hb; right; exact Hy.
Qed.

Lemma respects_for_fold {A S} (xs : list A) (body : A -> S -> M S) :
  (forall x s, respects P (body x s)) ->
  forall s, respects P (for_fold xs s body).
Proof.
  intros Hb. induction xs as [|x xs IH]; intros s; simpl.
  - apply respects_ret.
  - apply respects_bind; [apply Hb | intros s'; apply IH].
Qed.

End Rules.

(** * The calls of a file, in order; no ledger row without its article *)

Lemma chained_app E made2 made1 :
  chained E made2 -> chained E made1 -> chained E (made2 ++ made1).
Proof.
  induction made2 as [|c rest IH]; simpl; intros H2 H1; [exact H1|].
  destruct H2 as [Hc Hrest]. split; [|apply IH; assumption].
  destruct rest as [|c' rest']; simpl in *; [|exact Hc].
  destruct c; simpl in *; try exact I; intuition discriminate.
Qed.

Lemma no_ghost_same w w' : same_tables w w' -> no_ghost w w'.
Proof.
  intros [Ha Hp]. split.
  - rewrite Ha. apply incl_refl.
  - intros p Hin. left. rewrite <- Hp. exact Hin.
Qed.

Lemma no_ghost_trans w1 w2 w3 :
  no_ghost w1 w2 -> no_ghost w2 w3 -> no_ghost w1 w3.
Proof.
  intros [Ha12 Hp12] [Ha23 Hp23]. split.
  - eapply incl_tran; eassumption.
  - intros p Hin. destruct (Hp23 p Hin) as [H2|[a [Ha Hs]]].
    + destruct (Hp12 p H2) as [H1|[a [Ha Hs]]]; [left; exact H1|].
      right. exists a. split; [apply Ha23; exact Ha | exact Hs].
    + right. exists a. split; assumption.
Qed.

Lemma safe_composable E : composable (safe E).
Proof.
  split.
  - intros w w' H. split; [exact I | apply no_ghost_same; exact H].
  - intros w agency answer.
    split; [simpl; auto | apply no_ghost_same; split; reflexivity].
  - intros w1 w2 w3 m1 m2 [Hc1 Hg1] [Hc2 Hg2]. split.
    + apply chained_app; assumption.
    + eapply no_ghost_trans; eassumption.
Qed.

(** The ways the body of a loop ends, with their facts named. *)
Ltac handled_cases H :=
  destruct H as
    [ Hskip Hsame Hr Hm
    | ht Hacc Hst Hna Hw Hr Hm
    | ht Hacc Hst Hna Hlk Hled Hw Hr Hm
    | ht he hpre Hacc Hst Hna Hlk Hled Hc Hsame Hlog Hpre Hr Hm
    | ht hdata hpre Hacc Hst Hna Hlk Hled Hc Hfn Hpre Harts Hrows Hlog Hr Hm
    | ht Hacc Hst Hna Hlk Hsame Hlog Hr Hm
    | he Hacc Hst Hguard Hw Hr Hm ].

Lemma handled_safe E agency last policy name accepted stamp content
    w r w' made :
  handled E agency last policy name accepted stamp content w r w' made ->
  safe E w w' made.
Proof.
  intros H. handled_cases H.
  - rewrite Hm. split; [exact I | apply no_ghost_same; assumption].
  - rewrite Hm, Hw. split; [exact I | apply no_ghost_same; split; reflexivity].
  - rewrite Hm, Hw.
    split; [simpl; auto | apply no_ghost_same; split; reflexivity].
  - rewrite Hm. split; [| apply no_ghost_same; assumption].
    destruct Hpre as [Hpre|Hpre]; [destruct Hpre|rewrite Hpre];
      simpl; auto 8.
  - rewrite Hm. split.
    + destruct Hpre; destruct (insert_outcome E name) eqn:Hio;
        simpl; auto 10.
    + split.
      * rewrite Harts. apply incl_appr, incl_refl.
      * intros p Hin. rewrite Hrows in Hin.
        apply in_app_or in Hin as [Hin|Hin]; [|left; exact Hin].
        right.
        destruct (insert_outcome E name) eqn:Hio; simpl in Hin;
          try contradiction.
        exists (article_of hdata agency ht). split.
        -- rewrite Harts. simpl. left; reflexivity.
        -- destruct (mark_outcome E name); simpl in Hin;
             try contradiction;
             destruct Hin as [<-|[]]; repeat split; simpl; assumption.
  - rewrite Hm. split; [simpl; auto | apply no_ghost_same; assumption].
  - rewrite Hm, Hw.
    split; [exact I | apply no_ghost_same; split; reflexivity].
Qed.

(** Every script is built from the body of its loop by the rules above. *)
Ltac respects_step HP :=
  first
    [ apply (respects_ret _ HP)
    | apply (respects_raise _ HP)
    | apply (respects_lift _ HP)
    | apply (respects_logging _ HP)
    | apply (respects_get_last_processed_time _ HP)
    | apply (respects_bind _ HP); [|intro]
    | apply (respects_try_except _ HP); [|intro]
    | apply (respects_for_fold _ HP); intros ].

(** A line of the listing of MAP_FR: what holds of the body for a line
    with a name holds for any line. *)
Lemma respects_process_line P (HP : composable P) R E agency last clock
    line file_name :
  (forall e,
      respects P
        (MAP_FR.process_detail R E agency last (clock (MAP_FR.e_name e)) e)) ->
  respects P (MAP_FR.process_line R E agency last clock line file_name).
Proof.
  intros Hd. unfold MAP_FR.process_line.
  destruct line as [e|]; [|destruct file_name].
  - apply (respects_bind _ HP); [apply Hd | intro; apply (respects_ret _ HP)].
  - repeat respects_step HP.
  - apply (respects_raise _ HP).
Qed.

Lemma ANSA_main_safe R E fs : respects (safe E) (ANSA.main R E fs).
Proof.
  pose proof (safe_composable E) as HP.
  unfold ANSA.main. apply (respects_bind _ HP).
  - apply (respects_for_fold _ HP). intros [folder id] s.
    unfold ANSA.main_agency.
    destruct (fs (py folder)); repeat respects_step HP.
    unfold ANSA.main_folder. repeat respects_step HP.
    apply (respects_for_each _ HP). intros ? _ ? ? ? ? H.
    eapply handled_safe, ANSA_main_file_handled, H.
  - intros has. destruct (negb has); repeat respects_step HP.
Qed.

Lemma MENA_main_safe R E fs : respects (safe E) (MENA.main R E fs).
Proof.
  pose proof (safe_composable E) as HP.
  unfold MENA.main. apply (respects_bind _ HP).
  - apply (respects_for_fold _ HP). intros [folder id] s.
    unfold MENA.main_agency.
    destruct (fs (py folder)); repeat respects_step HP.
    unfold MENA.main_folder. repeat respects_step HP.
    apply (respects_for_each _ HP). intros ? _ ? ? ? ? H.
    eapply handled_safe, MENA_main_file_handled, H.
  - intros has. destruct (negb has); repeat respects_step HP.
Qed.

Lemma APS_CHINE_main_safe R E fs : respects (safe E) (APS_CHINE.main R E fs).
Proof.
  pose proof (safe_composable E) as HP.
  unfold APS_CHINE.main. apply (respects_bind _ HP).
  - apply (respects_for_fold _ HP). intros [folder id] s.
    unfold APS_CHINE.main_agency.
    destruct (fs (py folder)); repeat respects_step HP.
    unfold APS_CHINE.main_folder. repeat respects_step HP.
    apply (respects_for_each _ HP). intros ? _ ? ? ? ? H.
    eapply handled_safe, APS_CHINE_main_file_handled, H.
  - intros has. destruct (negb has); repeat respects_step HP.
Qed.

Lemma MAP_FR_main_safe R E server clock :
  respects (safe E) (MAP_FR.main R E server clock).
Proof.
  pose proof (safe_composable E) as HP.
  unfold MAP_FR.main, MAP_FR.process_mapl_from_ftp.
  repeat respects_step HP.
  apply (respects_process_line _ HP). intros ? ? ? ? ? H.
  eapply handled_safe, MAP_FR_process_detail_handled, H.
Qed.

Lemma AZERTAC_FR_main_safe R E server :
  respects (safe E) (AZERTAC_FR.main R E server).
Proof.
  pose proof (safe_composable E) as HP.
  unfold AZERTAC_FR.main, AZERTAC_FR.process_azertacFr_from_sftp.
  repeat respects_step HP.
  apply (respects_for_each _ HP). intros ? _ ? ? ? ? H.
  eapply handled_safe, AZERTAC_FR_process_file_attr_handled, H.
Qed.

Lemma script_run_safe R E w r w' made :
  script_run R E w r w' made -> safe E w w' made.
Proof.
  intros H. destruct H as [fs w r w' made H | fs w r w' made H
                          | fs w r w' made H | server clock w r w' made H
                          | server w r w' made H].
  - eapply ANSA_main_safe; eassumption.
  - eapply MENA_main_safe; eassumption.
  - eapply APS_CHINE_main_safe; eassumption.
  - eapply MAP_FR_main_safe; eassumption.
  - eapply AZERTAC_FR_main_safe; eassumption.
Qed.

Lemma chained_tail E later earlier :
  chained E (later ++ earlier) -> chained E earlier.
Proof.
  induction later as [|c later IH]; simpl; [auto|].
  intros [_ H]. apply IH, H.
Qed.

Lemma chained_mark E later name earlier :
  chained E (later ++ Mark_file_as_processed name :: earlier) ->
  exists before,
    earlier = Insert_into_db name :: before /\ insert_outcome E name = Done.
Proof.
  intros H. apply chained_tail in H. simpl in H.
  destruct H as [[Hprev Hdone] _].
  destruct earlier as [|c before]; simpl in Hprev; [discriminate|].
  inversion Hprev; subst. exists before. split; [reflexivity | exact Hdone].
Qed.

(** C2. In a run of any of the five scripts, a call of
    [mark_file_as_processed] for a file comes right after the call of
    [insert_into_db] for that file, which returned; when the insert of a
    file raises, [mark_file_as_processed] is not called for it; and every
    row the run adds to [processedfiles] has an article row for the same
    file, agency and date. *)
Theorem article_before_ledger_no_ghost R E w r w' made :
  script_run R E w r w' made ->
  (forall later name earlier,
      made = later ++ Mark_file_as_processed name :: earlier ->
      exists before,
        earlier = Insert_into_db name :: before
        /\ insert_outcome E name = Done)
  /\ (forall name,
        insert_outcome E name <> Done ->
        ~ In (Mark_file_as_processed name) made)
  /\ no_ghost w w'.
Proof.
  intros Hrun. apply script_run_safe in Hrun as [Hch Hg].
  split; [|split; [|exact Hg]].
  - intros later name earlier ->. eapply chained_mark; eassumption.
  - intros name Hio Hin. apply in_split in Hin as [later [earlier ->]].
    apply chained_mark in Hch as [_ [_ Hd]]. contradiction.
Qed.

Lemma article_before_ledger_no_ghost_witness :
  no_ghost Sample.empty_world
    (snd (fst (MENA.main Sample.ascii_runtime Sample.always_done
                 Sample.mena_depot Sample.empty_world))).
Proof.
  destruct (MENA.main Sample.ascii_runtime Sample.always_done
              Sample.mena_depot Sample.empty_world)
    as [[r w'] made] eqn:Hrun.
  simpl.
  exact (proj2 (proj2
           (article_before_ledger_no_ghost Sample.ascii_runtime
              Sample.always_done Sample.empty_world r w' made
              (@run_MENA _ _ _ _ _ _ _ Hrun)))).
Defined.

(** * Watermark first, ledger next *)

Lemma chained_after_lookup E made : chained E made -> after_lookup made.
Proof.
  intros Hch later name earlier. repeat split; intros ->;
    apply chained_tail in Hch; simpl in Hch.
  - destruct Hch as [Hp _].
    destruct earlier as [|c before]; simpl in Hp; [discriminate|].
    inversion Hp; subst. eauto.
  - destruct Hch as [Hp Hrest].
    destruct earlier as [|c before]; simpl in Hp;
      [destruct Hp; discriminate|].
    destruct Hp as [Hp|Hp]; inversion Hp; subst; [|eauto].
    simpl in Hrest. destruct Hrest as [Hp' _].
    destruct before as [|c' before']; simpl in Hp'; [discriminate|].
    inversion Hp'; subst. eauto.
  - destruct Hch as [Hp Hrest].
    destruct earlier as [|c before]; simpl in Hp; [discriminate|].
    inversion Hp; subst. simpl in Hrest. destruct Hrest as [Hp' Hrest].
    destruct before as [|c' before']; simpl in Hp';
      [destruct Hp'; discriminate|].
    destruct Hp' as [Hp'|Hp']; inversion Hp'; subst; [|eauto].
    simpl in Hrest. destruct Hrest as [Hp'' _].
    destruct before' as [|c'' before'']; simpl in Hp''; [discriminate|].
    inversion Hp''; subst. eauto.
Qed.

Lemma handled_guarded E agency last policy name accepted mtime content
    w r w' made :
  handled E agency last policy name accepted (Ok mtime) content
    w r w' made ->
  accepted = true -> not_after last mtime = false ->
  has_file_name name (processedfiles w) = true ->
  same_tables w w'
  /\ made = [Is_file_processed name (select (lookup_returns E name) true)].
Proof.
  intros H Ha Hn Hl. handled_cases H; try congruence.
  - destruct Hskip as [Hs|[_ [e Hs]]]; congruence.
  - subst. rewrite Hlk. split; [split|]; reflexivity.
  - subst. rewrite Hlk. split; [exact Hsame | reflexivity].
Qed.

Lemma handled_calls_named E agency last policy name accepted stamp content
    w r w' made :
  handled E agency last policy name accepted stamp content w r w' made ->
  forall c, In c made -> call_name c = Some name.
Proof.
  intros H c Hin. handled_cases H; rewrite Hm in Hin.
  - destruct Hin.
  - destruct Hin.
  - destruct Hin as [<-|[]]. reflexivity.
  - apply in_app_or in Hin as [Hin|[<-|[]]]; [|reflexivity].
    destruct Hpre as [Hpre|Hpre]; [destruct Hpre|rewrite Hpre in Hin];
      simpl in Hin; intuition (subst; reflexivity).
  - destruct Hpre; destruct (insert_outcome E name); simpl in Hin;
      intuition (subst; reflexivity).
  - destruct Hin as [<-|[]]. reflexivity.
  - destruct Hin.
Qed.

Lemma not_after_after_watermark last t :
  not_after last t = false <-> after_watermark last t.
Proof.
  destruct last as [m|]; simpl; [|tauto].
  rewrite Z.leb_gt. tauto.
Qed.

Lemma bind_get_last_processed_time {A} E agency (k : option Z -> M A) w :
  bind (Store.get_last_processed_time E agency) k w
  = watermark_then E agency k w.
Proof.
  unfold bind, Store.get_last_processed_time, watermark_then, select.
  destruct (watermark_returns E agency); [|reflexivity].
  destruct (k (max_created_date agency (processedfiles w)) w) as [[r w'] made].
  reflexivity.
Qed.

Lemma bind_lift_ok {A B} (x : A) (k : A -> M B) w :
  bind (lift (Ok x)) k w = k x w.
Proof.
  unfold bind, lift. destruct (k x w) as [[r w'] made].
  rewrite app_nil_r. reflexivity.
Qed.

Lemma bind_logging {B} l message subject (k : unit -> M B) w :
  bind (logging l message subject) k w = k tt (logged l message subject w).
Proof.
  unfold bind, logging.
  destruct (k tt (logged l message subject w)) as [[r w'] made].
  rewrite app_nil_r. reflexivity.
Qed.

Lemma ANSA_main_folder_is_loop R E agency d files w :
  listdir d = Ok files ->
  ANSA.main_folder R E agency d w
  = watermark_then E agency
      (fun last =>
         for_each (sorted_reverse files) (ANSA.main_file R E agency last d)) w.
Proof.
  intros Hl. unfold ANSA.main_folder. rewrite Hl, bind_lift_ok.
  apply bind_get_last_processed_time.
Qed.

Lemma MENA_main_folder_is_loop R E agency d files w :
  listdir d = Ok files ->
  MENA.main_folder R E agency d w
  = watermark_then E agency
      (fun last =>
         for_each (sorted_reverse files) (MENA.main_file R E agency last d)) w.
Proof.
  intros Hl. unfold MENA.main_folder. rewrite Hl, bind_lift_ok.
  apply bind_get_last_processed_time.
Qed.

Lemma APS_CHINE_main_folder_is_loop R E folder agency d files w :
  listdir d = Ok files ->
  APS_CHINE.main_folder R E folder agency d w
  = watermark_then E agency
      (fun last =>
         for_each (sorted_reverse files)
           (APS_CHINE.main_file R E folder agency last d)) w.
Proof.
  intros Hl. unfold APS_CHINE.main_folder. rewrite Hl, bind_lift_ok.
  apply bind_get_last_processed_time.
Qed.

Lemma try_except_ext {A} (m m' : M A) handler w :
  m w = m' w -> try_except m handler w = try_except m' handler w.
Proof. intros H. unfold try_except. rewrite H. reflexivity. Qed.

Lemma MAP_FR_pass_is_loop R E server clock agency lines w :
  MAP_FR.ftp_login server = Ok tt ->
  MAP_FR.ftp_list server = Ok lines ->
  MAP_FR.process_mapl_from_ftp R E server clock agency w
  = try_except
      (watermark_then E agency
         (fun last =>
            for_fold lines None (MAP_FR.process_line R E agency last clock)
            ;;; ret tt))
      (fun _ => logging ERROR "Failed to process MAPL files from FTP" [])
      (logged INFO "Connected to FTP server." [] w).
Proof.
  intros Hlogin Hlist. unfold MAP_FR.process_mapl_from_ftp.
  unfold try_except at 1 2.
  rewrite Hlogin, bind_lift_ok, bind_logging, bind_get_last_processed_time.
  unfold watermark_then. rewrite Hlist.
  destruct (watermark_returns E agency); [|reflexivity].
  rewrite bind_lift_ok. reflexivity.
Qed.

Lemma AZERTAC_FR_pass_is_loop R E server agency files w :
  AZERTAC_FR.sftp_connect server = Ok tt ->
  AZERTAC_FR.sftp_chdir server = Ok tt ->
  AZERTAC_FR.sftp_listdir_attr server = Ok files ->
  AZERTAC_FR.process_azertacFr_from_sftp R E server agency w
  = try_except
      (watermark_then E agency
         (fun last =>
            for_each (sorted_reverse files)
              (AZERTAC_FR.process_file_attr R E agency last)))
      (fun _ =>
         logging ERROR "Failed to process Azertac Fr files from SFTP" [])
      (logged INFO "Connected to SFTP server." [] w).
Proof.
  intros Hconnect Hchdir Hlist. unfold AZERTAC_FR.process_azertacFr_from_sftp.
  unfold try_except at 1 2.
  rewrite Hconnect, bind_lift_ok, bind_logging, Hchdir, bind_lift_ok,
    bind_get_last_processed_time.
  unfold watermark_then. rewrite Hlist.
  destruct (watermark_returns E agency); [|reflexivity].
  rewrite bind_lift_ok. reflexivity.
Qed.

(** C5. In each of the five scripts the watermark of the agency is read
    once, at the start of the pass, from the state the pass starts in, and
    the loop runs with what was read: the body of the loop makes calls
    about its file only. A file whose modification time is at most the
    watermark is left without a call to the ledger or any other, the
    state untouched; a file whose modification time is after it, or any
    file when there is no watermark, and that the ledger holds is left
    after the one lookup, nothing written; and in a whole run every fetch,
    parse and insert of a file comes after [is_file_processed] answered
    [False] for it. *)
Theorem watermark_skips_then_ledger_decides R E :
  (forall agency d files w,
      listdir d = Ok files ->
      ANSA.main_folder R E agency d w
      = watermark_then E agency
          (fun last =>
             for_each (sorted_reverse files)
               (ANSA.main_file R E agency last d)) w
      /\ MENA.main_folder R E agency d w
         = watermark_then E agency
             (fun last =>
                for_each (sorted_reverse files)
                  (MENA.main_file R E agency last d)) w
      /\ forall folder,
           APS_CHINE.main_folder R E folder agency d w
           = watermark_then E agency
               (fun last =>
                  for_each (sorted_reverse files)
                    (APS_CHINE.main_file R E folder agency last d)) w)
  /\ (forall server clock agency lines w,
        MAP_FR.ftp_login server = Ok tt ->
        MAP_FR.ftp_list server = Ok lines ->
        MAP_FR.process_mapl_from_ftp R E server clock agency w
        = try_except
            (watermark_then E agency
               (fun last =>
                  for_fold lines None
                    (MAP_FR.process_line R E agency last clock)
                  ;;; ret tt))
            (fun _ =>
               logging ERROR "Failed to process MAPL files from FTP" [])
            (logged INFO "Connected to FTP server." [] w))
  /\ (forall server agency files w,
        AZERTAC_FR.sftp_connect server = Ok tt ->
        AZERTAC_FR.sftp_chdir server = Ok tt ->
        AZERTAC_FR.sftp_listdir_attr server = Ok files ->
        AZERTAC_FR.process_azertacFr_from_sftp R E server agency w
        = try_except
            (watermark_then E agency
               (fun last =>
                  for_each (sorted_reverse files)
                    (AZERTAC_FR.process_file_attr R E agency last)))
            (fun _ =>
               logging ERROR "Failed to process Azertac Fr files from SFTP"
                 [])
            (logged INFO "Connected to SFTP server." [] w))
  /\ (forall agency last d f now e w c,
        (In c (snd (ANSA.main_file R E agency last d f w)) ->
         call_name c = Some (f_name f))
        /\ (In c (snd (MENA.main_file R E agency last d f w)) ->
            call_name c = Some (f_name f))
        /\ (forall folder,
              In c (snd (APS_CHINE.main_file R E folder agency last d f w)) ->
              call_name c = Some (f_name f))
        /\ (In c (snd (AZERTAC_FR.process_file_attr R E agency last f w)) ->
            call_name c = Some (f_name f))
        /\ (In c (snd (MAP_FR.process_detail R E agency last now e w)) ->
            call_name c = Some (MAP_FR.e_name e)))
  /\ (forall agency m d f t w,
        getmtime d (f_name f) = Ok t ->
        (t <= m)%Z ->
        ANSA.main_file R E agency (Some m) d f w = (Ok tt, w, [])
        /\ MENA.main_file R E agency (Some m) d f w = (Ok tt, w, [])
        /\ (forall folder,
              APS_CHINE.main_file R E folder agency (Some m) d f w
              = (Ok tt, w, [])))
  /\ (forall agency m f w,
        (st_mtime f <= m)%Z ->
        AZERTAC_FR.process_file_attr R E agency (Some m) f w = (Ok tt, w, []))
  /\ (forall agency m now e modified_time w,
        MAP_FR.infer_modified_time now e = Ok modified_time ->
        (MAP_FR.timestamp modified_time <= m)%Z ->
        MAP_FR.process_detail R E agency (Some m) now e w = (Ok tt, w, []))
  /\ (forall agency last d f t,
        getmtime d (f_name f) = Ok t ->
        after_watermark last t ->
        (ANSA_accepted (f_name f) = true ->
         guarded_by_ledger E (f_name f) (ANSA.main_file R E agency last d f))
        /\ guarded_by_ledger E (f_name f)
             (MENA.main_file R E agency last d f)
        /\ (forall folder,
              guarded_by_ledger E (f_name f)
                (APS_CHINE.main_file R E folder agency last d f)))
  /\ (forall agency last f,
        after_watermark last (st_mtime f) ->
        guarded_by_ledger E (f_name f)
          (AZERTAC_FR.process_file_attr R E agency last f))
  /\ (forall agency last now e modified_time,
        MAP_FR.infer_modified_time now e = Ok modified_time ->
        after_watermark last (MAP_FR.timestamp modified_time) ->
        MAP_FR_accepted (MAP_FR.e_name e) = true ->
        guarded_by_ledger E (MAP_FR.e_name e)
          (MAP_FR.process_detail R E agency last now e))
  /\ (forall w r w' made, script_run R E w r w' made -> after_lookup made).
Proof.
  repeat match goal with |- _ /\ _ => split end.
  - intros agency d files w Hl.
    split; [|split; [|intros folder]].
    + apply ANSA_main_folder_is_loop, Hl.
    + apply MENA_main_folder_is_loop, Hl.
    + apply APS_CHINE_main_folder_is_loop, Hl.
  - intros. apply MAP_FR_pass_is_loop; assumption.
  - intros. apply AZERTAC_FR_pass_is_loop; assumption.
  - intros agency last d f now e w c.
    split; [|split; [|split; [|split]]].
    + destruct (ANSA.main_file R E agency last d f w) as [[r w'] made] eqn:H.
      apply ANSA_main_file_handled in H.
      apply (handled_calls_named _ _ _ _ _ _ _ _ _ _ _ _ H).
    + destruct (MENA.main_file R E agency last d f w) as [[r w'] made] eqn:H.
      apply MENA_main_file_handled in H.
      apply (handled_calls_named _ _ _ _ _ _ _ _ _ _ _ _ H).
    + intros folder.
      destruct (APS_CHINE.main_file R E folder agency last d f w)
        as [[r w'] made] eqn:H.
      apply APS_CHINE_main_file_handled in H.
      apply (handled_calls_named _ _ _ _ _ _ _ _ _ _ _ _ H).
    + destruct (AZERTAC_FR.process_file_attr R E agency last f w)
        as [[r w'] made] eqn:H.
      apply AZERTAC_FR_process_file_attr_handled in H.
      apply (handled_calls_named _ _ _ _ _ _ _ _ _ _ _ _ H).
    + destruct (MAP_FR.process_detail R E agency last now e w)
        as [[r w'] made] eqn:H.
      apply MAP_FR_process_detail_handled in H.
      apply (handled_calls_named _ _ _ _ _ _ _ _ _ _ _ _ H).
  - intros agency m d f t w Ht Hle.
    assert (Hst : not_after (Some m) t = true) by (apply Z.leb_le; exact Hle).
    unfold ANSA.main_file, MENA.main_file, APS_CHINE.main_file, bind, lift.
    rewrite Ht, Hst. repeat split; try reflexivity.
    destruct (negb _); reflexivity.
  - intros agency m f w Hle.
    assert (Hst : not_after (Some m) (st_mtime f) = true)
      by (apply Z.leb_le; exact Hle).
    unfold AZERTAC_FR.process_file_attr, try_except.
    rewrite Hst. reflexivity.
  - intros agency m now e mt w Hmt Hle.
    assert (Hst : not_after (Some m) (MAP_FR.timestamp mt) = true)
      by (apply Z.leb_le; exact Hle).
    unfold MAP_FR.process_detail, try_except, bind, lift.
    rewrite Hmt, Hst. destruct (negb _); reflexivity.
  - intros agency last d f t Ht Hst.
    apply not_after_after_watermark in Hst. split; [|split].
    + intros Hext w r w' made H Hl.
      apply ANSA_main_file_handled in H. rewrite Hext, Ht in H.
      eapply handled_guarded; eauto.
    + intros w r w' made H Hl. apply MENA_main_file_handled in H.
      rewrite Ht in H. eapply handled_guarded; eauto.
    + intros folder w r w' made H Hl.
      apply APS_CHINE_main_file_handled in H. rewrite Ht in H.
      eapply handled_guarded; eauto.
  - intros agency last f Hst w r w' made H Hl.
    apply not_after_after_watermark in Hst.
    apply AZERTAC_FR_process_file_attr_handled in H.
    eapply handled_guarded; eauto.
  - intros agency last now e mt Hmt Hst Hacc w r w' made H Hl.
    apply not_after_after_watermark in Hst.
    apply MAP_FR_process_detail_handled in H.
    unfold MAP_FR_stamp in H. rewrite Hmt in H. simpl in H.
    eapply handled_guarded; eauto.
  - intros w r w' made H. apply script_run_safe in H as [Hch _].
    eapply chained_after_lookup; eassumption.
Qed.

Lemma watermark_skips_then_ledger_decides_witness :
  getmtime (Sample.folder_of Sample.mena_files) (py "d1.txt") = Ok 100%Z
  /\ (100 <= 150)%Z
  /\ MENA.main_file Sample.ascii_runtime Sample.always_done 9 (Some 150%Z)
       (Sample.folder_of Sample.mena_files)
       (Sample.plain_file "d1.txt" 100 Sample.dispatch) Sample.empty_world
     = (Ok tt, Sample.empty_world, []).
Proof.
  assert (Ht : getmtime (Sample.folder_of Sample.mena_files)
                 (f_name (Sample.plain_file "d1.txt" 100 Sample.dispatch))
               = Ok 100%Z) by (vm_compute; reflexivity).
  assert (Hle : (100 <= 150)%Z) by lia.
  split; [exact Ht|]. split; [exact Hle|].
  destruct (proj1 (proj2 (proj2 (proj2 (proj2
              (watermark_skips_then_ledger_decides
                 Sample.ascii_runtime Sample.always_done)))))
              9%Z 150%Z (Sample.folder_of Sample.mena_files)
              (Sample.plain_file "d1.txt" 100 Sample.dispatch) 100%Z
              Sample.empty_world Ht Hle) as [_ [Hmena _]].
  exact Hmena.
Defined.

(** * The extension filter *)

Lemma only_for_composable accepted : composable (only_for accepted).
Proof.
  split.
  - intros w w' [Ha Hp]. repeat split.
    + intros a Hin. left. rewrite <- Ha. exact Hin.
    + intros p Hin. left. rewrite <- Hp. exact Hin.
    + intros c name [].
  - intros w agency answer. repeat split; auto.
    intros c name [<-|[]]. discriminate.
  - intros w1 w2 w3 m1 m2 [Ha1 [Hp1 Hc1]] [Ha2 [Hp2 Hc2]]. repeat split.
    + intros a Hin. destruct (Ha2 a Hin) as [H|H]; [apply Ha1, H | right; exact H].
    + intros p Hin. destruct (Hp2 p Hin) as [H|H]; [apply Hp1, H | right; exact H].
    + intros c name Hin.
      apply in_app_or in Hin as [H|H]; [apply Hc2, H | apply Hc1, H].
Qed.

Lemma handled_only_for E agency last policy name accepted stamp content
    w r w' made (acc : str -> bool) :
  handled E agency last policy name accepted stamp content w r w' made ->
  accepted = acc name -> only_for acc w w' made.
Proof.
  intros H Hacc0.
  assert (Hcalls := handled_calls_named _ _ _ _ _ _ _ _ _ _ _ _ H).
  assert (Hnamed : made <> [] -> acc name = true).
  { intros Hne. handled_cases H; congruence. }
  assert (Hcn : forall c n, In c made -> call_name c = Some n -> acc n = true).
  { intros c n Hin Hn. rewrite (Hcalls c Hin) in Hn.
    inversion Hn; subst n. apply Hnamed. intros ->. destruct Hin. }
  clear Hcalls Hnamed.
  handled_cases H.
  - destruct Hsame as [Ha Hp]. repeat split; [| |exact Hcn].
    + intros a Hin. left. rewrite <- Ha. exact Hin.
    + intros p Hin. left. rewrite <- Hp. exact Hin.
  - rewrite Hw. repeat split; auto.
  - rewrite Hw. repeat split; auto.
  - destruct Hsame as [Ha Hp]. repeat split; [| |exact Hcn].
    + intros a Hin. left. rewrite <- Ha. exact Hin.
    + intros p Hin. left. rewrite <- Hp. exact Hin.
  - repeat split; [| |exact Hcn].
    + intros a Hin. rewrite Harts in Hin.
      apply in_app_or in Hin as [Hin|Hin]; [|left; exact Hin].
      right. destruct (article_stored _); simpl in Hin; [|contradiction].
      destruct Hin as [<-|[]]. simpl. congruence.
    + intros p Hin. rewrite Hrows in Hin.
      apply in_app_or in Hin as [Hin|Hin]; [|left; exact Hin].
      right. destruct (marked _ _); simpl in Hin; [|contradiction].
      destruct Hin as [<-|[]]. simpl. congruence.
  - destruct Hsame as [Ha Hp]. repeat split; [| |exact Hcn].
    + intros a Hin. left. rewrite <- Ha. exact Hin.
    + intros p Hin. left. rewrite <- Hp. exact Hin.
  - rewrite Hw. repeat split; auto.
Qed.

(** When the store answers, a file that passes the filters and is parsed is
    committed: its article and its ledger row are written. *)
Lemma handled_commits E agency last policy name accepted mtime content
    data w r w' made :
  handled E agency last policy name accepted (Ok mtime) content
    w r w' made ->
  accepted = true -> not_after last mtime = false ->
  lookup_returns E name = true ->
  has_file_name name (processedfiles w) = false ->
  content = Ok data -> reliable E ->
  r = Ok tt
  /\ online2024_articles w'
     = article_of data agency mtime :: online2024_articles w
  /\ processedfiles w'
     = {| p_file_name := name; p_id_agency := agency;
          p_created_date := mtime |} :: processedfiles w.
Proof.
  intros H Ha Hn Hk Hl Hd Hrel. destruct (Hrel name) as [Hio Hmo].
  handled_cases H; try congruence.
  - destruct Hskip as [Hs|[_ [e Hs]]]; congruence.
  - rewrite Hio, Hmo in *. simpl in *.
    assert (ht = mtime) by congruence. assert (hdata = data) by congruence.
    subst. auto.
Qed.

Lemma ANSA_main_only_for R E fs :
  respects (only_for ANSA_accepted) (ANSA.main R E fs).
Proof.
  pose proof (only_for_composable ANSA_accepted) as HP.
  unfold ANSA.main. apply (respects_bind _ HP).
  - apply (respects_for_fold _ HP). intros [folder id] s.
    unfold ANSA.main_agency.
    destruct (fs (py folder)); repeat respects_step HP.
    unfold ANSA.main_folder. repeat respects_step HP.
    apply (respects_for_each _ HP). intros ? _ ? ? ? ? H.
    eapply handled_only_for; [eapply ANSA_main_file_handled, H | reflexivity].
  - intros has. destruct (negb has); repeat respects_step HP.
Qed.

Lemma MAP_FR_main_only_for R E server clock :
  respects (only_for MAP_FR_accepted) (MAP_FR.main R E server clock).
Proof.
  pose proof (only_for_composable MAP_FR_accepted) as HP.
  unfold MAP_FR.main, MAP_FR.process_mapl_from_ftp.
  repeat respects_step HP.
  apply (respects_process_line _ HP). intros ? ? ? ? ? H.
  eapply handled_only_for;
    [eapply MAP_FR_process_detail_handled, H | reflexivity].
Qed.

(** C6, as the scripts have it. ANSA lets through the names that end in
    [.xml] or [.txt] and MAP_FR those that end in [.xml], [.txt] or
    [.DAT]: a file of another name is left before any lookup, fetch, parse
    or write, and no row of a run is about such a file. MENA, APS_CHINE
    and AZERTAC_FR look at no extension: a file of any name that is new
    and is parsed has its article and its ledger row written. *)
Theorem extension_filter_in_ANSA_and_MAP_FR R E :
  (forall agency last d f w,
      ANSA_accepted (f_name f) = false ->
      ANSA.main_file R E agency last d f w = (Ok tt, w, []))
  /\ (forall agency last now e w r w' made,
        MAP_FR_accepted (MAP_FR.e_name e) = false ->
        MAP_FR.process_detail R E agency last now e w = (r, w', made) ->
        r = Ok tt /\ same_tables w w' /\ made = [])
  /\ (forall fs, respects (only_for ANSA_accepted) (ANSA.main R E fs))
  /\ (forall server clock,
        respects (only_for MAP_FR_accepted) (MAP_FR.main R E server clock))
  /\ (forall agency last d f t data w r w' made,
        reliable E ->
        lookup_returns E (f_name f) = true ->
        getmtime d (f_name f) = Ok t ->
        not_after last t = false ->
        has_file_name (f_name f) (processedfiles w) = false ->
        (MENA.parse_txt R f = Ok data ->
         MENA.main_file R E agency last d f w = (r, w', made) ->
         online2024_articles w'
         = article_of data agency t :: online2024_articles w
         /\ processedfiles w'
            = {| p_file_name := f_name f; p_id_agency := agency;
                 p_created_date := t |} :: processedfiles w)
        /\ (forall folder,
              APS_CHINE.parse_xml_try R f folder = Ok data ->
              APS_CHINE.main_file R E folder agency last d f w
              = (r, w', made) ->
              online2024_articles w'
              = article_of data agency t :: online2024_articles w
              /\ processedfiles w'
                 = {| p_file_name := f_name f; p_id_agency := agency;
                      p_created_date := t |} :: processedfiles w))
  /\ (forall agency last f data w r w' made,
        reliable E ->
        lookup_returns E (f_name f) = true ->
        not_after last (st_mtime f) = false ->
        has_file_name (f_name f) (processedfiles w) = false ->
        AZERTAC_FR_content R f = Ok data ->
        AZERTAC_FR.process_file_attr R E agency last f w = (r, w', made) ->
        online2024_articles w'
        = article_of data agency (st_mtime f) :: online2024_articles w
        /\ processedfiles w'
           = {| p_file_name := f_name f; p_id_agency := agency;
                p_created_date := st_mtime f |} :: processedfiles w).
Proof.
  split; [|split; [|split; [|split; [|split]]]].
  - intros agency last d f w Hno. unfold ANSA.main_file.
    fold (ANSA_accepted (f_name f)). rewrite Hno. reflexivity.
  - intros agency last now e w r w' made Hno H.
    apply MAP_FR_process_detail_handled in H. rewrite Hno in H.
    handled_cases H; try discriminate. auto.
  - intros fs. apply ANSA_main_only_for.
  - intros server clock. apply MAP_FR_main_only_for.
  - intros agency last d f t data w r w' made Hrel Hk Ht Hst Hl.
    split.
    + intros Hp H. apply MENA_main_file_handled in H. rewrite Ht in H.
      eapply handled_commits in H; eauto. tauto.
    + intros folder Hp H. apply APS_CHINE_main_file_handled in H.
      rewrite Ht in H.
      eapply handled_commits in H; eauto. tauto.
  - intros agency last f data w r w' made Hrel Hk Hst Hl Hp H.
    apply AZERTAC_FR_process_file_attr_handled in H.
    eapply handled_commits in H; eauto. tauto.
Qed.

Lemma MENA_commits_file_of_other_extension :
  let f := Sample.plain_file "notes.csv" 100 Sample.dispatch in
  ANSA_accepted (f_name f) = false
  /\ MAP_FR_accepted (f_name f) = false
  /\ let run :=
       MENA.main_folder Sample.ascii_runtime Sample.always_done 9
         (Sample.folder_of [f]) Sample.empty_world in
     fst (fst run) = Ok tt
     /\ map a_file_name (online2024_articles (snd (fst run)))
        = [py "notes.csv"]
     /\ map p_file_name (processedfiles (snd (fst run))) = [py "notes.csv"]
     /\ snd run
        = [Mark_file_as_processed (py "notes.csv");
           Insert_into_db (py "notes.csv"); Parse (py "notes.csv");
           Is_file_processed (py "notes.csv") (Ok false);
           Get_last_processed_time 9 (Ok None)].
Proof. vm_compute. repeat split. Qed.

Lemma extension_filter_in_ANSA_and_MAP_FR_witness :
  ANSA_accepted (py "photo.jpg") = false
  /\ ANSA.main_file Sample.ascii_runtime Sample.always_done 22 None
       (Sample.folder_of [])
       (Sample.plain_file "photo.jpg" 100 Sample.dispatch)
       Sample.empty_world
     = (Ok tt, Sample.empty_world, []).
Proof.
  split; [reflexivity|].
  apply (proj1 (extension_filter_in_ANSA_and_MAP_FR
                  Sample.ascii_runtime Sample.always_done)).
  reflexivity.
Defined.

(** * Errors of one file *)

Lemma handled_file_result E agency last policy name accepted stamp content
    w r w' made :
  handled E agency last policy name accepted stamp content w r w' made ->
  r = file_result E policy last (processedfiles w) name accepted stamp content.
Proof.
  intros H. unfold file_result. handled_cases H; subst r.
  - destruct Hskip as [->|[Hg [e ->]]]; [reflexivity|].
    rewrite Hg. destruct accepted; reflexivity.
  - rewrite Hacc, Hst, Hna. reflexivity.
  - rewrite Hacc, Hst, Hna, Hlk, Hled. reflexivity.
  - rewrite Hacc, Hst, Hna, Hlk, Hled, Hc. reflexivity.
  - rewrite Hacc, Hst, Hna, Hlk, Hled, Hc. reflexivity.
  - rewrite Hacc, Hst, Hna, Hlk. reflexivity.
  - rewrite Hacc, Hst, Hguard. reflexivity.
Qed.

Lemma file_result_Logs_all E last ledger name accepted stamp content :
  file_result E Logs_all last ledger name accepted stamp content = Ok tt.
Proof.
  unfold file_result. simpl. rewrite orb_true_r.
  destruct accepted; simpl; [|reflexivity].
  destruct stamp as [t|e]; [|reflexivity].
  destruct (not_after last t); [reflexivity|].
  destruct (lookup_returns E name); simpl; [|reflexivity].
  destruct (has_file_name name ledger); [reflexivity|].
  destruct content; reflexivity.
Qed.

Lemma file_result_answered E policy last ledger name accepted stamp content :
  (accepted = true -> exists t, stamp = Ok t) ->
  lookup_returns E name = true ->
  (reraises_writes policy = true ->
   committed (insert_outcome E name) (mark_outcome E name) = true) ->
  file_result E policy last ledger name accepted stamp content = Ok tt.
Proof.
  intros Hs Hk Hc. unfold file_result. rewrite Hk.
  destruct accepted; [|reflexivity].
  destruct (Hs eq_refl) as [t ->]. simpl.
  destruct (not_after last t); [reflexivity|].
  destruct (has_file_name name ledger); [reflexivity|].
  destruct content; [|reflexivity].
  destruct (reraises_writes policy);
    [rewrite (Hc eq_refl) | cbn [negb]; rewrite orb_true_r]; reflexivity.
Qed.

Lemma chained_insert_once E agency last policy name accepted stamp
    content w r w' made :
  handled E agency last policy name accepted stamp content w r w' made ->
  In (Insert_into_db name) made ->
  exists t data,
    stamp = Ok t /\ content = Ok data
    /\ (committed (insert_outcome E name) (mark_outcome E name) = false ->
        error_logged name w').
Proof.
  intros H Hin. handled_cases H; rewrite Hm in Hin.
  - destruct Hin.
  - destruct Hin.
  - destruct Hin as [Hin|[]]; discriminate.
  - apply in_app_or in Hin as [Hin|[Hin|[]]]; [|discriminate].
    destruct Hpre as [Hpre|Hpre]; [destruct Hpre|rewrite Hpre in Hin];
      simpl in Hin; intuition discriminate.
  - eauto.
  - destruct Hin as [Hin|[]]; discriminate.
  - destruct Hin.
Qed.

Lemma handled_logs_failures E agency last policy name accepted stamp
    content w r w' made :
  handled E agency last policy name accepted stamp content w r w' made ->
  (In (Is_file_processed name (Ok false)) made ->
   (exists e, content = Raised e) -> error_logged name w')
  /\ (In (Insert_into_db name) made ->
      committed (insert_outcome E name) (mark_outcome E name) = false ->
      error_logged name w').
Proof.
  intros H. split.
  - intros Hin [e0 He0]. handled_cases H; rewrite Hm in Hin.
    + destruct Hin.
    + destruct Hin.
    + destruct Hin as [Hin|[]]; discriminate.
    + exact Hlog.
    + congruence.
    + destruct Hin as [Hin|[]]; discriminate.
    + destruct Hin.
  - intros Hin Hcm.
    destruct (chained_insert_once _ _ _ _ _ _ _ _ _ _ _ _ H Hin)
      as [t [data [_ [_ Hl]]]].
    apply Hl, Hcm.
Qed.

Section Returns.

Lemma returns_ret {A} (a : A) : returns (ret a).
Proof. intros w. exists a, w, []. reflexivity. Qed.

Lemma returns_logging l message subject :
  returns (logging l message subject).
Proof. intros w. eexists _, _, _. reflexivity. Qed.

Lemma returns_lift {A} (a : A) : returns (lift (Ok a)).
Proof. intros w. exists a, w, []. reflexivity. Qed.

Lemma returns_get_last_processed_time E agency :
  watermark_returns E agency = true ->
  returns (Store.get_last_processed_time E agency).
Proof.
  intros Hk w. unfold Store.get_last_processed_time. rewrite Hk.
  eexists _, _, _. reflexivity.
Qed.

Lemma returns_bind {A B} (m : M A) (k : A -> M B) :
  returns m -> (forall a, returns (k a)) -> returns (bind m k).
Proof.
  intros Hm Hk w. destruct (Hm w) as [a [w1 [made1 Em]]].
  destruct (Hk a w1) as [b [w2 [made2 Ek]]].
  exists b, w2, (made2 ++ made1). unfold bind. rewrite Em, Ek. reflexivity.
Qed.

Lemma returns_try_except {A} (m : M A) (handler : exn -> M A) :
  (forall e, returns (handler e)) -> returns (try_except m handler).
Proof.
  intros Hh w. unfold try_except.
  destruct (m w) as [[[a|e] w1] made1].
  - eexists _, _, _. reflexivity.
  - destruct (Hh e w1) as [b [w2 [made2 Eh]]]. rewrite Eh.
    eexists _, _, _. reflexivity.
Qed.

Lemma returns_for_each {A} (xs : list A) (body : A -> M unit) :
  (forall x, In x xs -> returns (body x)) -> returns (for_each xs body).
Proof.
  induction xs as [|x xs IH]; intros Hb; simpl.
  - apply returns_ret.
  - apply returns_bind; [apply Hb; left; reflexivity|].
    intros _. apply IH. intros y Hy. apply Hb. right; exact Hy.
Qed.

Lemma returns_for_fold {A S} (xs : list A) (body : A -> S -> M S) :
  (forall x s, returns (body x s)) -> forall s, returns (for_fold xs s body).
Proof.
  intros Hb. induction xs as [|x xs IH]; intros s; simpl.
  - apply returns_ret.
  - apply returns_bind; [apply Hb | intros s'; apply IH].
Qed.

(** A loop whose body never raises gets to each of its files. *)
Lemma for_each_reaches {A} (xs : list A) (body : A -> M unit) :
  (forall x, returns (body x)) ->
  forall x w, In x xs ->
    exists w0, incl (snd (body x w0)) (snd (for_each xs body w)).
Proof.
  intros Hb x. induction xs as [|y xs IH]; intros w Hin; [destruct Hin|].
  simpl. unfold bind.
  destruct (Hb y w) as [[] [w1 [made1 Ey]]]. rewrite Ey.
  destruct (for_each xs body w1) as [[r2 w2] made2] eqn:Erest. simpl.
  destruct Hin as [->|Hin].
  - exists w. rewrite Ey. simpl. apply incl_appr, incl_refl.
  - destruct (IH w1 Hin) as [w0 Hincl]. exists w0.
    rewrite Erest in Hincl. simpl in Hincl. apply incl_appl, Hincl.
Qed.

End Returns.

Lemma ends_as_returns (expected : list processed_file -> result unit)
    (body : M unit) :
  ends_as expected body -> (forall ledger, expected ledger = Ok tt) ->
  returns body.
Proof.
  intros Hb He w. destruct (body w) as [[r w'] made] eqn:Eb.
  rewrite (Hb _ _ _ _ Eb), He. exists tt, w', made. reflexivity.
Qed.

(** The lookup of a file that passes the filters is among the calls. *)
Lemma handled_looks_up E agency last policy name accepted mtime content
    w r w' made :
  handled E agency last policy name accepted (Ok mtime) content
    w r w' made ->
  accepted = true -> not_after last mtime = false ->
  exists answer, In (Is_file_processed name answer) made.
Proof.
  intros H Ha Hn. handled_cases H; rewrite Hm.
  - destruct Hskip as [Hs|[_ [e Hs]]]; congruence.
  - congruence.
  - eexists. left; reflexivity.
  - eexists. apply in_or_app. right. left; reflexivity.
  - eexists. apply in_or_app. right. right.
    apply in_or_app. right. left; reflexivity.
  - eexists. left; reflexivity.
  - congruence.
Qed.

Lemma In_insert_by_mtime x y l :
  In x (insert_by_mtime y l) <-> x = y \/ In x l.
Proof.
  induction l as [|z l IH]; simpl; [intuition|].
  destruct (st_mtime y <? st_mtime z)%Z; simpl; rewrite ?IH; intuition.
Qed.

Lemma In_sorted_reverse x files : In x (sorted_reverse files) <-> In x files.
Proof.
  unfold sorted_reverse. induction files as [|y l IH]; simpl; [tauto|].
  rewrite In_insert_by_mtime, IH. intuition.
Qed.

Lemma ANSA_main_file_ends R E agency last d f :
  ends_as
    (fun ledger =>
       file_result E Raises_again last ledger (f_name f)
         (ANSA_accepted (f_name f)) (getmtime d (f_name f))
         (ANSA.parse_xml_try R f))
    (ANSA.main_file R E agency last d f).
Proof.
  intros w r w' made H.
  eapply handled_file_result, ANSA_main_file_handled, H.
Qed.

Lemma MENA_main_file_ends R E agency last d f :
  ends_as
    (fun ledger =>
       file_result E Raises_again last ledger (f_name f) true
         (getmtime d (f_name f)) (MENA.parse_txt R f))
    (MENA.main_file R E agency last d f).
Proof.
  intros w r w' made H.
  eapply handled_file_result, MENA_main_file_handled, H.
Qed.

Lemma APS_CHINE_main_file_ends R E folder agency last d f :
  ends_as
    (fun ledger =>
       file_result E Logs_writes last ledger (f_name f) true
         (getmtime d (f_name f)) (APS_CHINE.parse_xml_try R f folder))
    (APS_CHINE.main_file R E folder agency last d f).
Proof.
  intros w r w' made H.
  eapply handled_file_result, APS_CHINE_main_file_handled, H.
Qed.

Lemma MAP_FR_process_detail_returns R E agency last now e :
  returns (MAP_FR.process_detail R E agency last now e).
Proof.
  eapply (ends_as_returns
            (fun ledger =>
               file_result E Logs_all last ledger (MAP_FR.e_name e)
                 (MAP_FR_accepted (MAP_FR.e_name e)) (MAP_FR_stamp now e)
                 (MAP_FR_content R e))).
  - intros w r w' made H.
    eapply handled_file_result, MAP_FR_process_detail_handled, H.
  - intros ledger. apply file_result_Logs_all.
Qed.

Lemma AZERTAC_FR_process_file_attr_returns R E agency last f :
  returns (AZERTAC_FR.process_file_attr R E agency last f).
Proof.
  eapply (ends_as_returns
            (fun ledger =>
               file_result E Logs_all last ledger (f_name f) true
                 (Ok (st_mtime f)) (AZERTAC_FR_content R f))).
  - intros w r w' made H.
    eapply handled_file_result, AZERTAC_FR_process_file_attr_handled, H.
  - intros ledger. apply file_result_Logs_all.
Qed.

Ltac returns_step :=
  first
    [ apply returns_ret
    | apply returns_logging
    | apply returns_lift
    | apply returns_try_except; intro
    | apply returns_bind; [|intro]
    | apply returns_for_fold; intros ].

Lemma MAP_FR_main_returns R E server clock :
  returns (MAP_FR.main R E server clock).
Proof.
  unfold MAP_FR.main, MAP_FR.process_mapl_from_ftp. repeat returns_step.
Qed.

Lemma AZERTAC_FR_main_returns R E server :
  returns (AZERTAC_FR.main R E server).
Proof.
  unfold AZERTAC_FR.main, AZERTAC_FR.process_azertacFr_from_sftp.
  repeat returns_step.
Qed.

Lemma watermark_then_returns E agency (loop : option Z -> M unit) :
  watermark_returns E agency = true ->
  (forall last, returns (loop last)) ->
  returns (watermark_then E agency loop).
Proof.
  intros Hk Hl w. unfold watermark_then. rewrite Hk.
  destruct (Hl (max_created_date agency (processedfiles w)) w)
    as [a [w' [made H]]].
  rewrite H. eexists _, _, _. reflexivity.
Qed.

Lemma returns_ext {A} (m m' : M A) :
  (forall w, m w = m' w) -> returns m' -> returns m.
Proof. intros He Hr w. rewrite He. apply Hr. Qed.

Lemma ANSA_main_returns R E fs :
  reliable E -> readable E -> statable fs -> returns (ANSA.main R E fs).
Proof.
  intros Hrel [Hlook Hwater] Hstat. unfold ANSA.main. apply returns_bind.
  - apply returns_for_fold. intros [folder id] s. unfold ANSA.main_agency.
    destruct (fs (py folder)) as [d|] eqn:Hfs; [|repeat returns_step].
    destruct (Hstat _ _ Hfs) as [files [Hl Hg]].
    apply returns_bind; [apply returns_logging|]. intros _.
    apply returns_bind; [|intros _; apply returns_ret].
    eapply returns_ext;
      [intros w; apply (ANSA_main_folder_is_loop R E id d files w Hl)|].
    apply watermark_then_returns; [apply Hwater|]. intros last.
    apply returns_for_each. intros f Hin.
    apply (proj1 (In_sorted_reverse _ _)) in Hin.
    eapply ends_as_returns; [apply ANSA_main_file_ends|].
    intros ledger. apply file_result_answered.
    + intros _. apply Hg, Hin.
    + apply Hlook.
    + intros _. destruct (Hrel (f_name f)) as [-> ->]. reflexivity.
  - intros has. destruct (negb has); repeat returns_step.
Qed.

Lemma MENA_main_returns R E fs :
  reliable E -> readable E -> statable fs -> returns (MENA.main R E fs).
Proof.
  intros Hrel [Hlook Hwater] Hstat. unfold MENA.main. apply returns_bind.
  - apply returns_for_fold. intros [folder id] s. unfold MENA.main_agency.
    destruct (fs (py folder)) as [d|] eqn:Hfs; [|repeat returns_step].
    destruct (Hstat _ _ Hfs) as [files [Hl Hg]].
    apply returns_bind; [apply returns_logging|]. intros _.
    apply returns_bind; [|intros _; apply returns_ret].
    eapply returns_ext;
      [intros w; apply (MENA_main_folder_is_loop R E id d files w Hl)|].
    apply watermark_then_returns; [apply Hwater|]. intros last.
    apply returns_for_each. intros f Hin.
    apply (proj1 (In_sorted_reverse _ _)) in Hin.
    eapply ends_as_returns; [apply MENA_main_file_ends|].
    intros ledger. apply file_result_answered.
    + intros _. apply Hg, Hin.
    + apply Hlook.
    + intros _. destruct (Hrel (f_name f)) as [-> ->]. reflexivity.
  - intros has. destruct (negb has); repeat returns_step.
Qed.

Lemma APS_CHINE_main_returns R E fs :
  readable E -> statable fs -> returns (APS_CHINE.main R E fs).
Proof.
  intros [Hlook Hwater] Hstat. unfold APS_CHINE.main. apply returns_bind.
  - apply returns_for_fold. intros [folder id] s.
    unfold APS_CHINE.main_agency.
    destruct (fs (py folder)) as [d|] eqn:Hfs; [|repeat returns_step].
    destruct (Hstat _ _ Hfs) as [files [Hl Hg]].
    apply returns_bind; [apply returns_logging|]. intros _.
    apply returns_bind; [|intros _; apply returns_ret].
    eapply returns_ext;
      [intros w;
       apply (APS_CHINE_main_folder_is_loop R E folder id d files w Hl)|].
    apply watermark_then_returns; [apply Hwater|]. intros last.
    apply returns_for_each. intros f Hin.
    apply (proj1 (In_sorted_reverse _ _)) in Hin.
    eapply ends_as_returns; [apply APS_CHINE_main_file_ends|].
    intros ledger. apply file_result_answered.
    + intros _. apply Hg, Hin.
    + apply Hlook.
    + discriminate.
  - intros has. destruct (negb has); repeat returns_step.
Qed.

(** The calls of a part of a run are among those of the run. *)
Lemma bind_made_incl {A B} (m : M A) (k : A -> M B) w :
  incl (snd (m w)) (snd (bind m k w)).
Proof.
  unfold bind. destruct (m w) as [[[a|e] w1] made1]; simpl.
  - destruct (k a w1) as [[r2 w2] made2]. simpl. apply incl_appr, incl_refl.
  - apply incl_refl.
Qed.

Lemma try_except_made_incl {A} (m : M A) handler w :
  incl (snd (m w)) (snd (try_except m handler w)).
Proof.
  unfold try_except. destruct (m w) as [[[a|e] w1] made1]; simpl.
  - apply incl_refl.
  - destruct (handler e w1) as [[r2 w2] made2]. simpl.
    apply incl_appr, incl_refl.
Qed.

Lemma watermark_then_made_incl {A} E agency (loop : option Z -> M A) w :
  watermark_returns E agency = true ->
  incl (snd (loop (max_created_date agency (processedfiles w)) w))
    (snd (watermark_then E agency loop w)).
Proof.
  intros Hk. unfold watermark_then. rewrite Hk.
  destruct (loop _ w) as [[r w'] made]. simpl. apply incl_appl, incl_refl.
Qed.

(** The loop of MAP_FR over the lines of the listing gets to every line
    that has a name, once [file_name] is bound or the first line has a
    name. *)
Lemma MAP_FR_loop_reaches R E agency last clock lines :
  forall file_name w e,
    file_name <> None \/ named_first lines ->
    In (Some e) lines ->
    exists w0,
      incl
        (snd (MAP_FR.process_detail R E agency last
                (clock (MAP_FR.e_name e)) e w0))
        (snd (for_fold lines file_name
                (MAP_FR.process_line R E agency last clock) w)).
Proof.
  induction lines as [|line lines IH]; intros file_name w e Hb Hin;
    [destruct Hin|].
  cbn [for_fold]. unfold bind at 1.
  destruct line as [e'|].
  - unfold MAP_FR.process_line at 1. unfold bind at 1.
    destruct (MAP_FR_process_detail_returns R E agency last
                (clock (MAP_FR.e_name e')) e' w) as [[] [w1 [made1 Ed]]].
    rewrite Ed. unfold ret at 1. cbn [app].
    destruct (for_fold lines (Some (MAP_FR.e_name e'))
                (MAP_FR.process_line R E agency last clock) w1)
      as [[r2 w2] made2] eqn:Erest.
    cbn [snd].
    destruct Hin as [Heq|Hin].
    + inversion Heq; subst e'. exists w. rewrite Ed. cbn [snd].
      apply incl_appr, incl_refl.
    + destruct (IH (Some (MAP_FR.e_name e')) w1 e) as [w0 Hincl];
        [left; discriminate | exact Hin |].
      exists w0. rewrite Erest in Hincl. cbn [snd] in Hincl.
      apply incl_appl, Hincl.
  - destruct Hin as [Heq|Hin]; [discriminate|].
    destruct file_name as [name|];
      [|destruct Hb as [Hb|[]]; exfalso; apply Hb; reflexivity].
    unfold MAP_FR.process_line at 1. rewrite bind_logging.
    unfold ret at 1.
    destruct (for_fold lines (Some name)
                (MAP_FR.process_line R E agency last clock)
                (logged ERROR "Error processing file" name w))
      as [[r2 w2] made2] eqn:Erest.
    cbn [snd].
    destruct (IH (Some name) (logged ERROR "Error processing file" name w) e)
      as [w0 Hincl]; [left; discriminate | exact Hin |].
    exists w0. rewrite Erest in Hincl. cbn [snd] in Hincl.
    apply incl_appl, Hincl.
Qed.

(** C3, as the scripts have it. In MAP_FR and AZERTAC_FR the body of the
    loop is one [try]: whatever fails for a file that has a name (its
    date, the ledger lookup, the fetch, the parse, a write) is logged and
    the loop goes on to the ledger lookup of every file that passes the
    filters; the run returns. A line of the listing of MAP_FR without any
    field is logged under the name of the line before it, and when it is
    the first line the handler itself raises and the pass ends there. In
    ANSA, MENA and APS_CHINE the date of the file and the ledger lookup
    are outside every [try]: an exception of either leaves the body; a
    failed reading or parsing is logged and passed over; a failed write
    is logged, and raised again in ANSA and MENA but not in APS_CHINE. An
    exception that leaves the body ends the loop and, in the run, the
    pass of the first folder ends the run. When the folders can be read
    and the store answers the queries (and, for ANSA and MENA, the
    writes), the run returns. *)
Theorem per_file_errors_by_script R E :
  ((forall server clock, returns (MAP_FR.main R E server clock))
   /\ (forall server, returns (AZERTAC_FR.main R E server))
   /\ (forall agency last now e,
         returns (MAP_FR.process_detail R E agency last now e))
   /\ (forall agency last f,
         returns (AZERTAC_FR.process_file_attr R E agency last f)))
  /\ (forall server agency files w f,
        AZERTAC_FR.sftp_connect server = Ok tt ->
        AZERTAC_FR.sftp_chdir server = Ok tt ->
        AZERTAC_FR.sftp_listdir_attr server = Ok files ->
        watermark_returns E agency = true ->
        In f files ->
        after_watermark (max_created_date agency (processedfiles w))
          (st_mtime f) ->
        exists answer,
          In (Is_file_processed (f_name f) answer)
             (snd (AZERTAC_FR.process_azertacFr_from_sftp R E server
                     agency w)))
  /\ (forall server clock agency lines w e modified_time,
        MAP_FR.ftp_login server = Ok tt ->
        MAP_FR.ftp_list server = Ok lines ->
        named_first lines ->
        watermark_returns E agency = true ->
        In (Some e) lines ->
        MAP_FR_accepted (MAP_FR.e_name e) = true ->
        MAP_FR.infer_modified_time (clock (MAP_FR.e_name e)) e
        = Ok modified_time ->
        after_watermark (max_created_date agency (processedfiles w))
          (MAP_FR.timestamp modified_time) ->
        exists answer,
          In (Is_file_processed (MAP_FR.e_name e) answer)
             (snd (MAP_FR.process_mapl_from_ftp R E server clock agency w)))
  /\ (forall agency last clock name w,
        MAP_FR.process_line R E agency last clock None (Some name) w
        = (Ok (Some name), logged ERROR "Error processing file" name w, []))
  /\ (forall server clock agency rest w,
        MAP_FR.ftp_login server = Ok tt ->
        MAP_FR.ftp_list server = Ok (None :: rest) ->
        MAP_FR.process_mapl_from_ftp R E server clock agency w
        = (Ok tt,
           logged ERROR "Failed to process MAPL files from FTP" []
             (logged INFO "Connected to FTP server." [] w),
           [Get_last_processed_time agency
              (select (watermark_returns E agency)
                 (max_created_date agency (processedfiles w)))]))
  /\ (forall agency last d f,
        ends_as
          (fun ledger =>
             file_result E Raises_again last ledger (f_name f)
               (ANSA_accepted (f_name f)) (getmtime d (f_name f))
               (ANSA.parse_xml_try R f))
          (ANSA.main_file R E agency last d f)
        /\ ends_as
             (fun ledger =>
                file_result E Raises_again last ledger (f_name f) true
                  (getmtime d (f_name f)) (MENA.parse_txt R f))
             (MENA.main_file R E agency last d f)
        /\ (forall folder,
              ends_as
                (fun ledger =>
                   file_result E Logs_writes last ledger (f_name f) true
                     (getmtime d (f_name f))
                     (APS_CHINE.parse_xml_try R f folder))
                (APS_CHINE.main_file R E folder agency last d f)))
  /\ (forall agency last d f,
        logs_failures E (f_name f) (ANSA.parse_xml_try R f)
          (ANSA.main_file R E agency last d f)
        /\ logs_failures E (f_name f) (MENA.parse_txt R f)
             (MENA.main_file R E agency last d f)
        /\ (forall folder,
              logs_failures E (f_name f) (APS_CHINE.parse_xml_try R f folder)
                (APS_CHINE.main_file R E folder agency last d f))
        /\ logs_failures E (f_name f) (AZERTAC_FR_content R f)
             (AZERTAC_FR.process_file_attr R E agency last f))
  /\ (forall agency last now e,
        logs_failures E (MAP_FR.e_name e) (MAP_FR_content R e)
          (MAP_FR.process_detail R E agency last now e))
  /\ (forall agency last d,
        stops_at_raise (ANSA.main_file R E agency last d)
        /\ stops_at_raise (MENA.main_file R E agency last d)
        /\ (forall folder,
              stops_at_raise (APS_CHINE.main_file R E folder agency last d)))
  /\ (forall fs d w e w1 made1,
        (fs (py "Ansa_Ar") = Some d ->
         ANSA.main_folder R E 22 d
           (logged INFO "Processing folder" (py "Ansa_Ar") w)
         = (Raised e, w1, made1) ->
         ANSA.main R E fs w = (Raised e, w1, made1))
        /\ (fs (py "mena") = Some d ->
            MENA.main_folder R E 9 d
              (logged INFO "Processing folder" (py "mena") w)
            = (Raised e, w1, made1) ->
            MENA.main R E fs w = (Raised e, w1, made1))
        /\ (fs (py "aps_ar_xml") = Some d ->
            APS_CHINE.main_folder R E "aps_ar_xml" 1 d
              (logged INFO "Processing folder" (py "aps_ar_xml") w)
            = (Raised e, w1, made1) ->
            APS_CHINE.main R E fs w = (Raised e, w1, made1)))
  /\ (forall fs,
        readable E -> statable fs ->
        returns (APS_CHINE.main R E fs)
        /\ (reliable E ->
            returns (ANSA.main R E fs) /\ returns (MENA.main R E fs))).
Proof.
  split; [|split; [|split; [|split; [|split; [|split; [|split; [|split;
    [|split; [|split]]]]]]]]].
  - split; [|split; [|split]]; intros.
    + apply MAP_FR_main_returns.
    + apply AZERTAC_FR_main_returns.
    + apply MAP_FR_process_detail_returns.
    + apply AZERTAC_FR_process_file_attr_returns.
  - intros server agency files w f Hc Hd Hl Hk Hin Hna.
    apply not_after_after_watermark in Hna.
    rewrite (AZERTAC_FR_pass_is_loop R E server agency files w Hc Hd Hl).
    set (w1 := logged INFO "Connected to SFTP server." [] w).
    apply In_sorted_reverse in Hin.
    destruct (for_each_reaches (sorted_reverse files) _
                (AZERTAC_FR_process_file_attr_returns R E agency
                   (max_created_date agency (processedfiles w))) f w1 Hin)
      as [w0 Hincl].
    destruct (AZERTAC_FR.process_file_attr R E agency
                (max_created_date agency (processedfiles w)) f w0)
      as [[r0 w2] made0] eqn:Eb.
    apply AZERTAC_FR_process_file_attr_handled in Eb.
    destruct (handled_looks_up _ _ _ _ _ _ _ _ _ _ _ _ Eb eq_refl Hna)
      as [answer Ha].
    exists answer. apply try_except_made_incl.
    apply (watermark_then_made_incl E agency _ w1 Hk).
    apply Hincl. exact Ha.
  - intros server clock agency lines w e mt Hc Hl Hnamed Hk Hin Hacc Hmt Hna.
    apply not_after_after_watermark in Hna.
    rewrite (MAP_FR_pass_is_loop R E server clock agency lines w Hc Hl).
    set (w1 := logged INFO "Connected to FTP server." [] w).
    destruct (MAP_FR_loop_reaches R E agency
                (max_created_date agency (processedfiles w)) clock lines
                None w1 e (or_intror Hnamed) Hin) as [w0 Hincl].
    destruct (MAP_FR.process_detail R E agency
                (max_created_date agency (processedfiles w))
                (clock (MAP_FR.e_name e)) e w0)
      as [[r0 w2] made0] eqn:Eb.
    apply MAP_FR_process_detail_handled in Eb.
    unfold MAP_FR_stamp in Eb. rewrite Hmt in Eb. simpl in Eb.
    destruct (handled_looks_up _ _ _ _ _ _ _ _ _ _ _ _ Eb Hacc Hna)
      as [answer Ha].
    exists answer. apply try_except_made_incl.
    apply (watermark_then_made_incl E agency _ w1 Hk).
    apply bind_made_incl. apply Hincl. exact Ha.
  - intros. reflexivity.
  - intros server clock agency rest w Hc Hl.
    rewrite (MAP_FR_pass_is_loop R E server clock agency _ w Hc Hl).
    unfold try_except, watermark_then, select.
    destruct (watermark_returns E agency); reflexivity.
  - intros agency last d f. split; [|split; [|intros folder]].
    + apply ANSA_main_file_ends.
    + apply MENA_main_file_ends.
    + apply APS_CHINE_main_file_ends.
  - intros agency last d f. split; [|split; [|split]].
    + intros w r w' made H.
      eapply handled_logs_failures, ANSA_main_file_handled, H.
    + intros w r w' made H.
      eapply handled_logs_failures, MENA_main_file_handled, H.
    + intros folder w r w' made H.
      eapply handled_logs_failures, APS_CHINE_main_file_handled, H.
    + intros w r w' made H.
      eapply handled_logs_failures, AZERTAC_FR_process_file_attr_handled, H.
  - intros agency last now e w r w' made H.
    eapply handled_logs_failures, MAP_FR_process_detail_handled, H.
  - intros agency last d. split; [|split; [|intros folder]];
      intros x rest w e w' made H;
      simpl; unfold bind; rewrite H; reflexivity.
  - intros fs d w e w1 made1. split; [|split]; intros Hfs H.
    + unfold ANSA.main, ANSA.AGENCIES. cbn [for_fold].
      unfold bind at 1. unfold bind at 1. unfold ANSA.main_agency at 1.
      rewrite Hfs, bind_logging. unfold bind at 1. rewrite H. reflexivity.
    + unfold MENA.main, MENA.AGENCIES. cbn [for_fold].
      unfold bind at 1. unfold bind at 1. unfold MENA.main_agency at 1.
      rewrite Hfs, bind_logging. unfold bind at 1. rewrite H. reflexivity.
    + unfold APS_CHINE.main, APS_CHINE.AGENCIES. cbn [for_fold].
      unfold bind at 1. unfold bind at 1. unfold APS_CHINE.main_agency at 1.
      rewrite Hfs, bind_logging. unfold bind at 1. rewrite H. reflexivity.
  - intros fs Hread Hstat. split.
    + apply APS_CHINE_main_returns; assumption.
    + intros Hrel. split.
      * apply ANSA_main_returns; assumption.
      * apply MENA_main_returns; assumption.
Qed.

Lemma MENA_run_ends_at_failed_insert :
  (let run :=
     MENA.main Sample.ascii_runtime (Sample.insert_fails_for (py "d2.txt"))
       Sample.mena_depot Sample.empty_world in
   fst (fst run) = Raised DatabaseError
   /\ snd run
      = [Insert_into_db (py "d2.txt"); Parse (py "d2.txt");
         Is_file_processed (py "d2.txt") (Ok false);
         Parse (py "short.txt"); Is_file_processed (py "short.txt") (Ok false);
         Get_last_processed_time 9 (Ok None)]
   /\ (forall answer,
         ~ In (Is_file_processed (py "d1.txt") answer) (snd run))
   /\ online2024_articles (snd (fst run)) = []
   /\ In (Sample.plain_file "d1.txt" 100 Sample.dispatch) Sample.mena_files)
  /\ (let run :=
        APS_CHINE.main_folder Sample.ascii_runtime
          (Sample.lookup_fails_for (py "d2.txt")) "aps_fr_xml" 2
          (Sample.folder_of Sample.mena_files) Sample.empty_world in
      fst (fst run) = Raised DatabaseError
      /\ snd run
         = [Is_file_processed (py "d2.txt") (Raised DatabaseError);
            Parse (py "short.txt");
            Is_file_processed (py "short.txt") (Ok false);
            Get_last_processed_time 2 (Ok None)])
  /\ (let run :=
        MAP_FR.process_mapl_from_ftp Sample.ascii_runtime Sample.always_done
          {| MAP_FR.ftp_login := Ok tt;
             MAP_FR.ftp_list :=
               Ok [None;
                   Some (Sample.ftp_file "m1.txt" (3, 1, 10, 0)%Z
                           Sample.map_dispatch)] |}
          Sample.noon 4 Sample.empty_world in
      fst (fst run) = Ok tt
      /\ snd run = [Get_last_processed_time 4 (Ok None)]
      /\ online2024_articles (snd (fst run)) = []).
Proof.
  split; [|split].
  - vm_compute. repeat split; try (left; reflexivity).
    intros answer H. repeat (destruct H as [H|H]; [discriminate H|]). exact H.
  - vm_compute. repeat split.
  - vm_compute. repeat split.
Qed.

Lemma mena_depot_statable : statable Sample.mena_depot.
Proof.
  intros name d H. unfold Sample.mena_depot in H.
  destruct (str_eqb name (py "mena")); [|discriminate].
  inversion H; subst d. exists Sample.mena_files. split; [reflexivity|].
  intros f [<-|[<-|[<-|[]]]]; eexists; vm_compute; reflexivity.
Qed.

Lemma always_done_answers :
  reliable Sample.always_done /\ readable Sample.always_done.
Proof. split; [|split]; intros; try split; reflexivity. Qed.

Lemma per_file_errors_by_script_witness :
  readable Sample.always_done
  /\ statable Sample.mena_depot
  /\ reliable Sample.always_done
  /\ returns (MENA.main Sample.ascii_runtime Sample.always_done
                Sample.mena_depot).
Proof.
  destruct always_done_answers as [Hrel Hread].
  split; [exact Hread|]. split; [exact mena_depot_statable|].
  split; [exact Hrel|].
  destruct (per_file_errors_by_script Sample.ascii_runtime
              Sample.always_done)
    as [_ [_ [_ [_ [_ [_ [_ [_ [_ [_ Hreturns]]]]]]]]]].
  exact (proj2 (proj2 (Hreturns Sample.mena_depot Hread mena_depot_statable)
                  Hrel)).
Defined.

(** * The parsers *)

(** The parsers that have a handler return: a dictionary, or [None] after
    an [ERROR] record. *)
Lemma parsers_with_handler_return R :
  (forall f, returns (ANSA.parse_xml R f))
  /\ (forall f folder, returns (APS_CHINE.parse_xml R f folder))
  /\ (forall raw name, returns (MAP_FR.parse_txt R raw name))
  /\ (forall raw name, returns (AZERTAC_FR.parse_xml R raw name)).
Proof.
  repeat split; intros;
    unfold ANSA.parse_xml, APS_CHINE.parse_xml, MAP_FR.parse_txt,
      AZERTAC_FR.parse_xml;
    repeat returns_step.
Qed.

(** C4. [parse_txt] of MENA has no handler: on a file of two lines, [lines[2]]
    raises [IndexError] out of the parser, and on a file of four lines the
    loop over [lines[4:]] binds no [line] and [lines.index(line)] raises
    [UnboundLocalError]; it is the caller, the loop of [main], that
    catches the exception, logs it and leaves the file. *)
Theorem MENA_parse_txt_raises_on_short_file :
  let short := Sample.plain_file "short.txt" 300 ["MENA"; "-"]%string in
  let four :=
    Sample.plain_file "four.txt" 300
      ["MENA"; "-"; "123 urgent"; "Economy"]%string in
  MENA.parse_txt Sample.ascii_runtime short = Raised IndexError
  /\ MENA.parse_txt Sample.ascii_runtime four = Raised UnboundLocalError
  /\ MENA.main_file Sample.ascii_runtime Sample.always_done 9 None
       (Sample.folder_of [short]) short Sample.empty_world
     = (Ok tt,
        {| online2024_articles := []; processedfiles := [];
           log := [{| lr_level := ERROR;
                      lr_message := "Error while parsing file";
                      lr_subject := py "short.txt" |}] |},
        [Parse (py "short.txt"); Is_file_processed (py "short.txt") (Ok false)]).
Proof. repeat split. Qed.

(** * Labels *)

Lemma MAP_FR_and_AZERTAC_FR_label_zero_on_no_match :
  re_search (MAP_FR.label_at Sample.ascii_runtime) (py "DEPECHE 4 GEN") = None
  /\ MAP_FR.get_label Sample.ascii_runtime (py "DEPECHE 4 GEN") = py "0"
  /\ (exists d,
        MAP_FR.parse_txt_try Sample.ascii_runtime
          (Sample.text_of
             ["ZCZC"; "DEPECHE 4 GEN"; "-"; "Sport"; "Le match";
              "Rabat."]%string)
          (py "a.txt") = Ok d
        /\ label d = VStr (py "0") /\ label d <> VNone)
  /\ re_search (AZERTAC_FR.label_at Sample.ascii_runtime) (py "depeche.xml")
     = None
  /\ (exists d,
        AZERTAC_FR.parse_xml_try Sample.ascii_runtime (py "<news>x</news>")
          (py "depeche.xml") = Ok d
        /\ label d = VStr (py "0") /\ label d <> VNone)
  /\ (let with_label :=
        Sample.plain_file "a.xml" 100 ["<NewsML><Label>"]%string in
      let without := Sample.plain_file "b.xml" 100 ["<NewsML>"]%string in
      (exists d,
          APS_CHINE.parse_xml_try Sample.newsml_runtime with_label
            "aps_fr_xml" = Ok d
          /\ label d = VStr (py "APS0042"))
      /\ APS_CHINE_document Sample.newsml_runtime without "aps_fr_xml"
         = Ok (Sample.newsml_document false)
      /\ succeeds (news_lines (Sample.newsml_document false)) = true
      /\ label_text (Sample.newsml_document false) = Raised KeyError
      /\ APS_CHINE.parse_xml_try Sample.newsml_runtime without "aps_fr_xml"
         = Raised KeyError
      /\ APS_CHINE.parse_xml Sample.newsml_runtime without "aps_fr_xml"
           Sample.empty_world
         = (Ok None,
            logged ERROR "Unexpected error while parsing" (py "b.xml")
              Sample.empty_world,
            [])).
Proof.
  split; [reflexivity|]. split; [reflexivity|]. split.
  { eexists. split; [reflexivity|]. split; [reflexivity | discriminate]. }
  split; [reflexivity|]. split.
  { eexists. split; [reflexivity|]. split; [reflexivity | discriminate]. }
  cbv zeta. split.
  { eexists. split; vm_compute; reflexivity. }
  repeat split; vm_compute; reflexivity.
Qed.

(** Case analysis on the innermost scrutinee of the goal. *)
Ltac case_scrutinee :=
  match goal with
  | |- context [match ?x with _ => _ end] =>
      lazymatch x with
      | context [match _ with _ => _ end] => fail
      | _ => destruct x eqn:?
      end
  end.

Lemma ANSA_parse_whatever_the_name R f name :
  succeeds (ANSA.parse_xml_try R (renamed name f))
  = succeeds (ANSA.parse_xml_try R f).
Proof.
  unfold ANSA.parse_xml_try, rbind, renamed; simpl.
  repeat case_scrutinee; reflexivity.
Qed.

Lemma APS_CHINE_parse_whatever_the_name R f folder name :
  succeeds (APS_CHINE.parse_xml_try R (renamed name f) folder)
  = succeeds (APS_CHINE.parse_xml_try R f folder).
Proof.
  unfold APS_CHINE.parse_xml_try, rbind, renamed; simpl.
  repeat case_scrutinee; reflexivity.
Qed.

Lemma AZERTAC_FR_parse_whatever_the_name R raw name name' :
  succeeds (AZERTAC_FR.parse_xml_try R raw name')
  = succeeds (AZERTAC_FR.parse_xml_try R raw name).
Proof.
  unfold AZERTAC_FR.parse_xml_try, rbind; simpl.
  repeat case_scrutinee; reflexivity.
Qed.

Lemma MAP_FR_parse_succeeds_iff_five_lines R raw name content :
  bytes_decode R (chardet_detect R raw) raw = Ok content ->
  succeeds (MAP_FR.parse_txt_try R raw name)
  = (5 <=? List.length (splitlines content))%nat.
Proof.
  intros Hd. unfold MAP_FR.parse_txt_try. rewrite Hd. simpl.
  destruct (splitlines content) as [|l0 [|l1 [|l2 [|l3 [|l4 rest]]]]];
    reflexivity.
Qed.

Lemma title_loop_binds_line rest :
  forall line title_lines,
    (line = None -> rest <> []) ->
    exists l title_lines',
      MENA.title_loop rest line title_lines = (Some l, title_lines')
      /\ (In l rest \/ line = Some l).
Proof.
  induction rest as [|x rest IH]; intros line tl Hne; simpl.
  - destruct line as [l|]; [|exfalso; apply Hne; reflexivity].
    exists l, tl. auto.
  - destruct (str_eqb (strip x) []).
    + exists x, tl. auto.
    + destruct (IH (Some x) (tl ++ [strip x])) as [l [tl' [Hl Hin]]];
        [discriminate|].
      exists l, tl'. split; [exact Hl|].
      destruct Hin as [Hin|Hin]; [auto | inversion Hin; auto].
Qed.

Lemma index_of_member lines line :
  In line lines -> exists i, MENA.index lines line = Ok i.
Proof.
  induction lines as [|l lines IH]; intros Hin; [destruct Hin|].
  simpl. destruct (str_eqb l line) eqn:Heq; [eauto|].
  destruct Hin as [->|Hin]; [rewrite str_eqb_refl in Heq; discriminate|].
  destruct (IH Hin) as [i ->]. simpl. eauto.
Qed.

Lemma MENA_parse_succeeds_iff_five_lines R f raw text :
  f_data f = Ok raw ->
  open_read R (chardet_detect R raw) raw = Ok text ->
  succeeds (MENA.parse_txt R f) = (5 <=? List.length (readlines text))%nat.
Proof.
  intros Hraw Htext. unfold MENA.parse_txt. rewrite Hraw. simpl.
  rewrite Htext. simpl.
  destruct (readlines text) as [|l0 [|l1 [|l2 [|l3 [|l4 rest]]]]] eqn:Hl;
    try reflexivity.
  cbn [getitem nth_error rbind skipn].
  destruct (title_loop_binds_line (l4 :: rest) None [])
    as [line [tl [Hloop Hin]]]; [discriminate|].
  rewrite Hloop.
  destruct Hin as [Hin|Hin]; [|discriminate].
  destruct (index_of_member (l0 :: l1 :: l2 :: l3 :: l4 :: rest) line)
    as [i Hi]; [simpl; tauto|].
  rewrite Hi. reflexivity.
Qed.

Ltac split_subscripts :=
  repeat match goal with
         | |- context [subscript ?a ?k] =>
             destruct (subscript a k) eqn:?; cbn beta iota
         end.

Lemma APS_CHINE_newsml_parse R f folder data :
  newsml_folder folder = true ->
  APS_CHINE_document R f folder = Ok data ->
  succeeds (APS_CHINE.parse_xml_try R f folder)
  = succeeds (label_text data) && succeeds (news_lines data)
  /\ forall d,
       APS_CHINE.parse_xml_try R f folder = Ok d ->
       label_text data = Ok (label d).
Proof.
  unfold newsml_folder, APS_CHINE_document, APS_CHINE.parse_xml_try.
  intros Hn Hdoc. apply negb_true_iff in Hn. rewrite Hn.
  unfold rbind in *.
  destruct (f_data f) as [raw|e]; [|discriminate Hdoc].
  destruct (open_read R _ raw) as [text|e]; [|discriminate Hdoc].
  rewrite Hdoc. unfold label_text, news_lines, rbind.
  split.
  - split_subscripts; reflexivity.
  - intros d. split_subscripts; intros H; try discriminate H.
    inversion H; subst d. reflexivity.
Qed.

Lemma APS_CHINE_parse_xml_none R f folder e w :
  APS_CHINE.parse_xml_try R f folder = Raised e ->
  APS_CHINE.parse_xml R f folder w
  = (Ok None, logged ERROR "Unexpected error while parsing" (f_name f) w, []).
Proof.
  intros H. unfold APS_CHINE.parse_xml, try_except, bind, lift, logging, ret.
  rewrite H. reflexivity.
Qed.

(** C8, as the scripts have it. When the expression of the dialect finds
    no label, [extract_label] of ANSA and of APS_CHINE and [get_label] of
    MENA give [None], while [get_label] of MAP_FR and of AZERTAC_FR give
    the string ["0"]. The label has no part in whether a parser succeeds:
    the XML parsers succeed or fail alike whatever the name of the file,
    and the text parsers succeed exactly on the files of five lines or
    more that can be read. The one label that is not cut by an expression
    is that of the NewsML folders of APS_CHINE, the field [LabelText] of
    the document: there the parser succeeds exactly when the document has
    that field and the headline, the slug line and the content, the label
    is the field, and without the field [parse_xml] logs the error and
    returns [None]. *)
Theorem label_when_nothing_matches R :
  (forall name,
      re_search (ANSA.label_at R) name = None ->
      ANSA.extract_label R name = None)
  /\ (forall text,
        fst (span_digits R text) = [] -> MENA.get_label R text = None)
  /\ (forall name folder,
        APS_CHINE.match_counter R name = None ->
        APS_CHINE.extract_label R name folder = None)
  /\ (forall text,
        re_search (MAP_FR.label_at R) text = None ->
        MAP_FR.get_label R text = py "0")
  /\ (forall name,
        re_search (AZERTAC_FR.label_at R) name = None ->
        AZERTAC_FR.get_label R name = py "0")
  /\ (forall f name,
        succeeds (ANSA.parse_xml_try R (renamed name f))
        = succeeds (ANSA.parse_xml_try R f))
  /\ (forall f folder name,
        succeeds (APS_CHINE.parse_xml_try R (renamed name f) folder)
        = succeeds (APS_CHINE.parse_xml_try R f folder))
  /\ (forall raw name name',
        succeeds (AZERTAC_FR.parse_xml_try R raw name')
        = succeeds (AZERTAC_FR.parse_xml_try R raw name))
  /\ (forall raw name content,
        bytes_decode R (chardet_detect R raw) raw = Ok content ->
        succeeds (MAP_FR.parse_txt_try R raw name)
        = (5 <=? List.length (splitlines content))%nat)
  /\ (forall f raw text,
        f_data f = Ok raw ->
        open_read R (chardet_detect R raw) raw = Ok text ->
        succeeds (MENA.parse_txt R f)
        = (5 <=? List.length (readlines text))%nat)
  /\ (forall f folder data,
        newsml_folder folder = true ->
        APS_CHINE_document R f folder = Ok data ->
        succeeds (APS_CHINE.parse_xml_try R f folder)
        = succeeds (label_text data) && succeeds (news_lines data))
  /\ (forall f folder data d,
        newsml_folder folder = true ->
        APS_CHINE_document R f folder = Ok data ->
        APS_CHINE.parse_xml_try R f folder = Ok d ->
        label_text data = Ok (label d))
  /\ (forall f folder data e w,
        newsml_folder folder = true ->
        APS_CHINE_document R f folder = Ok data ->
        label_text data = Raised e ->
        APS_CHINE.parse_xml R f folder w
        = (Ok None,
           logged ERROR "Unexpected error while parsing" (f_name f) w, [])).
Proof.
  repeat match goal with |- _ /\ _ => split end.
  - intros name H. unfold ANSA.extract_label. rewrite H. reflexivity.
  - intros text H. unfold MENA.get_label. rewrite H. reflexivity.
  - intros name folder H. unfold APS_CHINE.extract_label. rewrite H.
    destruct (_ || _)%bool; reflexivity.
  - intros text H. unfold MAP_FR.get_label. rewrite H. reflexivity.
  - intros name H. unfold AZERTAC_FR.get_label. rewrite H. reflexivity.
  - intros. apply ANSA_parse_whatever_the_name.
  - intros. apply APS_CHINE_parse_whatever_the_name.
  - intros. apply AZERTAC_FR_parse_whatever_the_name.
  - intros. eapply MAP_FR_parse_succeeds_iff_five_lines; eassumption.
  - intros. eapply MENA_parse_succeeds_iff_five_lines; eassumption.
  - intros f folder data Hn Hdoc.
    apply (APS_CHINE_newsml_parse R f folder data Hn Hdoc).
  - intros f folder data d Hn Hdoc.
    apply (APS_CHINE_newsml_parse R f folder data Hn Hdoc).
  - intros f folder data e w Hn Hdoc Hl.
    pose proof (proj1 (APS_CHINE_newsml_parse R f folder data Hn Hdoc))
      as Hs.
    rewrite Hl in Hs. cbn [succeeds andb] in Hs.
    destruct (APS_CHINE.parse_xml_try R f folder) as [d|e'] eqn:Hp;
      [discriminate Hs|].
    eapply APS_CHINE_parse_xml_none. exact Hp.
Qed.

Lemma label_when_nothing_matches_witness :
  re_search (ANSA.label_at Sample.ascii_runtime) (py "flash.xml") = None
  /\ ANSA.extract_label Sample.ascii_runtime (py "flash.xml") = None.
Proof.
  split; [reflexivity|].
  apply (proj1 (label_when_nothing_matches Sample.ascii_runtime)).
  reflexivity.
Defined.

(** * The body of a plain-text dispatch *)

Lemma lstrip_decompose s : exists k, s = k ++ lstrip s.
Proof.
  induction s as [|c s [k IH]]; simpl.
  - exists []. reflexivity.
  - destruct (isspace c).
    + exists (c :: k). simpl. f_equal. exact IH.
    + exists []. reflexivity.
Qed.

Lemma lstrip_head s c t : lstrip s = c :: t -> isspace c = false.
Proof.
  induction s as [|x s IH]; simpl; [discriminate|].
  destruct (isspace x) eqn:Hx; [exact IH|].
  intros H. inversion H; subst. exact Hx.
Qed.

Lemma lstrip_keeps x c y :
  isspace c = false -> exists x', lstrip (x ++ c :: y) = x' ++ c :: y.
Proof.
  intros Hc. induction x as [|a x [x' IH]]; simpl.
  - rewrite Hc. exists []. reflexivity.
  - destruct (isspace a).
    + exists x'. exact IH.
    + exists (a :: x). reflexivity.
Qed.

Lemma rstrip_keeps x c y :
  isspace c = false -> exists y', rstrip (x ++ c :: y) = x ++ c :: y'.
Proof.
  intros Hc. unfold rstrip.
  rewrite rev_app_distr. simpl. rewrite <- app_assoc. simpl.
  destruct (lstrip_keeps (rev y) c (rev x) Hc) as [y' ->].
  exists (rev y'). rewrite rev_app_distr. simpl.
  rewrite rev_involutive, <- app_assoc. reflexivity.
Qed.

Lemma strip_ends a :
  strip a = []
  \/ exists c1 m1 m2 c2,
       strip a = c1 :: m1 /\ strip a = m2 ++ [c2]
       /\ isspace c1 = false /\ isspace c2 = false.
Proof.
  unfold strip, rstrip.
  destruct (lstrip (rev (lstrip a))) as [|c2 v'] eqn:Hv; [left; reflexivity|].
  right. pose proof (lstrip_head _ _ _ Hv) as Hc2.
  destruct (lstrip_decompose (rev (lstrip a))) as [k Hk].
  rewrite Hv in Hk.
  assert (Hu : lstrip a = rev (c2 :: v') ++ rev k).
  { rewrite <- rev_app_distr, <- Hk, rev_involutive. reflexivity. }
  destruct (rev (c2 :: v')) as [|c1 m1] eqn:Hr.
  { apply (f_equal (@List.length N)) in Hr. rewrite length_rev in Hr.
    discriminate. }
  exists c1, m1, (rev v'), c2. repeat split.
  - simpl in Hr. symmetry. exact Hr.
  - simpl in Hu. eapply lstrip_head; exact Hu.
  - exact Hc2.
Qed.

Lemma strip_occurs_in_self a : occurs_in (strip a) a.
Proof.
  unfold strip, rstrip.
  destruct (lstrip_decompose a) as [k1 H1].
  destruct (lstrip_decompose (rev (lstrip a))) as [k2 H2].
  exists k1, (rev k2).
  rewrite <- rev_app_distr, <- H2, rev_involutive. exact H1.
Qed.

Lemma occurs_in_trans a b c : occurs_in a b -> occurs_in b c -> occurs_in a c.
Proof.
  intros [p1 [s1 ->]] [p2 [s2 ->]].
  exists (p2 ++ p1), (s1 ++ s2). rewrite <- !app_assoc. reflexivity.
Qed.

Lemma occurs_in_strip a b : occurs_in a b -> occurs_in (strip a) (strip b).
Proof.
  intros Hab.
  pose proof (occurs_in_trans _ _ _ (strip_occurs_in_self a) Hab) as Hsb.
  destruct (strip_ends a) as [->|[c1 [m1 [m2 [c2 [H1 [H2 [Hc1 Hc2]]]]]]]].
  - exists [], (strip b). reflexivity.
  - destruct Hsb as [p [s ->]].
    unfold strip at 2. rewrite H1. simpl.
    destruct (lstrip_keeps p c1 (m1 ++ s) Hc1) as [p' ->].
    change (c1 :: m1 ++ s) with ((c1 :: m1) ++ s).
    rewrite <- H1, H2, <- app_assoc. simpl.
    rewrite app_assoc.
    destruct (rstrip_keeps (p' ++ m2) c2 s Hc2) as [s' ->].
    exists p', s'. rewrite <- !app_assoc. reflexivity.
Qed.

Lemma occurs_in_clean cls a b :
  occurs_in a b -> occurs_in (re_sub_class cls a) (re_sub_class cls b).
Proof.
  intros [p [s ->]]. rewrite !re_sub_class_app. eexists _, _. reflexivity.
Qed.

Lemma occurs_in_join sep lines :
  forall i l, nth_error lines i = Some l -> occurs_in l (join sep lines).
Proof.
  induction lines as [|p rest IH]; intros i l Hn; [destruct i; discriminate|].
  destruct i as [|i]; simpl in Hn.
  - inversion Hn; subst. destruct rest as [|q rest']; simpl.
    + exists [], []. rewrite app_nil_r. reflexivity.
    + exists [], (sep ++ join sep (q :: rest')). reflexivity.
  - destruct rest as [|q rest']; [destruct i; discriminate|].
    destruct (IH i l Hn) as [b [a Ha]].
    change (join sep (p :: q :: rest')) with (p ++ sep ++ join sep (q :: rest')).
    rewrite Ha. exists (p ++ sep ++ b), a. rewrite <- !app_assoc. reflexivity.
Qed.

Lemma join_nil_cons p rest : join [] (p :: rest) = p ++ join [] rest.
Proof. destruct rest; simpl; [rewrite app_nil_r|]; reflexivity. Qed.

(** The lines [readlines] gives, put together again, are the text. *)
Lemma join_keepends_from s : forall cur,
  join [] (keepends_from cur s) = rev cur ++ s.
Proof.
  induction s as [|c s IH]; intros cur; simpl.
  - destruct cur; simpl; rewrite ?app_nil_r; reflexivity.
  - destruct (c =? 10)%N.
    + rewrite join_nil_cons, IH. simpl. rewrite <- app_assoc. reflexivity.
    + rewrite IH. simpl. rewrite <- app_assoc. reflexivity.
Qed.

Lemma getitem_nth_error {A} (xs : list A) i x :
  getitem xs i = Ok x -> nth_error xs i = Some x.
Proof.
  unfold getitem. destruct (nth_error xs i); intros H; inversion H.
  reflexivity.
Qed.

Lemma both_text_parsers_keep_the_header :
  ~ (MENA_leaves_header_out \/ MAP_FR_leaves_header_out).
Proof.
  intros [H|H].
  - pose (f := Sample.plain_file "d1.txt" 100 Sample.dispatch).
    pose (text := Sample.text_of Sample.dispatch).
    assert (Hraw : f_data f = Ok text) by reflexivity.
    assert (Htext : open_read Sample.ascii_runtime
                      (chardet_detect Sample.ascii_runtime text) text
                    = Ok text) by (vm_compute; reflexivity).
    assert (Hdiff :
              match MENA.parse_txt Sample.ascii_runtime f with
              | Ok d =>
                  match full_text d with
                  | VStr ft => str_eqb ft (MENA_text_after_header text)
                  | _ => true
                  end
              | Raised _ => true
              end = false) by (vm_compute; reflexivity).
    destruct (MENA.parse_txt Sample.ascii_runtime f) as [d|e] eqn:Hp;
      [|discriminate Hdiff].
    rewrite (H _ _ _ _ _ Hraw Htext Hp), str_eqb_refl in Hdiff.
    discriminate Hdiff.
  - pose (raw := Sample.text_of Sample.map_dispatch).
    assert (Hd : bytes_decode Sample.ascii_runtime
                   (chardet_detect Sample.ascii_runtime raw) raw
                 = Ok raw) by (vm_compute; reflexivity).
    assert (Hdiff :
              match MAP_FR.parse_txt_try Sample.ascii_runtime raw
                      (py "m1.txt") with
              | Ok d =>
                  match full_text d with
                  | VStr ft => str_eqb ft (MAP_FR_text_after_header raw)
                  | _ => true
                  end
              | Raised _ => true
              end = false) by (vm_compute; reflexivity).
    destruct (MAP_FR.parse_txt_try Sample.ascii_runtime raw (py "m1.txt"))
      as [d|e] eqn:Hp; [|discriminate Hdiff].
    rewrite (H _ _ _ _ _ Hd Hp), str_eqb_refl in Hdiff.
    discriminate Hdiff.
Qed.

(** C9, as the scripts have it. Both plain-text parsers store the whole
    decoded text as [full_text], stripped and cleaned: that of MENA the
    text of the file, that of MAP_FR its lines joined by line feeds. The
    header lines are part of it: the slug, and for MAP_FR the title, occur
    in [full_text] as they are stored. *)
Theorem both_text_parsers_store_whole_text R :
  (forall f raw text d,
      f_data f = Ok raw ->
      open_read R (chardet_detect R raw) raw = Ok text ->
      MENA.parse_txt R f = Ok d ->
      exists s ft,
        slug d = VStr s /\ full_text d = VStr ft
        /\ ft = MENA.clean_text (strip text)
        /\ occurs_in s ft)
  /\ (forall raw name content d,
        bytes_decode R (chardet_detect R raw) raw = Ok content ->
        MAP_FR.parse_txt_try R raw name = Ok d ->
        exists s t ft,
          slug d = VStr s /\ title d = VStr t /\ full_text d = VStr ft
          /\ ft = MAP_FR.clean_text (strip (join [10%N] (splitlines content)))
          /\ occurs_in s ft /\ occurs_in t ft).
Proof.
  split.
  - intros f raw text d Hraw Htext Hp.
    unfold MENA.parse_txt, rbind in Hp. rewrite Hraw in Hp.
    cbv beta iota zeta in Hp. rewrite Htext in Hp.
    destruct (getitem (readlines text) 2) as [l2|] eqn:H2; [|discriminate].
    destruct (getitem (readlines text) 3) as [l3|] eqn:H3; [|discriminate].
    destruct (MENA.title_loop (skipn 4 (readlines text)) None [])
      as [line tl].
    destruct line as [line|]; [|discriminate].
    destruct (MENA.index (readlines text) line); [|discriminate].
    inversion Hp; subst; clear Hp. cbn [slug full_text].
    assert (Hjoin : join [] (readlines text) = text)
      by (unfold readlines; rewrite join_keepends_from; reflexivity).
    eexists _, _. split; [reflexivity|]. split; [reflexivity|].
    split; [rewrite Hjoin; reflexivity|].
    unfold MENA.clean_text. apply occurs_in_clean, occurs_in_strip.
    eapply occurs_in_join, getitem_nth_error, H3.
  - intros raw name content d Hd Hp.
    unfold MAP_FR.parse_txt_try, rbind in Hp. rewrite Hd in Hp.
    cbv beta iota zeta in Hp.
    destruct (getitem (splitlines content) 1) as [l1|] eqn:H1; [|discriminate].
    destruct (getitem (splitlines content) 3) as [l3|] eqn:H3; [|discriminate].
    destruct (getitem (splitlines content) 4) as [l4|] eqn:H4; [|discriminate].
    inversion Hp; subst; clear Hp. cbn [slug title full_text].
    eexists _, _, _. split; [reflexivity|]. split; [reflexivity|].
    split; [reflexivity|]. split; [reflexivity|].
    split; unfold MAP_FR.clean_text; apply occurs_in_clean, occurs_in_strip;
      eapply occurs_in_join, getitem_nth_error; eassumption.
Qed.

Lemma both_text_parsers_store_whole_text_witness :
  bytes_decode Sample.ascii_runtime
    (chardet_detect Sample.ascii_runtime (Sample.text_of Sample.map_dispatch))
    (Sample.text_of Sample.map_dispatch)
  = Ok (Sample.text_of Sample.map_dispatch)
  /\ occurs_in (py "Sport")
       (MAP_FR.clean_text
          (strip (join [10%N]
                    (splitlines (Sample.text_of Sample.map_dispatch))))).
Proof.
  pose (raw := Sample.text_of Sample.map_dispatch).
  assert (Hd : bytes_decode Sample.ascii_runtime
                 (chardet_detect Sample.ascii_runtime raw) raw
               = Ok raw) by (vm_compute; reflexivity).
  split; [exact Hd|].
  assert (Hslug :
            match MAP_FR.parse_txt_try Sample.ascii_runtime raw
                    (py "m1.txt") with
            | Ok d => slug d
            | Raised _ => VNone
            end = VStr (py "Sport")) by (vm_compute; reflexivity).
  destruct (MAP_FR.parse_txt_try Sample.ascii_runtime raw (py "m1.txt"))
    as [d|e] eqn:Hp; [|discriminate Hslug].
  destruct (proj2 (both_text_parsers_store_whole_text Sample.ascii_runtime)
              raw (py "m1.txt") raw d Hd Hp)
    as [s [t [ft [Hs [_ [_ [Hft [Hocc _]]]]]]]].
  rewrite Hslug in Hs. injection Hs as <-. subst ft. exact Hocc.
Defined.

(** * A pass repeated *)

Lemma has_file_name_app name new old :
  has_file_name name (new ++ old)
  = has_file_name name new || has_file_name name old.
Proof. unfold has_file_name. apply existsb_app. Qed.

Lemma not_after_max_app agency new old t :
  not_after (max_created_date agency old) t = true ->
  not_after (max_created_date agency (new ++ old)) t = true.
Proof.
  intros H. induction new as [|p new IH]; simpl; [exact H|].
  destruct (p_id_agency p =? agency)%Z; [|exact IH].
  destruct (max_created_date agency (new ++ old)) as [m|]; simpl in *.
  - apply Z.leb_le in IH. apply Z.leb_le. lia.
  - discriminate IH.
Qed.

Lemma handled_ledger_grows E agency last policy name accepted stamp
    content w r w' made :
  handled E agency last policy name accepted stamp content w r w' made ->
  exists new, processedfiles w' = new ++ processedfiles w.
Proof.
  intros H. handled_cases H.
  - exists []. apply Hsame.
  - exists []. rewrite Hw. reflexivity.
  - exists []. rewrite Hw. reflexivity.
  - exists []. apply Hsame.
  - eexists. exact Hrows.
  - exists []. apply Hsame.
  - exists []. rewrite Hw. reflexivity.
Qed.

Lemma writes_nothing_app made2 made1 :
  writes_nothing made2 -> writes_nothing made1 ->
  writes_nothing (made2 ++ made1).
Proof.
  intros H2 H1 c Hin.
  apply in_app_or in Hin as [Hin|Hin]; [apply H2 | apply H1]; exact Hin.
Qed.

Lemma read_in_app name made2 made1 :
  read_in name made2 \/ read_in name made1 -> read_in name (made2 ++ made1).
Proof.
  unfold read_in. rewrite !in_app_iff. tauto.
Qed.

Lemma handled_idle E agency last policy name accepted stamp content
    w r w' made :
  handled E agency last policy name accepted stamp content w r w' made ->
  eliminated last (processedfiles w) name accepted stamp content ->
  same_tables w w' /\ writes_nothing made.
Proof.
  intros H Hel. handled_cases H.
  - rewrite Hm. split; [exact Hsame | intros c []].
  - rewrite Hm, Hw. split; [split; reflexivity | intros c []].
  - rewrite Hm, Hw. split; [split; reflexivity|].
    intros c [<-|[]]. exact I.
  - rewrite Hm. split; [exact Hsame|].
    intros c Hin. apply in_app_or in Hin as [Hin|[<-|[]]]; [|exact I].
    destruct Hpre as [Hpre|Hpre]; [destruct Hpre|rewrite Hpre in Hin];
      simpl in Hin; intuition (subst; exact I).
  - exfalso. destruct Hel as [Ha|e Hs|t Hs Hn|Hl|e Hco]; try congruence.
  - rewrite Hm. split; [exact Hsame|]. intros c [<-|[]]. exact I.
  - rewrite Hm, Hw. split; [split; reflexivity | intros c []].
Qed.

Lemma file_result_eliminated E policy last ledger name accepted stamp
    content :
  eliminated last ledger name accepted stamp content ->
  (accepted = true -> guards_reads policy = false ->
   exists t, stamp = Ok t) ->
  lookup_returns E name = true ->
  file_result E policy last ledger name accepted stamp content = Ok tt.
Proof.
  intros Hel Hs Hk. unfold file_result. rewrite Hk.
  destruct accepted; [|reflexivity]. cbn [negb].
  destruct (guards_reads policy) eqn:Hg.
  - destruct stamp as [t|e]; [|reflexivity].
    destruct (not_after last t) eqn:Hn; [reflexivity|].
    destruct (has_file_name name ledger) eqn:Hl; [reflexivity|].
    destruct content as [p|e]; [|reflexivity].
    destruct Hel as [Ha|e Hs'|t' Hs' Hn'|Hl'|e Hco]; congruence.
  - destruct (Hs eq_refl eq_refl) as [t ->].
    destruct (not_after last t) eqn:Hn; [reflexivity|].
    destruct (has_file_name name ledger) eqn:Hl; [reflexivity|].
    destruct content as [p|e]; [|reflexivity].
    destruct Hel as [Ha|e Hs'|t' Hs' Hn'|Hl'|e Hco]; congruence.
Qed.

Lemma handled_unparsed_read E agency last policy name accepted stamp content
    w r w' made :
  handled E agency last policy name accepted stamp content w r w' made ->
  unparsed last (processedfiles w) name accepted stamp content ->
  lookup_returns E name = true ->
  read_in name made.
Proof.
  intros H [Ha [[t [Hs Hn]] [Hl [e Hco]]]] Hk.
  handled_cases H.
  - destruct Hskip as [Hskip|[_ [e' Hskip]]]; congruence.
  - congruence.
  - congruence.
  - rewrite Hm. apply read_in_app. left.
    destruct Hpre as [Hpre|Hpre]; [destruct Hpre|rewrite Hpre].
    + left. left; reflexivity.
    + left. left; reflexivity.
    + right. left; reflexivity.
  - congruence.
  - congruence.
  - congruence.
Qed.

Lemma same_tables_refl w : same_tables w w.
Proof. split; reflexivity. Qed.

Lemma same_tables_trans w1 w2 w3 :
  same_tables w1 w2 -> same_tables w2 w3 -> same_tables w1 w3.
Proof.
  intros [Ha1 Hp1] [Ha2 Hp2].
  split; [rewrite Ha2; exact Ha1 | rewrite Hp2; exact Hp1].
Qed.

Lemma logged_same l message subject w :
  same_tables w (logged l message subject w).
Proof. split; reflexivity. Qed.

(** A loop is a sequence of steps. *)
Lemma for_each_steps {C} (step : C -> world -> result unit -> world ->
                                 list call -> Prop)
    (body : C -> M unit) xs :
  (forall c w r w' made, body c w = (r, w', made) -> step c w r w' made) ->
  forall w r w' made,
    for_each xs body w = (r, w', made) -> steps step xs w r w' made.
Proof.
  intros Hb. induction xs as [|x xs IH]; intros w r w' made H.
  - inversion H; subst. constructor.
  - simpl in H. unfold bind in H.
    destruct (body x w) as [[[[]|e] w1] made1] eqn:Eb.
    + destruct (for_each xs body w1) as [[r2 w2] made2] eqn:Erest.
      inversion H; subst.
      eapply steps_next; [apply Hb, Eb | apply IH, Erest].
    + inversion H; subst. apply steps_raise. apply Hb, Eb.
Qed.

Lemma steps_impl {C} (step step' : C -> world -> result unit -> world ->
                                    list call -> Prop) xs w r w' made :
  (forall c w r w' made, In c xs -> step c w r w' made -> step' c w r w' made) ->
  steps step xs w r w' made -> steps step' xs w r w' made.
Proof.
  intros Himp H. induction H.
  - constructor.
  - eapply steps_next; [apply Himp; [left; reflexivity | eassumption]|].
    apply IHsteps. intros c ? ? ? ? Hin. apply Himp. right; exact Hin.
  - apply steps_raise. apply Himp; [left; reflexivity | assumption].
  - eapply steps_log; [eassumption|]. apply IHsteps. exact Himp.
Qed.

(** The loop of MAP_FR over the lines of the listing is a sequence of
    steps over the lines that have a name, once [file_name] is bound or
    the first line has a name. *)
Lemma MAP_FR_loop_steps R E agency last clock lines :
  forall file_name w r w' made,
    file_name <> None \/ named_first lines ->
    for_fold lines file_name (MAP_FR.process_line R E agency last clock) w
    = (r, w', made) ->
    steps
      (fun e =>
         handled E agency last Logs_all (MAP_FR.e_name e)
           (MAP_FR_accepted (MAP_FR.e_name e))
           (MAP_FR_stamp (clock (MAP_FR.e_name e)) e) (MAP_FR_content R e))
      (entries lines) w (Ok tt) w' made
    /\ exists file_name', r = Ok file_name'.
Proof.
  induction lines as [|line lines IH]; intros file_name w r w' made Hb H.
  - inversion H; subst. split; [constructor | eauto].
  - cbn [for_fold] in H. unfold bind at 1 in H.
    destruct line as [e|].
    + unfold MAP_FR.process_line at 1 in H. unfold bind at 1 in H.
      destruct (MAP_FR.process_detail R E agency last
                  (clock (MAP_FR.e_name e)) e w) as [[r1 w1] made1] eqn:Ed.
      destruct (MAP_FR_process_detail_returns R E agency last
                  (clock (MAP_FR.e_name e)) e w) as [[] [w1' [made1' Ed']]].
      rewrite Ed in Ed'. inversion Ed'; subst r1 w1' made1'.
      unfold ret at 1 in H. cbn [app] in H.
      destruct (for_fold lines (Some (MAP_FR.e_name e))
                  (MAP_FR.process_line R E agency last clock) w1)
        as [[r2 w2] made2] eqn:Erest.
      inversion H; subst r w' made.
      assert (Hbound : Some (MAP_FR.e_name e) <> None
                       \/ named_first lines) by (left; discriminate).
      destruct (IH (Some (MAP_FR.e_name e)) w1 r2 w2 made2 Hbound Erest)
        as [Hsteps Hr].
      split; [|exact Hr]. cbn [entries].
      eapply steps_next; [|exact Hsteps].
      apply MAP_FR_process_detail_handled, Ed.
    + destruct file_name as [name|];
        [|destruct Hb as [Hb|[]]; exfalso; apply Hb; reflexivity].
      unfold MAP_FR.process_line at 1 in H. rewrite bind_logging in H.
      unfold ret at 1 in H.
      destruct (for_fold lines (Some name)
                  (MAP_FR.process_line R E agency last clock)
                  (logged ERROR "Error processing file" name w))
        as [[r2 w2] made2] eqn:Erest.
      inversion H; subst r w' made.
      assert (Hbound : Some name <> None \/ named_first lines)
        by (left; discriminate).
      destruct (IH (Some name) _ r2 w2 made2 Hbound Erest)
        as [Hsteps Hr].
      split; [|exact Hr]. cbn [entries]. rewrite app_nil_r.
      eapply steps_log; [apply logged_same | exact Hsteps].
Qed.

Lemma In_entries e lines : In e (entries lines) <-> In (Some e) lines.
Proof.
  induction lines as [|[e'|] lines IH]; simpl; [tauto| |].
  - rewrite IH. split; intros [H|H]; auto; left; congruence.
  - rewrite IH. split; [auto | intros [H|H]; [discriminate | exact H]].
Qed.

Section Repeated.

Context (C : Type) (name : C -> str) (accepted : C -> bool)
  (stamp : C -> result Z) (content : C -> result parsed)
  (agency : Z) (policy : policy).

(** The first pass: a pass that completed, the store answering, leaves
    no file that a pass would write for. *)
Lemma first_pass E last xs w w' made :
  reliable E -> readable E ->
  steps
    (fun c =>
       handled E agency last policy (name c) (accepted c) (stamp c)
         (content c))
    xs w (Ok tt) w' made ->
  (exists new, processedfiles w' = new ++ processedfiles w)
  /\ forall c, In c xs ->
       eliminated last (processedfiles w') (name c) (accepted c)
         (stamp c) (content c)
       /\ (accepted c = true -> guards_reads policy = false ->
           exists t, stamp c = Ok t).
Proof.
  intros Hrel [Hlook _] H. remember (Ok tt) as r0 eqn:Hr0.
  induction H as [w|x xs w w1 made1 r w2 made2 Hh Hrest IH
                 |x xs w e w1 made1 Hh|xs w w1 r w2 made Hs Hrest IH].
  - split; [exists []; reflexivity | intros c []].
  - destruct (IH Hr0) as [[new2 Hg2] Hel2].
    destruct (handled_ledger_grows _ _ _ _ _ _ _ _ _ _ _ _ Hh) as [new1 Hg1].
    split.
    { exists (new2 ++ new1). rewrite Hg2, Hg1, app_assoc. reflexivity. }
    intros c [<-|Hin]; [|apply Hel2, Hin].
    split.
    + destruct (accepted x) eqn:Ha; [|apply by_extension; reflexivity].
      destruct (stamp x) as [t|e] eqn:Hs;
        [|eapply by_unread_date; reflexivity].
      destruct (not_after last t) eqn:Hn;
        [eapply by_watermark; [reflexivity | exact Hn]|].
      destruct (content x) as [p|e] eqn:Hc;
        [|eapply by_parse_failure; reflexivity].
      apply by_ledger. rewrite Hg2, has_file_name_app.
      apply orb_true_iff. right.
      destruct (has_file_name (name x) (processedfiles w)) eqn:Hl.
      * rewrite Hg1, has_file_name_app, Hl. apply orb_true_r.
      * destruct (handled_commits _ _ _ _ _ _ _ _ _ _ _ _ _ Hh eq_refl Hn
                    (Hlook _) Hl eq_refl Hrel) as [_ [_ Hrow]].
        rewrite Hrow. simpl. rewrite str_eqb_refl. reflexivity.
    + intros Ha Hg.
      apply handled_file_result in Hh. unfold file_result in Hh.
      rewrite Ha, Hg in Hh. cbn [negb] in Hh.
      destruct (stamp x) as [t|e]; [eauto | discriminate Hh].
  - discriminate Hr0.
  - destruct (IH Hr0) as [[new Hg] Hel]. split; [|exact Hel].
    exists new. rewrite Hg. f_equal. apply Hs.
Qed.

(** The second pass: when every file is one that a pass leaves, the pass
    writes nothing; when the store answers its queries it returns, and
    reads again the files that are new and not parsed. *)
Lemma second_pass E last xs ledger w r w' made :
  (forall c, In c xs ->
     eliminated last ledger (name c) (accepted c) (stamp c) (content c)
     /\ (accepted c = true -> guards_reads policy = false ->
         exists t, stamp c = Ok t)) ->
  processedfiles w = ledger ->
  steps
    (fun c =>
       handled E agency last policy (name c) (accepted c) (stamp c)
         (content c))
    xs w r w' made ->
  same_tables w w' /\ writes_nothing made
  /\ (readable E ->
      r = Ok tt
      /\ forall c, In c xs ->
           unparsed last ledger (name c) (accepted c) (stamp c) (content c) ->
           read_in (name c) made).
Proof.
  intros Hel Hw H.
  induction H as [w|x xs w w1 made1 r w2 made2 Hh Hrest IH
                 |x xs w e w1 made1 Hh|xs w w1 r w2 made Hs Hrest IH].
  - split; [apply same_tables_refl|]. split; [intros c []|].
    intros _. split; [reflexivity | intros c []].
  - destruct (Hel x (or_introl eq_refl)) as [Hx Hdx].
    rewrite <- Hw in Hx.
    destruct (handled_idle _ _ _ _ _ _ _ _ _ _ _ _ Hh Hx) as [Hs1 Hn1].
    assert (Hw1 : processedfiles w1 = ledger)
      by (rewrite (proj2 Hs1); exact Hw).
    destruct (IH (fun c Hin => Hel c (or_intror Hin)) Hw1)
      as [Hs2 [Hn2 Hread2]].
    split; [eapply same_tables_trans; eassumption|].
    split; [apply writes_nothing_app; assumption|].
    intros Hread. destruct (Hread2 Hread) as [Hr2 Hagain].
    split; [exact Hr2|].
    intros c [<-|Hin] Hun; apply read_in_app.
    + right. rewrite <- Hw in Hun.
      eapply handled_unparsed_read; [exact Hh | exact Hun|].
      apply (proj1 Hread).
    + left. apply Hagain; assumption.
  - destruct (Hel x (or_introl eq_refl)) as [Hx Hdx].
    rewrite <- Hw in Hx.
    destruct (handled_idle _ _ _ _ _ _ _ _ _ _ _ _ Hh Hx) as [Hs1 Hn1].
    split; [exact Hs1|]. split; [exact Hn1|].
    intros Hread. exfalso.
    apply handled_file_result in Hh.
    rewrite (file_result_eliminated E policy last _ _ _ _ _ Hx Hdx
               (proj1 Hread _)) in Hh.
    discriminate Hh.
  - assert (Hw1 : processedfiles w1 = ledger)
      by (rewrite (proj2 Hs); exact Hw).
    destruct (IH Hel Hw1) as [Hs2 [Hn2 Hread2]].
    split; [eapply same_tables_trans; eassumption|].
    split; assumption.
Qed.

(** What a completed pass leaves, seen with the watermark of the state it
    ends in. *)
Lemma first_pass_leaves E xs w0 w1 made :
  reliable E -> readable E ->
  steps
    (fun c =>
       handled E agency (max_created_date agency (processedfiles w0)) policy
         (name c) (accepted c) (stamp c) (content c))
    xs w0 (Ok tt) w1 made ->
  forall c, In c xs ->
    eliminated (max_created_date agency (processedfiles w1))
      (processedfiles w1) (name c) (accepted c) (stamp c) (content c)
    /\ (accepted c = true -> guards_reads policy = false ->
        exists t, stamp c = Ok t).
Proof.
  intros Hrel Hread H1 c Hin.
  destruct (first_pass _ _ _ _ _ _ Hrel Hread H1) as [[new Hg] Hel].
  destruct (Hel c Hin) as [Hc Hd]. split; [|exact Hd].
  destruct Hc as [Ha|e Hs|t Hs Hn|Hl|e Hc].
  - apply by_extension; exact Ha.
  - eapply by_unread_date; exact Hs.
  - eapply by_watermark; [exact Hs|]. rewrite Hg.
    apply not_after_max_app, Hn.
  - apply by_ledger; exact Hl.
  - eapply by_parse_failure; exact Hc.
Qed.

End Repeated.

Lemma watermark_then_inv {A} E agency (loop : option Z -> M A) w r w' made :
  watermark_then E agency loop w = (r, w', made) ->
  (watermark_returns E agency = true
   /\ exists made0,
        loop (max_created_date agency (processedfiles w)) w = (r, w', made0)
        /\ made
           = made0
             ++ [Get_last_processed_time agency
                   (Ok (max_created_date agency (processedfiles w)))])
  \/ (watermark_returns E agency = false
      /\ r = Raised DatabaseError /\ w' = w
      /\ made = [Get_last_processed_time agency (Raised DatabaseError)]).
Proof.
  unfold watermark_then. intros H.
  destruct (watermark_returns E agency).
  - left. split; [reflexivity|].
    destruct (loop (max_created_date agency (processedfiles w)) w)
      as [[r0 w0] made0].
    inversion H; subst. exists made0. split; reflexivity.
  - right. inversion H; subst. repeat split; reflexivity.
Qed.

Lemma try_except_logging_inv (m : M unit) l message subject w r w' made :
  try_except m (fun _ => logging l message subject) w = (r, w', made) ->
  r = Ok tt
  /\ exists ri wi, m w = (ri, wi, made) /\ same_tables wi w'.
Proof.
  unfold try_except, logging. intros H.
  destruct (m w) as [[[[]|e] wi] made0].
  - inversion H; subst. split; [reflexivity|].
    eexists _, _. split; [reflexivity | apply same_tables_refl].
  - inversion H; subst. split; [reflexivity|].
    eexists _, _. split; [reflexivity | apply logged_same].
Qed.

Lemma writes_nothing_watermark agency answer :
  writes_nothing [Get_last_processed_time agency answer].
Proof. intros c [<-|[]]. exact I. Qed.

Section Passes.

Context (C : Type) (name : C -> str) (accepted : C -> bool)
  (stamp : C -> result Z) (content : C -> result parsed)
  (agency : Z) (policy : policy).

Local Abbreviation step E last :=
  (fun c =>
     handled E agency last policy (name c) (accepted c) (stamp c) (content c)).

Local Abbreviation left_by w c :=
  (eliminated (max_created_date agency (processedfiles w))
     (processedfiles w) (name c) (accepted c) (stamp c) (content c)).

Local Abbreviation to_read_in w c :=
  (unparsed (max_created_date agency (processedfiles w))
     (processedfiles w) (name c) (accepted c) (stamp c) (content c)).

(** Two passes of an agency, each reading the watermark in the state it
    starts in and then taking the files one after the other. *)
Lemma loops_repeated E1 E2 xs (loop1 loop2 : option Z -> M unit)
    w0 w1i made1 w1 w1' r2 w2 made2 :
  reliable E1 -> readable E1 ->
  (forall last w r w' made,
      loop1 last w = (r, w', made) -> steps (step E1 last) xs w r w' made) ->
  (forall last w r w' made,
      loop2 last w = (r, w', made) -> steps (step E2 last) xs w r w' made) ->
  watermark_then E1 agency loop1 w0 = (Ok tt, w1i, made1) ->
  same_tables w1i w1 -> same_tables w1 w1' ->
  watermark_then E2 agency loop2 w1' = (r2, w2, made2) ->
  same_tables w1 w2 /\ writes_nothing made2
  /\ (forall c, In c xs -> left_by w1 c)
  /\ (readable E2 ->
      r2 = Ok tt
      /\ forall c, In c xs -> to_read_in w1 c -> read_in (name c) made2).
Proof.
  intros Hrel Hread Hl1 Hl2 H1 Hs1 Hs1' H2.
  apply watermark_then_inv in H1
    as [[_ [made0 [H1 _]]]|[_ [Hr _]]]; [|discriminate Hr].
  apply Hl1 in H1.
  assert (Hel : forall c, In c xs ->
            left_by w1 c
            /\ (accepted c = true -> guards_reads policy = false ->
                exists t, stamp c = Ok t)).
  { intros c Hin. rewrite (proj2 Hs1).
    eapply first_pass_leaves; eassumption. }
  apply watermark_then_inv in H2
    as [[Hk [made0' [H2 Hm]]]|[Hk [Hr [Hw Hm]]]].
  - apply Hl2 in H2. rewrite (proj2 Hs1') in H2.
    destruct (second_pass C name accepted stamp content agency policy E2
                _ xs _ w1' r2 w2 made0' Hel (proj2 Hs1') H2)
      as [Hs2 [Hn2 Hagain]].
    split; [eapply same_tables_trans; eassumption|].
    split; [rewrite Hm; apply writes_nothing_app;
            [exact Hn2 | apply writes_nothing_watermark]|].
    split; [intros c Hin; apply Hel, Hin|].
    intros Hread2. destruct (Hagain Hread2) as [Hr2 Hre].
    split; [exact Hr2|]. intros c Hin Hun. rewrite Hm.
    apply read_in_app. left. apply Hre; assumption.
  - subst w2 made2.
    split; [exact Hs1'|]. split; [apply writes_nothing_watermark|].
    split; [intros c Hin; apply Hel, Hin|].
    intros [_ Hwater]. rewrite Hwater in Hk. discriminate Hk.
Qed.

(** The same for the passes over a server, where what the pass raises is
    logged and no file makes the loop raise. *)
Lemma guarded_repeated E1 E2 xs (loop1 loop2 : option Z -> M unit)
    l1 message1 subject1 l2 message2 subject2
    w0 w1 made1 w1' r2 w2 made2 :
  reliable E1 -> readable E1 ->
  (forall last w r w' made,
      loop1 last w = (r, w', made) ->
      steps (step E1 last) xs w (Ok tt) w' made /\ r = Ok tt) ->
  (forall last w r w' made,
      loop2 last w = (r, w', made) ->
      steps (step E2 last) xs w (Ok tt) w' made /\ r = Ok tt) ->
  try_except (watermark_then E1 agency loop1)
    (fun _ => logging l1 message1 subject1) w0 = (Ok tt, w1, made1) ->
  same_tables w1 w1' ->
  try_except (watermark_then E2 agency loop2)
    (fun _ => logging l2 message2 subject2) w1' = (r2, w2, made2) ->
  same_tables w1 w2 /\ writes_nothing made2
  /\ (forall c, In c xs -> left_by w1 c)
  /\ (readable E2 ->
      r2 = Ok tt
      /\ forall c, In c xs -> to_read_in w1 c -> read_in (name c) made2).
Proof.
  intros Hrel Hread Hl1 Hl2 H1 Hs1' H2.
  apply try_except_logging_inv in H1 as [_ [r1i [w1i [H1 Hs1]]]].
  apply try_except_logging_inv in H2 as [Hr2 [r2i [w2i [H2 Hs2]]]].
  assert (Hr1 : r1i = Ok tt).
  { pose proof H1 as H1'.
    apply watermark_then_inv in H1'
      as [[_ [made0 [H1' _]]]|[Hk _]].
    - apply Hl1 in H1'. apply H1'.
    - rewrite (proj2 Hread) in Hk. discriminate Hk. }
  subst r1i.
  destruct (loops_repeated E1 E2 xs loop1 loop2 w0 w1i made1 w1 w1'
              r2i w2i made2 Hrel Hread
              (fun last w r w' made H =>
                 match Hl1 last w r w' made H with
                 | conj Hst Hr => eq_ind_r (fun r => steps _ xs w r w' made)
                                    Hst Hr
                 end)
              (fun last w r w' made H =>
                 match Hl2 last w r w' made H with
                 | conj Hst Hr => eq_ind_r (fun r => steps _ xs w r w' made)
                                    Hst Hr
                 end)
              H1 Hs1 Hs1' H2) as [Hs [Hn [Hel Hagain]]].
  split; [eapply same_tables_trans; eassumption|].
  split; [exact Hn|]. split; [exact Hel|].
  intros Hread2. split; [exact Hr2 | apply (Hagain Hread2)].
Qed.

End Passes.

Lemma bind_lift_raised {A B} e (k : A -> M B) w :
  bind (lift (Raised e)) k w = (Raised e, w, []).
Proof. reflexivity. Qed.

Lemma ANSA_pass_repeated R agency d :
  second_pass_idle
    (fun E => ANSA.main_folder R E agency d)
    (fun E => ANSA.main_folder R E agency d)
    (fun w1 =>
       forall files f, listdir d = Ok files -> In f files ->
         eliminated (max_created_date agency (processedfiles w1))
           (processedfiles w1) (f_name f) (ANSA_accepted (f_name f))
           (getmtime d (f_name f)) (ANSA.parse_xml_try R f))
    (fun w1 made2 =>
       forall files f, listdir d = Ok files -> In f files ->
         unparsed (max_created_date agency (processedfiles w1))
           (processedfiles w1) (f_name f) (ANSA_accepted (f_name f))
           (getmtime d (f_name f)) (ANSA.parse_xml_try R f) ->
         read_in (f_name f) made2).
Proof.
  intros E1 E2 w0 w1 made1 r2 w2 made2 Hrel Hread H1 H2.
  destruct (listdir d) as [files|e] eqn:Hl;
    [|unfold ANSA.main_folder in H1; rewrite Hl, bind_lift_raised in H1;
      discriminate H1].
  rewrite (ANSA_main_folder_is_loop R E1 agency d files w0 Hl) in H1.
  rewrite (ANSA_main_folder_is_loop R E2 agency d files w1 Hl) in H2.
  destruct (loops_repeated file f_name (fun f => ANSA_accepted (f_name f))
              (fun f => getmtime d (f_name f)) (ANSA.parse_xml_try R)
              agency Raises_again E1 E2 (sorted_reverse files) _ _
              w0 w1 made1 w1 w1 r2 w2 made2 Hrel Hread
              (fun last =>
                 for_each_steps _ _ _
                   (ANSA_main_file_handled R E1 agency last d))
              (fun last =>
                 for_each_steps _ _ _
                   (ANSA_main_file_handled R E2 agency last d))
              H1 (same_tables_refl _) (same_tables_refl _) H2)
    as [Hs [Hn [Hel Hagain]]].
  split; [exact Hs|]. split; [exact Hn|]. split.
  - intros files' f Heq Hin. inversion Heq; subst files'.
    apply Hel, In_sorted_reverse, Hin.
  - intros Hread2. destruct (Hagain Hread2) as [Hr2 Hre].
    split; [exact Hr2|]. intros files' f Heq Hin. inversion Heq; subst files'.
    apply Hre, In_sorted_reverse, Hin.
Qed.

Lemma MENA_pass_repeated R agency d :
  second_pass_idle
    (fun E => MENA.main_folder R E agency d)
    (fun E => MENA.main_folder R E agency d)
    (fun w1 =>
       forall files f, listdir d = Ok files -> In f files ->
         eliminated (max_created_date agency (processedfiles w1))
           (processedfiles w1) (f_name f) true
           (getmtime d (f_name f)) (MENA.parse_txt R f))
    (fun w1 made2 =>
       forall files f, listdir d = Ok files -> In f files ->
         unparsed (max_created_date agency (processedfiles w1))
           (processedfiles w1) (f_name f) true
           (getmtime d (f_name f)) (MENA.parse_txt R f) ->
         read_in (f_name f) made2).
Proof.
  intros E1 E2 w0 w1 made1 r2 w2 made2 Hrel Hread H1 H2.
  destruct (listdir d) as [files|e] eqn:Hl;
    [|unfold MENA.main_folder in H1; rewrite Hl, bind_lift_raised in H1;
      discriminate H1].
  rewrite (MENA_main_folder_is_loop R E1 agency d files w0 Hl) in H1.
  rewrite (MENA_main_folder_is_loop R E2 agency d files w1 Hl) in H2.
  destruct (loops_repeated file f_name (fun _ => true)
              (fun f => getmtime d (f_name f)) (MENA.parse_txt R)
              agency Raises_again E1 E2 (sorted_reverse files) _ _
              w0 w1 made1 w1 w1 r2 w2 made2 Hrel Hread
              (fun last =>
                 for_each_steps _ _ _
                   (MENA_main_file_handled R E1 agency last d))
              (fun last =>
                 for_each_steps _ _ _
                   (MENA_main_file_handled R E2 agency last d))
              H1 (same_tables_refl _) (same_tables_refl _) H2)
    as [Hs [Hn [Hel Hagain]]].
  split; [exact Hs|]. split; [exact Hn|]. split.
  - intros files' f Heq Hin. inversion Heq; subst files'.
    apply Hel, In_sorted_reverse, Hin.
  - intros Hread2. destruct (Hagain Hread2) as [Hr2 Hre].
    split; [exact Hr2|]. intros files' f Heq Hin. inversion Heq; subst files'.
    apply Hre, In_sorted_reverse, Hin.
Qed.

Lemma APS_CHINE_pass_repeated R folder agency d :
  second_pass_idle
    (fun E => APS_CHINE.main_folder R E folder agency d)
    (fun E => APS_CHINE.main_folder R E folder agency d)
    (fun w1 =>
       forall files f, listdir d = Ok files -> In f files ->
         eliminated (max_created_date agency (processedfiles w1))
           (processedfiles w1) (f_name f) true
           (getmtime d (f_name f)) (APS_CHINE.parse_xml_try R f folder))
    (fun w1 made2 =>
       forall files f, listdir d = Ok files -> In f files ->
         unparsed (max_created_date agency (processedfiles w1))
           (processedfiles w1) (f_name f) true
           (getmtime d (f_name f)) (APS_CHINE.parse_xml_try R f folder) ->
         read_in (f_name f) made2).
Proof.
  intros E1 E2 w0 w1 made1 r2 w2 made2 Hrel Hread H1 H2.
  destruct (listdir d) as [files|e] eqn:Hl;
    [|unfold APS_CHINE.main_folder in H1;
      rewrite Hl, bind_lift_raised in H1; discriminate H1].
  rewrite (APS_CHINE_main_folder_is_loop R E1 folder agency d files w0 Hl)
    in H1.
  rewrite (APS_CHINE_main_folder_is_loop R E2 folder agency d files w1 Hl)
    in H2.
  destruct (loops_repeated file f_name (fun _ => true)
              (fun f => getmtime d (f_name f))
              (fun f => APS_CHINE.parse_xml_try R f folder)
              agency Logs_writes E1 E2 (sorted_reverse files) _ _
              w0 w1 made1 w1 w1 r2 w2 made2 Hrel Hread
              (fun last =>
                 for_each_steps _ _ _
                   (APS_CHINE_main_file_handled R E1 folder agency last d))
              (fun last =>
                 for_each_steps _ _ _
                   (APS_CHINE_main_file_handled R E2 folder agency last d))
              H1 (same_tables_refl _) (same_tables_refl _) H2)
    as [Hs [Hn [Hel Hagain]]].
  split; [exact Hs|]. split; [exact Hn|]. split.
  - intros files' f Heq Hin. inversion Heq; subst files'.
    apply Hel, In_sorted_reverse, Hin.
  - intros Hread2. destruct (Hagain Hread2) as [Hr2 Hre].
    split; [exact Hr2|]. intros files' f Heq Hin. inversion Heq; subst files'.
    apply Hre, In_sorted_reverse, Hin.
Qed.

(** A pass that does not reach its server, gets no listing, or gets one
    that starts with a line without fields, logs that and is over. *)
Lemma MAP_FR_pass_without_listing R E server clock agency w r w' made :
  (forall lines,
      MAP_FR.ftp_login server = Ok tt ->
      MAP_FR.ftp_list server = Ok lines -> ~ named_first lines) ->
  MAP_FR.process_mapl_from_ftp R E server clock agency w = (r, w', made) ->
  r = Ok tt /\ same_tables w w' /\ writes_nothing made.
Proof.
  intros Hno H.
  unfold MAP_FR.process_mapl_from_ftp in H.
  apply try_except_logging_inv in H as [Hr [ri [wi [H Hs]]]].
  split; [exact Hr|].
  destruct (MAP_FR.ftp_login server) as [[]|e] eqn:Hlogin.
  - rewrite bind_lift_ok, bind_logging, bind_get_last_processed_time in H.
    apply watermark_then_inv in H
      as [[_ [made0 [H ->]]]|[_ [_ [-> ->]]]].
    + destruct (MAP_FR.ftp_list server) as [[|[e|] lines]|e] eqn:Hlist.
      * exfalso. apply (Hno [] eq_refl eq_refl). exact I.
      * exfalso. apply (Hno _ eq_refl eq_refl). exact I.
      * rewrite bind_lift_ok in H. inversion H; subst.
        split; [apply (same_tables_trans _ _ _ (logged_same _ _ _ _) Hs)|].
        apply writes_nothing_watermark.
      * rewrite bind_lift_raised in H. inversion H; subst.
        split; [apply (same_tables_trans _ _ _ (logged_same _ _ _ _) Hs)|].
        apply writes_nothing_watermark.
    + split; [apply (same_tables_trans _ _ _ (logged_same _ _ _ _) Hs)|].
      apply writes_nothing_watermark.
  - rewrite bind_lift_raised in H. inversion H; subst.
    split; [exact Hs | intros c []].
Qed.

Lemma AZERTAC_FR_pass_without_listing R E server agency w r w' made :
  (forall files,
      AZERTAC_FR.sftp_connect server = Ok tt ->
      AZERTAC_FR.sftp_chdir server = Ok tt ->
      AZERTAC_FR.sftp_listdir_attr server <> Ok files) ->
  AZERTAC_FR.process_azertacFr_from_sftp R E server agency w
  = (r, w', made) ->
  r = Ok tt /\ same_tables w w' /\ writes_nothing made.
Proof.
  intros Hno H.
  unfold AZERTAC_FR.process_azertacFr_from_sftp in H.
  apply try_except_logging_inv in H as [Hr [ri [wi [H Hs]]]].
  split; [exact Hr|].
  destruct (AZERTAC_FR.sftp_connect server) as [[]|e] eqn:Hconnect.
  - rewrite bind_lift_ok, bind_logging in H.
    destruct (AZERTAC_FR.sftp_chdir server) as [[]|e] eqn:Hchdir.
    + rewrite bind_lift_ok, bind_get_last_processed_time in H.
      apply watermark_then_inv in H
        as [[_ [made0 [H ->]]]|[_ [_ [-> ->]]]].
      * destruct (AZERTAC_FR.sftp_listdir_attr server) as [files|e] eqn:Hlist.
        -- exfalso. apply (Hno files); reflexivity.
        -- rewrite bind_lift_raised in H. inversion H; subst.
           split;
             [apply (same_tables_trans _ _ _ (logged_same _ _ _ _) Hs)|].
           apply writes_nothing_watermark.
      * split; [apply (same_tables_trans _ _ _ (logged_same _ _ _ _) Hs)|].
        apply writes_nothing_watermark.
    + rewrite bind_lift_raised in H. inversion H; subst.
      split; [apply (same_tables_trans _ _ _ (logged_same _ _ _ _) Hs)|].
      intros c [].
  - rewrite bind_lift_raised in H. inversion H; subst.
    split; [exact Hs | intros c []].
Qed.

(** The loop of MAP_FR over a listing whose first line has a name. *)
Lemma MAP_FR_loop_is_steps R E agency clock lines last w r w' made :
  named_first lines ->
  (for_fold lines None (MAP_FR.process_line R E agency last clock) ;;; ret tt)
    w = (r, w', made) ->
  steps
    (fun e =>
       handled E agency last Logs_all (MAP_FR.e_name e)
         (MAP_FR_accepted (MAP_FR.e_name e))
         (MAP_FR_stamp (clock (MAP_FR.e_name e)) e) (MAP_FR_content R e))
    (entries lines) w (Ok tt) w' made
  /\ r = Ok tt.
Proof.
  intros Hnamed H. unfold bind in H.
  destruct (for_fold lines None (MAP_FR.process_line R E agency last clock) w)
    as [[r0 w0] made0] eqn:Hf.
  destruct (MAP_FR_loop_steps R E agency last clock lines None w r0 w0 made0
              (or_intror Hnamed) Hf) as [Hst [name' ->]].
  unfold ret in H. cbn [app] in H. inversion H; subst.
  split; [exact Hst | reflexivity].
Qed.

Lemma AZERTAC_FR_loop_is_steps R E agency files last w r w' made :
  for_each files (AZERTAC_FR.process_file_attr R E agency last) w
  = (r, w', made) ->
  steps
    (fun f =>
       handled E agency last Logs_all (f_name f) true (Ok (st_mtime f))
         (AZERTAC_FR_content R f))
    files w (Ok tt) w' made
  /\ r = Ok tt.
Proof.
  intros H.
  assert (Hr : r = Ok tt).
  { destruct (returns_for_each files
                (AZERTAC_FR.process_file_attr R E agency last)
                (fun f _ => AZERTAC_FR_process_file_attr_returns R E agency
                              last f) w) as [[] [w0 [made0 H0]]].
    rewrite H in H0. inversion H0. reflexivity. }
  subst r. split; [|reflexivity].
  apply (for_each_steps _ _ _
           (AZERTAC_FR_process_file_attr_handled R E agency last)), H.
Qed.

Lemma MAP_FR_pass_repeated R server clock1 clock2 agency :
  (forall lines e,
      MAP_FR.ftp_list server = Ok lines -> In (Some e) lines ->
      MAP_FR_stamp (clock2 (MAP_FR.e_name e)) e
      = MAP_FR_stamp (clock1 (MAP_FR.e_name e)) e) ->
  second_pass_idle
    (fun E => MAP_FR.process_mapl_from_ftp R E server clock1 agency)
    (fun E => MAP_FR.process_mapl_from_ftp R E server clock2 agency)
    (fun w1 =>
       forall lines e,
         MAP_FR.ftp_login server = Ok tt ->
         MAP_FR.ftp_list server = Ok lines -> named_first lines ->
         In (Some e) lines ->
         eliminated (max_created_date agency (processedfiles w1))
           (processedfiles w1) (MAP_FR.e_name e)
           (MAP_FR_accepted (MAP_FR.e_name e))
           (MAP_FR_stamp (clock1 (MAP_FR.e_name e)) e) (MAP_FR_content R e))
    (fun w1 made2 =>
       forall lines e,
         MAP_FR.ftp_login server = Ok tt ->
         MAP_FR.ftp_list server = Ok lines -> named_first lines ->
         In (Some e) lines ->
         unparsed (max_created_date agency (processedfiles w1))
           (processedfiles w1) (MAP_FR.e_name e)
           (MAP_FR_accepted (MAP_FR.e_name e))
           (MAP_FR_stamp (clock1 (MAP_FR.e_name e)) e) (MAP_FR_content R e) ->
         read_in (MAP_FR.e_name e) made2).
Proof.
  intros Hclock E1 E2 w0 w1 made1 r2 w2 made2 Hrel Hread H1 H2.
  assert (Hlisted :
            (exists lines,
                MAP_FR.ftp_login server = Ok tt
                /\ MAP_FR.ftp_list server = Ok lines /\ named_first lines)
            \/ (forall lines,
                   MAP_FR.ftp_login server = Ok tt ->
                   MAP_FR.ftp_list server = Ok lines -> ~ named_first lines)).
  { destruct (MAP_FR.ftp_login server) as [[]|e];
      [|right; intros ? Hl; discriminate Hl].
    destruct (MAP_FR.ftp_list server) as [[|[e|] lines]|e].
    - left. exists []. repeat split.
    - left. eexists. repeat split.
    - right. intros lines' _ Heq. inversion Heq; subst. intros [].
    - right. intros lines' _ Heq. discriminate Heq. }
  destruct Hlisted as [[lines [Hlogin [Hlist Hnamed]]]|Hno].
  - rewrite (MAP_FR_pass_is_loop R E1 server clock1 agency lines w0
               Hlogin Hlist) in H1.
    rewrite (MAP_FR_pass_is_loop R E2 server clock2 agency lines w1
               Hlogin Hlist) in H2.
    destruct (guarded_repeated MAP_FR.ftp_entry MAP_FR.e_name
                (fun e => MAP_FR_accepted (MAP_FR.e_name e))
                (fun e => MAP_FR_stamp (clock1 (MAP_FR.e_name e)) e)
                (MAP_FR_content R) agency Logs_all E1 E2 (entries lines)
                _ _ _ _ _ _ _ _ _ w1 made1 _ r2 w2 made2 Hrel Hread
                (fun last w r w' made =>
                   MAP_FR_loop_is_steps R E1 agency clock1 lines last
                     w r w' made Hnamed)
                (fun last w r w' made H =>
                   match MAP_FR_loop_is_steps R E2 agency clock2 lines last
                           w r w' made Hnamed H with
                   | conj Hst Hr =>
                       conj
                         (steps_impl _ _ _ _ _ _ _
                            (fun c w r w' made Hin Hh =>
                               eq_ind _
                                 (fun s =>
                                    handled E2 agency last Logs_all
                                      (MAP_FR.e_name c)
                                      (MAP_FR_accepted (MAP_FR.e_name c)) s
                                      (MAP_FR_content R c) w r w' made)
                                 Hh _
                                 (Hclock lines c Hlist
                                    (proj1 (In_entries c lines) Hin)))
                            Hst)
                         Hr
                   end)
                H1 (logged_same _ _ _ _) H2) as [Hs [Hn [Hel Hagain]]].
    split; [exact Hs|]. split; [exact Hn|]. split.
    + intros lines' e _ Heq _ Hin. rewrite Hlist in Heq.
      inversion Heq; subst lines'. apply Hel, In_entries, Hin.
    + intros Hread2. destruct (Hagain Hread2) as [Hr2 Hre].
      split; [exact Hr2|]. intros lines' e _ Heq _ Hin.
      rewrite Hlist in Heq. inversion Heq; subst lines'.
      apply Hre, In_entries, Hin.
  - destruct (MAP_FR_pass_without_listing R E2 server clock2 agency
                w1 r2 w2 made2 Hno H2) as [Hr2 [Hs Hn]].
    split; [exact Hs|]. split; [exact Hn|]. split.
    + intros lines e Hlogin Hlist Hnamed. destruct (Hno _ Hlogin Hlist Hnamed).
    + intros _. split; [exact Hr2|].
      intros lines e Hlogin Hlist Hnamed. destruct (Hno _ Hlogin Hlist Hnamed).
Qed.

Lemma AZERTAC_FR_pass_repeated R server agency :
  second_pass_idle
    (fun E => AZERTAC_FR.process_azertacFr_from_sftp R E server agency)
    (fun E => AZERTAC_FR.process_azertacFr_from_sftp R E server agency)
    (fun w1 =>
       forall files f,
         AZERTAC_FR.sftp_connect server = Ok tt ->
         AZERTAC_FR.sftp_chdir server = Ok tt ->
         AZERTAC_FR.sftp_listdir_attr server = Ok files ->
         In f files ->
         eliminated (max_created_date agency (processedfiles w1))
           (processedfiles w1) (f_name f) true (Ok (st_mtime f))
           (AZERTAC_FR_content R f))
    (fun w1 made2 =>
       forall files f,
         AZERTAC_FR.sftp_connect server = Ok tt ->
         AZERTAC_FR.sftp_chdir server = Ok tt ->
         AZERTAC_FR.sftp_listdir_attr server = Ok files ->
         In f files ->
         unparsed (max_created_date agency (processedfiles w1))
           (processedfiles w1) (f_name f) true (Ok (st_mtime f))
           (AZERTAC_FR_content R f) ->
         read_in (f_name f) made2).
Proof.
  intros E1 E2 w0 w1 made1 r2 w2 made2 Hrel Hread H1 H2.
  assert (Hlisted :
            (exists files,
                AZERTAC_FR.sftp_connect server = Ok tt
                /\ AZERTAC_FR.sftp_chdir server = Ok tt
                /\ AZERTAC_FR.sftp_listdir_attr server = Ok files)
            \/ (forall files,
                   AZERTAC_FR.sftp_connect server = Ok tt ->
                   AZERTAC_FR.sftp_chdir server = Ok tt ->
                   AZERTAC_FR.sftp_listdir_attr server <> Ok files)).
  { destruct (AZERTAC_FR.sftp_connect server) as [[]|e];
      [|right; intros ? Hl; discriminate Hl].
    destruct (AZERTAC_FR.sftp_chdir server) as [[]|e];
      [|right; intros ? _ Hl; discriminate Hl].
    destruct (AZERTAC_FR.sftp_listdir_attr server) as [files|e].
    - left. exists files. repeat split.
    - right. intros files _ _ Heq. discriminate Heq. }
  destruct Hlisted as [[files [Hconnect [Hchdir Hlist]]]|Hno].
  - rewrite (AZERTAC_FR_pass_is_loop R E1 server agency files w0
               Hconnect Hchdir Hlist) in H1.
    rewrite (AZERTAC_FR_pass_is_loop R E2 server agency files w1
               Hconnect Hchdir Hlist) in H2.
    destruct (guarded_repeated file f_name (fun _ => true)
                (fun f => Ok (st_mtime f)) (AZERTAC_FR_content R)
                agency Logs_all E1 E2 (sorted_reverse files)
                _ _ _ _ _ _ _ _ _ w1 made1 _ r2 w2 made2 Hrel Hread
                (fun last =>
                   AZERTAC_FR_loop_is_steps R E1 agency
                     (sorted_reverse files) last)
                (fun last =>
                   AZERTAC_FR_loop_is_steps R E2 agency
                     (sorted_reverse files) last)
                H1 (logged_same _ _ _ _) H2) as [Hs [Hn [Hel Hagain]]].
    split; [exact Hs|]. split; [exact Hn|]. split.
    + intros files' f _ _ Heq Hin. rewrite Hlist in Heq.
      inversion Heq; subst files'. apply Hel, In_sorted_reverse, Hin.
    + intros Hread2. destruct (Hagain Hread2) as [Hr2 Hre].
      split; [exact Hr2|]. intros files' f _ _ Heq Hin.
      rewrite Hlist in Heq. inversion Heq; subst files'.
      apply Hre, In_sorted_reverse, Hin.
  - destruct (AZERTAC_FR_pass_without_listing R E2 server agency
                w1 r2 w2 made2 Hno H2) as [Hr2 [Hs Hn]].
    split; [exact Hs|]. split; [exact Hn|]. split.
    + intros files f Hconnect Hchdir Hlist.
      destruct (Hno _ Hconnect Hchdir Hlist).
    + intros _. split; [exact Hr2|].
      intros files f Hconnect Hchdir Hlist.
      destruct (Hno _ Hconnect Hchdir Hlist).
Qed.

Lemma unparsed_file_is_read_again :
  (let d :=
     Sample.folder_of
       [Sample.plain_file "short.txt" 300 ["MENA"; "-"]%string] in
   let first :=
     MENA.main_folder Sample.ascii_runtime Sample.always_done 9 d
       Sample.empty_world in
   let w1 := snd (fst first) in
   let second :=
     MENA.main_folder Sample.ascii_runtime Sample.always_done 9 d w1 in
   fst (fst first) = Ok tt
   /\ not_after (max_created_date 9 (processedfiles w1)) 300 = false
   /\ has_file_name (py "short.txt") (processedfiles w1) = false
   /\ snd second
      = [Parse (py "short.txt");
         Is_file_processed (py "short.txt") (Ok false);
         Get_last_processed_time 9 (Ok None)])
  /\ (let first :=
        MAP_FR.process_mapl_from_ftp Sample.ascii_runtime
          (Sample.insert_fails_for (py "m1.txt")) Sample.map_server
          Sample.noon 4 Sample.empty_world in
      let w1 := snd (fst first) in
      let second :=
        MAP_FR.process_mapl_from_ftp Sample.ascii_runtime Sample.always_done
          Sample.map_server Sample.noon 4 w1 in
      fst (fst first) = Ok tt
      /\ online2024_articles w1 = [] /\ processedfiles w1 = []
      /\ map a_file_name (online2024_articles (snd (fst second)))
         = [py "m1.txt"]
      /\ map p_file_name (processedfiles (snd (fst second)))
         = [py "m1.txt"])
  /\ (let first :=
        MAP_FR.process_mapl_from_ftp Sample.ascii_runtime Sample.always_done
          Sample.night_server Sample.before_midnight 4
          Sample.evening_world in
      let w1 := snd (fst first) in
      let second :=
        MAP_FR.process_mapl_from_ftp Sample.ascii_runtime Sample.always_done
          Sample.night_server Sample.after_midnight 4 w1 in
      fst (fst first) = Ok tt
      /\ snd first
         = [Get_last_processed_time 4
              (Ok (Some (MAP_FR.timestamp (Sample.at_time 2024 3 1 20 0))))]
      /\ online2024_articles w1 = []
      /\ map p_file_name (processedfiles w1) = [py "m0.txt"]
      /\ map a_file_name (online2024_articles (snd (fst second)))
         = [py "m1.txt"]
      /\ map p_file_name (processedfiles (snd (fst second)))
         = [py "m1.txt"; py "m0.txt"]).
Proof. vm_compute. repeat split. Qed.

(** C1, as the scripts have it. After a pass of an agency that completed,
    the store having answered every query and every write, a second pass
    over the same files, however the store answers then, adds no row to
    [online2024_articles] nor to [processedfiles] and calls neither
    [insert_into_db] nor [mark_file_as_processed]: each file is left for
    its extension, for a date that cannot be read, by the watermark, by the
    ledger, or because it cannot be read or parsed. When the store answers
    the queries of the second pass, that pass returns, and every file that
    passes the extension filter, is dated after the watermark, is not in
    the ledger and cannot be read or parsed is fetched or parsed again.
    For MAP_FR this holds when the two passes, each with its own clock,
    infer the same date for every named line of the listing, and the
    files are those of a listing whose first line has a name. *)
Theorem second_pass_adds_nothing R :
  (forall agency d,
      second_pass_idle
        (fun E => ANSA.main_folder R E agency d)
        (fun E => ANSA.main_folder R E agency d)
        (fun w1 =>
           forall files f, listdir d = Ok files -> In f files ->
             eliminated (max_created_date agency (processedfiles w1))
               (processedfiles w1) (f_name f) (ANSA_accepted (f_name f))
               (getmtime d (f_name f)) (ANSA.parse_xml_try R f))
        (fun w1 made2 =>
           forall files f, listdir d = Ok files -> In f files ->
             unparsed (max_created_date agency (processedfiles w1))
               (processedfiles w1) (f_name f) (ANSA_accepted (f_name f))
               (getmtime d (f_name f)) (ANSA.parse_xml_try R f) ->
             read_in (f_name f) made2))
  /\ (forall agency d,
        second_pass_idle
          (fun E => MENA.main_folder R E agency d)
          (fun E => MENA.main_folder R E agency d)
          (fun w1 =>
             forall files f, listdir d = Ok files -> In f files ->
               eliminated (max_created_date agency (processedfiles w1))
                 (processedfiles w1) (f_name f) true
                 (getmtime d (f_name f)) (MENA.parse_txt R f))
          (fun w1 made2 =>
             forall files f, listdir d = Ok files -> In f files ->
               unparsed (max_created_date agency (processedfiles w1))
                 (processedfiles w1) (f_name f) true
                 (getmtime d (f_name f)) (MENA.parse_txt R f) ->
               read_in (f_name f) made2))
  /\ (forall folder agency d,
        second_pass_idle
          (fun E => APS_CHINE.main_folder R E folder agency d)
          (fun E => APS_CHINE.main_folder R E folder agency d)
          (fun w1 =>
             forall files f, listdir d = Ok files -> In f files ->
               eliminated (max_created_date agency (processedfiles w1))
                 (processedfiles w1) (f_name f) true
                 (getmtime d (f_name f))
                 (APS_CHINE.parse_xml_try R f folder))
          (fun w1 made2 =>
             forall files f, listdir d = Ok files -> In f files ->
               unparsed (max_created_date agency (processedfiles w1))
                 (processedfiles w1) (f_name f) true
                 (getmtime d (f_name f))
                 (APS_CHINE.parse_xml_try R f folder) ->
               read_in (f_name f) made2))
  /\ (forall server clock1 clock2 agency,
        (forall lines e,
            MAP_FR.ftp_list server = Ok lines -> In (Some e) lines ->
            MAP_FR_stamp (clock2 (MAP_FR.e_name e)) e
            = MAP_FR_stamp (clock1 (MAP_FR.e_name e)) e) ->
        second_pass_idle
          (fun E => MAP_FR.process_mapl_from_ftp R E server clock1 agency)
          (fun E => MAP_FR.process_mapl_from_ftp R E server clock2 agency)
          (fun w1 =>
             forall lines e,
               MAP_FR.ftp_login server = Ok tt ->
               MAP_FR.ftp_list server = Ok lines -> named_first lines ->
               In (Some e) lines ->
               eliminated (max_created_date agency (processedfiles w1))
                 (processedfiles w1) (MAP_FR.e_name e)
                 (MAP_FR_accepted (MAP_FR.e_name e))
                 (MAP_FR_stamp (clock1 (MAP_FR.e_name e)) e)
                 (MAP_FR_content R e))
          (fun w1 made2 =>
             forall lines e,
               MAP_FR.ftp_login server = Ok tt ->
               MAP_FR.ftp_list server = Ok lines -> named_first lines ->
               In (Some e) lines ->
               unparsed (max_created_date agency (processedfiles w1))
                 (processedfiles w1) (MAP_FR.e_name e)
                 (MAP_FR_accepted (MAP_FR.e_name e))
                 (MAP_FR_stamp (clock1 (MAP_FR.e_name e)) e)
                 (MAP_FR_content R e) ->
               read_in (MAP_FR.e_name e) made2))
  /\ (forall server agency,
        second_pass_idle
          (fun E => AZERTAC_FR.process_azertacFr_from_sftp R E server agency)
          (fun E => AZERTAC_FR.process_azertacFr_from_sftp R E server agency)
          (fun w1 =>
             forall files f,
               AZERTAC_FR.sftp_connect server = Ok tt ->
               AZERTAC_FR.sftp_chdir server = Ok tt ->
               AZERTAC_FR.sftp_listdir_attr server = Ok files ->
               In f files ->
               eliminated (max_created_date agency (processedfiles w1))
                 (processedfiles w1) (f_name f) true (Ok (st_mtime f))
                 (AZERTAC_FR_content R f))
          (fun w1 made2 =>
             forall files f,
               AZERTAC_FR.sftp_connect server = Ok tt ->
               AZERTAC_FR.sftp_chdir server = Ok tt ->
               AZERTAC_FR.sftp_listdir_attr server = Ok files ->
               In f files ->
               unparsed (max_created_date agency (processedfiles w1))
                 (processedfiles w1) (f_name f) true (Ok (st_mtime f))
                 (AZERTAC_FR_content R f) ->
               read_in (f_name f) made2)).
Proof.
  split; [|split; [|split; [|split]]]; intros.
  - apply ANSA_pass_repeated.
  - apply MENA_pass_repeated.
  - apply APS_CHINE_pass_repeated.
  - apply MAP_FR_pass_repeated; assumption.
  - apply AZERTAC_FR_pass_repeated.
Qed.

Lemma second_pass_adds_nothing_witness :
  reliable Sample.always_done /\ readable Sample.always_done
  /\ (let d := Sample.folder_of Sample.mena_files in
      let first :=
        MENA.main_folder Sample.ascii_runtime Sample.always_done 9 d
          Sample.empty_world in
      let w1 := snd (fst first) in
      let second :=
        MENA.main_folder Sample.ascii_runtime
          (Sample.insert_fails_for (py "d1.txt")) 9 d w1 in
      fst (fst first) = Ok tt
      /\ List.length (online2024_articles w1) = 2%nat
      /\ same_tables w1 (snd (fst second))
      /\ writes_nothing (snd second)).
Proof.
  destruct always_done_answers as [Hrel Hread].
  split; [exact Hrel|]. split; [exact Hread|]. cbv zeta.
  assert (Hr1 : fst (fst (MENA.main_folder Sample.ascii_runtime
                            Sample.always_done 9
                            (Sample.folder_of Sample.mena_files)
                            Sample.empty_world)) = Ok tt)
    by (vm_compute; reflexivity).
  split; [exact Hr1|].
  split; [vm_compute; reflexivity|].
  destruct (MENA.main_folder Sample.ascii_runtime Sample.always_done 9
              (Sample.folder_of Sample.mena_files) Sample.empty_world)
    as [[r1 w1] made1] eqn:H1.
  cbn [fst snd] in Hr1 |- *. subst r1.
  destruct (MENA.main_folder Sample.ascii_runtime
              (Sample.insert_fails_for (py "d1.txt")) 9
              (Sample.folder_of Sample.mena_files) w1)
    as [[r2 w2] made2] eqn:H2.
  cbn [fst snd].
  destruct (proj1 (proj2 (second_pass_adds_nothing Sample.ascii_runtime))
              9%Z (Sample.folder_of Sample.mena_files)
              Sample.always_done (Sample.insert_fails_for (py "d1.txt"))
              Sample.empty_world w1 made1 r2 w2 made2 Hrel Hread H1 H2)
    as [Hs [Hn _]].
  split; [exact Hs | exact Hn].
Defined.

(** * Further properties of the scripts *)

(** ** The order of a pass *)

Lemma insert_by_mtime_perm x l : Permutation (x :: l) (insert_by_mtime x l).
Proof.
  induction l as [|y l IH]; simpl; [apply Permutation_refl|].
  destruct (st_mtime x <? st_mtime y)%Z; [|apply Permutation_refl].
  eapply perm_trans; [apply perm_swap|]. apply perm_skip, IH.
Qed.

Lemma insert_by_mtime_sorted x l :
  StronglySorted newer_first l -> StronglySorted newer_first (insert_by_mtime x l).
Proof.
  induction l as [|y l IH]; intros Hs; simpl.
  - constructor; constructor.
  - inversion Hs as [|? ? Hl Hy]; subst.
    destruct (st_mtime x <? st_mtime y)%Z eqn:Hlt.
    + apply Z.ltb_lt in Hlt. constructor; [apply IH, Hl|].
      eapply Permutation_Forall; [apply insert_by_mtime_perm|].
      constructor; [unfold newer_first; lia | exact Hy].
    + apply Z.ltb_ge in Hlt. constructor; [exact Hs|].
      constructor; [exact Hlt|].
      eapply Forall_impl; [|exact Hy].
      intros z Hz. unfold newer_first in *. lia.
Qed.

Lemma insert_by_mtime_modified_at t x l :
  modified_at t (insert_by_mtime x l) = modified_at t (x :: l).
Proof.
  unfold modified_at. induction l as [|y l IH]; [reflexivity|].
  simpl. destruct (st_mtime x <? st_mtime y)%Z eqn:Hlt; [|reflexivity].
  apply Z.ltb_lt in Hlt. simpl. simpl in IH. rewrite IH.
  destruct (st_mtime x =? t)%Z eqn:Hx; [|reflexivity].
  apply Z.eqb_eq in Hx.
  destruct (st_mtime y =? t)%Z eqn:Hy; [|reflexivity].
  apply Z.eqb_eq in Hy. lia.
Qed.

(** X1. The loop of a pass over a directory goes through the files of the
    listing, each once, the latest modified first, files modified at the
    same time in the order of the listing. *)
Theorem sorted_reverse_newest_first files :
  Permutation files (sorted_reverse files)
  /\ StronglySorted newer_first (sorted_reverse files)
  /\ forall t, modified_at t (sorted_reverse files) = modified_at t files.
Proof.
  unfold sorted_reverse. induction files as [|x l [Hp [Hs Hm]]]; simpl.
  - repeat split; constructor.
  - split; [|split].
    + eapply perm_trans; [apply perm_skip, Hp | apply insert_by_mtime_perm].
    + apply insert_by_mtime_sorted, Hs.
    + intros t. rewrite insert_by_mtime_modified_at.
      unfold modified_at in *. simpl. rewrite (Hm t). reflexivity.
Qed.

(** ** The watermark *)

Lemma max_created_date_none agency rows :
  max_created_date agency rows = None
  <-> forall p, In p rows -> p_id_agency p <> agency.
Proof.
  induction rows as [|r rows IH]; simpl.
  - split; [intros _ p [] | reflexivity].
  - destruct (p_id_agency r =? agency)%Z eqn:Ha.
    + apply Z.eqb_eq in Ha. split.
      * destruct (max_created_date agency rows); discriminate.
      * intros H. exfalso. apply (H r); [left; reflexivity | exact Ha].
    + apply Z.eqb_neq in Ha. rewrite IH. split.
      * intros H p [<-|Hin]; [exact Ha | apply H, Hin].
      * intros H p Hin. apply H. right; exact Hin.
Qed.

Lemma max_created_date_some agency rows m :
  max_created_date agency rows = Some m ->
  (exists p, In p rows /\ p_id_agency p = agency /\ p_created_date p = m)
  /\ forall p, In p rows -> p_id_agency p = agency ->
       (p_created_date p <= m)%Z.
Proof.
  revert m. induction rows as [|r rows IH]; simpl; intros m H; [discriminate|].
  destruct (p_id_agency r =? agency)%Z eqn:Ha.
  - apply Z.eqb_eq in Ha.
    destruct (max_created_date agency rows) as [m'|] eqn:Hm.
    + inversion H; subst m; clear H.
      destruct (IH m' eq_refl) as [[p [Hin [Hpa Hpd]]] Hle]. split.
      * destruct (Z.max_spec (p_created_date r) m') as [[_ Hmax]|[_ Hmax]];
          rewrite Hmax.
        -- exists p. auto.
        -- exists r. auto.
      * intros q [<-|Hq] Hqa; [lia|].
        specialize (Hle q Hq Hqa). lia.
    + inversion H; subst m; clear H. split.
      * exists r. auto.
      * intros q [<-|Hq] Hqa; [lia|].
        exfalso. apply (proj1 (max_created_date_none agency rows) Hm q Hq Hqa).
  - apply Z.eqb_neq in Ha.
    destruct (IH m H) as [[p [Hin [Hpa Hpd]]] Hle]. split.
    + exists p. auto.
    + intros q [<-|Hq] Hqa; [contradiction | apply Hle; assumption].
Qed.

(** X2. [get_last_processed_time] leaves the state as it is and is one
    call, recorded with its answer. When the store answers, the answer is
    [None] exactly when the ledger has no row of the agency; otherwise it
    is the date of one of the rows of the agency, which none of them
    exceeds. The rows of the other agencies have no part in it. When the
    store does not answer, the call raises. *)
Theorem get_last_processed_time_is_latest_of_agency E agency w :
  exists last,
    Store.get_last_processed_time E agency w
    = (select (watermark_returns E agency) last, w,
       [Get_last_processed_time agency
          (select (watermark_returns E agency) last)])
    /\ (watermark_returns E agency = true ->
        Store.get_last_processed_time E agency w
        = (Ok last, w, [Get_last_processed_time agency (Ok last)]))
    /\ (watermark_returns E agency = false ->
        Store.get_last_processed_time E agency w
        = (Raised DatabaseError, w,
           [Get_last_processed_time agency (Raised DatabaseError)]))
    /\ (last = None <->
        forall p, In p (processedfiles w) -> p_id_agency p <> agency)
    /\ forall m, last = Some m ->
         (exists p, In p (processedfiles w) /\ p_id_agency p = agency
                    /\ p_created_date p = m)
         /\ forall p, In p (processedfiles w) -> p_id_agency p = agency ->
              (p_created_date p <= m)%Z.
Proof.
  exists (max_created_date agency (processedfiles w)).
  unfold Store.get_last_processed_time.
  split; [reflexivity|].
  split; [intros ->; reflexivity|].
  split; [intros ->; reflexivity|]. split.
  - apply max_created_date_none.
  - intros m. apply max_created_date_some.
Qed.

(** ** What holds of every run *)

Section AnyScript.

Context (E : storage) (P : world -> world -> list call -> Prop)
  (HP : composable P).

Hypothesis handled_P :
  forall agency last policy name accepted stamp content w r w' made,
    handled E agency last policy name accepted stamp content w r w' made ->
    P w w' made.

(** A property that composes and holds of the body of every loop holds of
    every run of the five scripts. *)
Lemma script_run_respects R w r w' made :
  script_run R E w r w' made -> P w w' made.
Proof.
  intros H.
  destruct H as [fs w r w' made H | fs w r w' made H
                | fs w r w' made H | server clock w r w' made H
                | server w r w' made H]; revert w r w' made H;
    match goal with |- forall w r w' made, ?m w = _ -> _ =>
      change (respects P m) end.
  - unfold ANSA.main. apply (respects_bind _ HP).
    + apply (respects_for_fold _ HP). intros [folder id] s.
      unfold ANSA.main_agency.
      destruct (fs (py folder)); repeat respects_step HP.
      unfold ANSA.main_folder. repeat respects_step HP.
      apply (respects_for_each _ HP). intros ? _ ? ? ? ? H.
      eapply handled_P, ANSA_main_file_handled, H.
    + intros has. destruct (negb has); repeat respects_step HP.
  - unfold MENA.main. apply (respects_bind _ HP).
    + apply (respects_for_fold _ HP). intros [folder id] s.
      unfold MENA.main_agency.
      destruct (fs (py folder)); repeat respects_step HP.
      unfold MENA.main_folder. repeat respects_step HP.
      apply (respects_for_each _ HP). intros ? _ ? ? ? ? H.
      eapply handled_P, MENA_main_file_handled, H.
    + intros has. destruct (negb has); repeat respects_step HP.
  - unfold APS_CHINE.main. apply (respects_bind _ HP).
    + apply (respects_for_fold _ HP). intros [folder id] s.
      unfold APS_CHINE.main_agency.
      destruct (fs (py folder)); repeat respects_step HP.
      unfold APS_CHINE.main_folder. repeat respects_step HP.
      apply (respects_for_each _ HP). intros ? _ ? ? ? ? H.
      eapply handled_P, APS_CHINE_main_file_handled, H.
    + intros has. destruct (negb has); repeat respects_step HP.
  - unfold MAP_FR.main, MAP_FR.process_mapl_from_ftp.
    repeat respects_step HP.
    apply (respects_process_line _ HP). intros ? ? ? ? ? H.
    eapply handled_P, MAP_FR_process_detail_handled, H.
  - unfold AZERTAC_FR.main, AZERTAC_FR.process_azertacFr_from_sftp.
    repeat respects_step HP.
    apply (respects_for_each _ HP). intros ? _ ? ? ? ? H.
    eapply handled_P, AZERTAC_FR_process_file_attr_handled, H.
Qed.

End AnyScript.

Lemma grows_composable : composable grows.
Proof.
  split.
  - intros w w' [Ha Hp]. split; exists []; assumption.
  - intros w agency answer. split; exists []; reflexivity.
  - intros w1 w2 w3 m1 m2 [[a1 Ha1] [p1 Hp1]] [[a2 Ha2] [p2 Hp2]]. split.
    + exists (a2 ++ a1). rewrite Ha2, Ha1, app_assoc. reflexivity.
    + exists (p2 ++ p1). rewrite Hp2, Hp1, app_assoc. reflexivity.
Qed.

Lemma handled_grows E agency last policy name accepted stamp content
    w r w' made :
  handled E agency last policy name accepted stamp content w r w' made ->
  grows w w' made.
Proof.
  intros H. handled_cases H.
  - apply (comp_same grows_composable) in Hsame. rewrite Hm. exact Hsame.
  - rewrite Hw. split; exists []; reflexivity.
  - rewrite Hw. split; exists []; reflexivity.
  - split; exists []; apply Hsame.
  - split; eexists; eassumption.
  - split; exists []; apply Hsame.
  - rewrite Hw. split; exists []; reflexivity.
Qed.

(** X3. No run of the five scripts removes or changes a row: the two
    tables it leaves are those it found with new rows on top. So the
    watermark of an agency never goes back: after the run it is at least
    what it was before. *)
Theorem tables_grow_and_watermark_rises R E w r w' made :
  script_run R E w r w' made ->
  (exists new, online2024_articles w' = new ++ online2024_articles w)
  /\ (exists new, processedfiles w' = new ++ processedfiles w)
  /\ forall agency m,
       max_created_date agency (processedfiles w) = Some m ->
       exists m',
         max_created_date agency (processedfiles w') = Some m'
         /\ (m <= m')%Z.
Proof.
  intros Hrun.
  destruct (script_run_respects E grows grows_composable
              (handled_grows E) R w r w' made Hrun) as [Ha [new Hp]].
  split; [exact Ha|]. split; [exists new; exact Hp|].
  intros agency m Hm.
  assert (Hn : not_after (max_created_date agency (processedfiles w)) m = true)
    by (rewrite Hm; simpl; apply Z.leb_refl).
  apply (not_after_max_app agency new) in Hn. rewrite <- Hp in Hn.
  destruct (max_created_date agency (processedfiles w')) as [m'|];
    [|discriminate Hn].
  exists m'. split; [reflexivity|]. apply Z.leb_le. exact Hn.
Qed.

Lemma tables_grow_and_watermark_rises_witness :
  exists new,
    processedfiles
      (snd (fst (MENA.main Sample.ascii_runtime Sample.always_done
                   Sample.mena_depot Sample.empty_world)))
    = new ++ processedfiles Sample.empty_world.
Proof.
  destruct (MENA.main Sample.ascii_runtime Sample.always_done
              Sample.mena_depot Sample.empty_world)
    as [[r w'] made] eqn:Hrun.
  cbn [fst snd].
  exact (proj1 (proj2
           (tables_grow_and_watermark_rises Sample.ascii_runtime
              Sample.always_done Sample.empty_world r w' made
              (@run_MENA _ _ _ _ _ _ _ Hrun)))).
Defined.

Lemma has_file_name_In name rows :
  has_file_name name rows = true <-> In name (map p_file_name rows).
Proof.
  unfold has_file_name. rewrite existsb_exists, in_map_iff. split.
  - intros [p [Hin Heq]]. apply str_eqb_eq in Heq. exists p. auto.
  - intros [p [Heq Hin]]. exists p. split; [exact Hin|].
    apply str_eqb_eq. exact Heq.
Qed.

Lemma keeps_names_apart_composable : composable keeps_names_apart.
Proof.
  split.
  - intros w w' [_ Hp] H. rewrite Hp. exact H.
  - intros w agency answer H. exact H.
  - intros w1 w2 w3 m1 m2 H1 H2 H. apply H2, H1, H.
Qed.

Lemma handled_keeps_names_apart E agency last policy name accepted stamp
    content w r w' made :
  handled E agency last policy name accepted stamp content w r w' made ->
  keeps_names_apart w w' made.
Proof.
  intros H Hnd. handled_cases H.
  - destruct Hsame as [_ Hp]. rewrite Hp. exact Hnd.
  - rewrite Hw. exact Hnd.
  - rewrite Hw. exact Hnd.
  - destruct Hsame as [_ Hp]. rewrite Hp. exact Hnd.
  - rewrite Hrows. destruct (marked _ _); simpl; [|exact Hnd].
    constructor; [|exact Hnd].
    intros Hin. apply has_file_name_In in Hin. congruence.
  - destruct Hsame as [_ Hp]. rewrite Hp. exact Hnd.
  - rewrite Hw. exact Hnd.
Qed.

(** X4. The ledger keeps one row per file name: when no two rows of
    [processedfiles] have the same file name before a run of one of the
    five scripts, none have after it, whatever the listings repeat and
    however the writes end. *)
Theorem ledger_names_stay_unique R E w r w' made :
  script_run R E w r w' made ->
  NoDup (map p_file_name (processedfiles w)) ->
  NoDup (map p_file_name (processedfiles w')).
Proof.
  intros Hrun.
  exact (script_run_respects E keeps_names_apart keeps_names_apart_composable
           (handled_keeps_names_apart E) R w r w' made Hrun).
Qed.

Lemma ledger_names_stay_unique_witness :
  NoDup (map p_file_name (processedfiles Sample.empty_world))
  /\ NoDup
       (map p_file_name
          (processedfiles
             (snd (fst (MENA.main Sample.ascii_runtime Sample.always_done
                          Sample.mena_depot Sample.empty_world))))).
Proof.
  assert (H0 : NoDup (map p_file_name (processedfiles Sample.empty_world)))
    by constructor.
  split; [exact H0|].
  destruct (MENA.main Sample.ascii_runtime Sample.always_done
              Sample.mena_depot Sample.empty_world)
    as [[r w'] made] eqn:Hrun.
  cbn [fst snd].
  exact (ledger_names_stay_unique Sample.ascii_runtime Sample.always_done
           Sample.empty_world r w' made (@run_MENA _ _ _ _ _ _ _ Hrun) H0).
Defined.

(** ** The ledger, written and read *)

Lemma is_file_processed_answer E name w :
  Store.is_file_processed E name w
  = (select (lookup_returns E name) (has_file_name name (processedfiles w)),
     w,
     [Is_file_processed name
        (select (lookup_returns E name)
           (has_file_name name (processedfiles w)))]).
Proof. reflexivity. Qed.

Lemma has_file_name_other name agency date other rows :
  other <> name ->
  has_file_name other
    ({| p_file_name := name; p_id_agency := agency;
        p_created_date := date |} :: rows)
  = has_file_name other rows.
Proof.
  intros Hne. simpl.
  destruct (str_eqb name other) eqn:Heq; [|reflexivity].
  apply str_eqb_eq in Heq. congruence.
Qed.

Lemma has_file_name_head name agency date rows :
  has_file_name name
    ({| p_file_name := name; p_id_agency := agency;
        p_created_date := date |} :: rows) = true.
Proof. simpl. rewrite str_eqb_refl. reflexivity. Qed.

Lemma max_created_date_head name agency date rows :
  exists m,
    max_created_date agency
      ({| p_file_name := name; p_id_agency := agency;
          p_created_date := date |} :: rows) = Some m
    /\ (date <= m)%Z.
Proof.
  simpl. rewrite Z.eqb_refl.
  destruct (max_created_date agency rows) as [m|];
    eexists; (split; [reflexivity|]); lia.
Qed.

(** X5. A ledger row written is a ledger row found: when
    [mark_file_as_processed] returns, or raises with the row stored,
    [is_file_processed], when the store answers it, then answers [True]
    for that name, whatever the agency, and the watermark of the agency is
    at least the date written; when it raises with nothing stored the
    state is as before. The answer for any other name is not changed. *)
Theorem marked_file_is_found E name agency date w r w' made :
  mark_file_as_processed E name agency date w = (r, w', made) ->
  made = [Mark_file_as_processed name]
  /\ (r = Ok tt <-> mark_outcome E name = Done)
  /\ (mark_outcome E name = Error_before_commit -> w' = w)
  /\ (mark_outcome E name <> Error_before_commit ->
      (forall E',
          Store.is_file_processed E' name w'
          = (select (lookup_returns E' name) true, w',
             [Is_file_processed name (select (lookup_returns E' name) true)]))
      /\ exists m,
           max_created_date agency (processedfiles w') = Some m
           /\ (date <= m)%Z)
  /\ (forall E' other,
        other <> name ->
        fst (fst (Store.is_file_processed E' other w'))
        = fst (fst (Store.is_file_processed E' other w))).
Proof.
  unfold mark_file_as_processed, execute_commit, bind, record_call,
    store_processed_file, raise, ret.
  intros H.
  destruct (mark_outcome E name) eqn:Hmo; cbn beta iota in H;
    injection H as Hr Hw Hm; subst r w' made; cbn [processedfiles].
  - split; [reflexivity|]. split; [tauto|]. split; [discriminate|].
    split.
    + intros _. split; [|apply max_created_date_head].
      intros E'. rewrite is_file_processed_answer. cbn [processedfiles].
      rewrite has_file_name_head. reflexivity.
    + intros E' other Hne. rewrite !is_file_processed_answer.
      cbn [fst processedfiles].
      rewrite has_file_name_other by exact Hne. reflexivity.
  - split; [reflexivity|]. split; [split; discriminate|].
    split; [reflexivity|]. split.
    + intros Hne. exfalso. apply Hne. reflexivity.
    + intros E' other Hne. reflexivity.
  - split; [reflexivity|]. split; [split; discriminate|].
    split; [discriminate|]. split.
    + intros _. split; [|apply max_created_date_head].
      intros E'. rewrite is_file_processed_answer. cbn [processedfiles].
      rewrite has_file_name_head. reflexivity.
    + intros E' other Hne. rewrite !is_file_processed_answer.
      cbn [fst processedfiles].
      rewrite has_file_name_other by exact Hne. reflexivity.
Qed.

Lemma marked_file_is_found_witness :
  Store.is_file_processed Sample.always_done (py "d1.txt")
    (snd (fst (mark_file_as_processed Sample.always_done (py "d1.txt") 9 100
                 Sample.empty_world)))
  = (Ok true,
     snd (fst (mark_file_as_processed Sample.always_done (py "d1.txt") 9 100
                 Sample.empty_world)),
     [Is_file_processed (py "d1.txt") (Ok true)]).
Proof.
  destruct (mark_file_as_processed Sample.always_done (py "d1.txt") 9 100
              Sample.empty_world) as [[r w'] made] eqn:Hm.
  cbn [fst snd].
  refine (proj1 (proj1 (proj2 (proj2 (proj2
            (marked_file_is_found Sample.always_done (py "d1.txt") 9%Z 100%Z
               Sample.empty_world r w' made Hm)))) _) Sample.always_done).
  discriminate.
Defined.

(** ** Runs that find nothing to read *)

Ltac no_folder H a :=
  let Ha := fresh "Ha" in
  assert (Ha := H a); cbn [fst In] in Ha; rewrite Ha by tauto; clear Ha.

Ltac idle_run_done :=
  eexists; split; [reflexivity|]; split; [split; reflexivity | reflexivity].

(** X7. When none of the folders of its agencies exists, [main] of ANSA, of
    MENA and of APS_CHINE returns without an exception, reads no listing,
    asks the store nothing and writes nothing: it logs a warning for each
    agency, in the order of [AGENCIES], and then the error that there is no
    folder to process. *)
Theorem nothing_mounted_nothing_done R E fs :
  ((forall agency, In agency ANSA.AGENCIES -> fs (py (fst agency)) = None) ->
   idle_run (ANSA.main R E fs)
     (no_folders :: rev (map folder_missing ANSA.AGENCIES)))
  /\ ((forall agency, In agency MENA.AGENCIES -> fs (py (fst agency)) = None) ->
      idle_run (MENA.main R E fs)
        (no_folders :: rev (map folder_missing MENA.AGENCIES)))
  /\ ((forall agency,
         In agency APS_CHINE.AGENCIES -> fs (py (fst agency)) = None) ->
      idle_run (APS_CHINE.main R E fs)
        (no_folders :: rev (map folder_missing APS_CHINE.AGENCIES))).
Proof.
  split; [|split]; intros H w.
  - unfold ANSA.main, ANSA.AGENCIES, for_fold, ANSA.main_agency, bind in *.
    no_folder H ("Ansa_Ar"%string, 22%Z).
    no_folder H ("Ansa_It"%string, 23%Z).
    no_folder H ("Ansa_Fr"%string, 24%Z).
    idle_run_done.
  - unfold MENA.main, MENA.AGENCIES, for_fold, MENA.main_agency, bind in *.
    no_folder H ("mena"%string, 9%Z).
    idle_run_done.
  - unfold APS_CHINE.main, APS_CHINE.AGENCIES, for_fold,
      APS_CHINE.main_agency, bind in *.
    no_folder H ("aps_ar_xml"%string, 1%Z).
    no_folder H ("aps_fr_xml"%string, 2%Z).
    no_folder H ("aps_en_xml"%string, 36%Z).
    no_folder H ("chine_nouvelles_fr"%string, 5%Z).
    no_folder H ("chine_nouvelles_ar"%string, 6%Z).
    idle_run_done.
Qed.

Lemma nothing_mounted_nothing_done_witness :
  idle_run
    (MENA.main Sample.ascii_runtime Sample.always_done (fun _ => None))
    (no_folders :: rev (map folder_missing MENA.AGENCIES)).
Proof.
  apply (proj1 (proj2 (nothing_mounted_nothing_done Sample.ascii_runtime
                         Sample.always_done (fun _ => None)))).
  intros agency _. reflexivity.
Defined.

Ltac asks_only_done :=
  eexists; split; [reflexivity|]; split; [split; reflexivity | reflexivity].

(** X8. When the server cannot be reached, or gives no listing, [main] of
    MAP_FR and of AZERTAC_FR returns without an exception, asks the store
    about no file and writes nothing. When the connection fails, and for
    AZERTAC_FR when the directory cannot be entered, it makes no call at
    all; when the listing fails, the watermark has been asked for, and
    that is the one call. Between the records of its start and of its
    completion the log has the error of the pass, after the record of the
    connection if there was one. *)
Theorem unreachable_server_nothing_done R E :
  (forall server clock e,
      MAP_FR.ftp_login server = Raised e ->
      idle_run (MAP_FR.main R E server clock)
        [info "MAPL processing completed.";
         error "Failed to process MAPL files from FTP";
         info "Starting MAPL processing."])
  /\ (forall server clock e,
        MAP_FR.ftp_login server = Ok tt ->
        MAP_FR.ftp_list server = Raised e ->
        asks_only (MAP_FR.main R E server clock) (watermark_asked E 4)
          [info "MAPL processing completed.";
           error "Failed to process MAPL files from FTP";
           info "Connected to FTP server.";
           info "Starting MAPL processing."])
  /\ (forall server e,
        AZERTAC_FR.sftp_connect server = Raised e ->
        idle_run (AZERTAC_FR.main R E server)
          [info "Azertac Fr processing completed.";
           error "Failed to process Azertac Fr files from SFTP";
           info "Starting Azertac Fr processing."])
  /\ (forall server e,
        AZERTAC_FR.sftp_connect server = Ok tt ->
        AZERTAC_FR.sftp_chdir server = Raised e ->
        idle_run (AZERTAC_FR.main R E server)
          [info "Azertac Fr processing completed.";
           error "Failed to process Azertac Fr files from SFTP";
           info "Connected to SFTP server.";
           info "Starting Azertac Fr processing."])
  /\ (forall server e,
        AZERTAC_FR.sftp_connect server = Ok tt ->
        AZERTAC_FR.sftp_chdir server = Ok tt ->
        AZERTAC_FR.sftp_listdir_attr server = Raised e ->
        asks_only (AZERTAC_FR.main R E server) (watermark_asked E 25)
          [info "Azertac Fr processing completed.";
           error "Failed to process Azertac Fr files from SFTP";
           info "Connected to SFTP server.";
           info "Starting Azertac Fr processing."]).
Proof.
  split; [|split; [|split; [|split]]].
  - intros server clock e Hlogin w.
    unfold MAP_FR.main, MAP_FR.process_mapl_from_ftp, try_except, bind, lift,
      logging. rewrite Hlogin. idle_run_done.
  - intros server clock e Hlogin Hlist w.
    unfold MAP_FR.main, MAP_FR.process_mapl_from_ftp, try_except, bind, lift,
      logging, Store.get_last_processed_time, watermark_asked, select.
    rewrite Hlogin, Hlist.
    destruct (watermark_returns E 4); asks_only_done.
  - intros server e Hconnect w.
    unfold AZERTAC_FR.main, AZERTAC_FR.process_azertacFr_from_sftp,
      try_except, bind, lift, logging. rewrite Hconnect. idle_run_done.
  - intros server e Hconnect Hchdir w.
    unfold AZERTAC_FR.main, AZERTAC_FR.process_azertacFr_from_sftp,
      try_except, bind, lift, logging. rewrite Hconnect, Hchdir.
    idle_run_done.
  - intros server e Hconnect Hchdir Hlist w.
    unfold AZERTAC_FR.main, AZERTAC_FR.process_azertacFr_from_sftp,
      try_except, bind, lift, logging, Store.get_last_processed_time,
      watermark_asked, select.
    rewrite Hconnect, Hchdir, Hlist.
    destruct (watermark_returns E 25); asks_only_done.
Qed.

Lemma unreachable_server_nothing_done_witness :
  asks_only
    (AZERTAC_FR.main Sample.ascii_runtime Sample.always_done
       {| AZERTAC_FR.sftp_connect := Ok tt;
          AZERTAC_FR.sftp_chdir := Ok tt;
          AZERTAC_FR.sftp_listdir_attr := Raised OSError |})
    (watermark_asked Sample.always_done 25)
    [info "Azertac Fr processing completed.";
     error "Failed to process Azertac Fr files from SFTP";
     info "Connected to SFTP server.";
     info "Starting Azertac Fr processing."].
Proof.
  apply (proj2 (proj2 (proj2 (proj2
           (unreachable_server_nothing_done Sample.ascii_runtime
              Sample.always_done))))
           {| AZERTAC_FR.sftp_connect := Ok tt;
              AZERTAC_FR.sftp_chdir := Ok tt;
              AZERTAC_FR.sftp_listdir_attr := Raised OSError |} OSError);
    reflexivity.
Defined.

(** ** The date given to an entry of the listing *)

Lemma make_datetime_ok y m d H M dt :
  MAP_FR.make_datetime y m d H M = Ok dt ->
  dt = {| MAP_FR.year := y; MAP_FR.month := m; MAP_FR.day := d;
          MAP_FR.hour := H; MAP_FR.minute := M |}
  /\ MAP_FR.valid dt = true.
Proof.
  unfold MAP_FR.make_datetime. intros Hm.
  destruct (MAP_FR.valid _) eqn:Hv; [|discriminate].
  inversion Hm; subst dt. split; [reflexivity | exact Hv].
Qed.

(** X9. The date [process_mapl_from_ftp] gives an entry of the listing,
    when it gives one: the month, day, hour and minute are those read in
    the listing, the year is the current one or the one before, the date
    exists in that year and is not after today's, and it is never a
    February 29. *)
Theorem inferred_date_is_not_after_today now e dt :
  MAP_FR.infer_modified_time now e = Ok dt ->
  MAP_FR.e_stamp e
  = Some (MAP_FR.month dt, MAP_FR.day dt, MAP_FR.hour dt, MAP_FR.minute dt)
  /\ (MAP_FR.year dt = MAP_FR.year now
      \/ MAP_FR.year dt = (MAP_FR.year now - 1)%Z)
  /\ MAP_FR.valid dt = true
  /\ MAP_FR.date_gt dt now = false
  /\ (MAP_FR.month dt = 2%Z -> (MAP_FR.day dt <= 28)%Z).
Proof.
  unfold MAP_FR.infer_modified_time, MAP_FR.strptime, MAP_FR.replace_year,
    rbind.
  destruct (MAP_FR.e_stamp e) as [[[[m d] H] M]|]; [|discriminate].
  destruct (MAP_FR.make_datetime 1900 m d H M) as [dt0|] eqn:H0;
    [|discriminate].
  apply make_datetime_ok in H0 as [-> Hv0]. cbn [MAP_FR.month MAP_FR.day
    MAP_FR.hour MAP_FR.minute].
  assert (Hfeb : m = 2%Z -> (d <= 28)%Z).
  { intros ->. unfold MAP_FR.valid in Hv0. cbn in Hv0.
    rewrite !andb_true_iff, !Z.leb_le in Hv0. lia. }
  destruct (MAP_FR.make_datetime (MAP_FR.year now) m d H M) as [dt1|] eqn:H1;
    [|discriminate].
  apply make_datetime_ok in H1 as [-> Hv1].
  destruct (MAP_FR.date_gt _ now) eqn:Hgt.
  - cbn [MAP_FR.month MAP_FR.day MAP_FR.hour MAP_FR.minute].
    intros H2. apply make_datetime_ok in H2 as [-> Hv2].
    cbn [MAP_FR.year MAP_FR.month MAP_FR.day MAP_FR.hour MAP_FR.minute].
    split; [reflexivity|]. split; [right; reflexivity|].
    split; [exact Hv2|]. split; [|exact Hfeb].
    unfold MAP_FR.date_gt. cbn [MAP_FR.year MAP_FR.month MAP_FR.day].
    replace (MAP_FR.year now <? MAP_FR.year now - 1)%Z with false
      by (symmetry; apply Z.ltb_ge; lia).
    replace (MAP_FR.year now - 1 =? MAP_FR.year now)%Z with false
      by (symmetry; apply Z.eqb_neq; lia).
    reflexivity.
  - intros H2. inversion H2; subst dt.
    cbn [MAP_FR.year MAP_FR.month MAP_FR.day MAP_FR.hour MAP_FR.minute].
    split; [reflexivity|]. split; [left; reflexivity|].
    split; [exact Hv1|]. split; [exact Hgt | exact Hfeb].
Qed.

Lemma inferred_date_is_not_after_today_witness :
  MAP_FR.date_gt (Sample.at_time 2023 12 31 10 30) (Sample.at_time 2024 1 2 9 0)
  = false.
Proof.
  refine (proj1 (proj2 (proj2 (proj2
            (inferred_date_is_not_after_today (Sample.at_time 2024 1 2 9 0)
               (Sample.ftp_file "item.xml" (12, 31, 10, 30)%Z
                  Sample.map_dispatch)
               (Sample.at_time 2023 12 31 10 30) _))))).
  reflexivity.
Defined.

(** ** Where a label comes from *)

Lemma span_digits_spec R text :
  text = fst (span_digits R text) ++ snd (span_digits R text)
  /\ Forall (fun c => isdecimal R c = true) (fst (span_digits R text))
  /\ no_digit_ahead R (snd (span_digits R text)).
Proof.
  induction text as [|c text [H1 [H2 H3]]]; simpl.
  - repeat split; constructor.
  - destruct (isdecimal R c) eqn:Hd.
    + destruct (span_digits R text) as [ds rest]; simpl in *.
      split; [f_equal; exact H1|].
      split; [constructor; assumption | exact H3].
    + simpl. split; [reflexivity|]. split; [constructor | exact Hd].
Qed.

Lemma starts_spec prefix : forall text rest,
  starts prefix text = Some rest -> text = prefix ++ rest.
Proof.
  induction prefix as [|p prefix IH]; intros [|c text] rest H; simpl in H;
    try discriminate; try (inversion H; reflexivity).
  destruct (p =? c)%N eqn:Hpc; [|discriminate].
  apply N.eqb_eq in Hpc. subst c. simpl. f_equal. apply IH, H.
Qed.

Lemma re_search_spec {A} (match_at : str -> option A) text g :
  re_search match_at text = Some g ->
  exists before after, text = before ++ after /\ match_at after = Some g.
Proof.
  induction text as [|c text IH]; simpl.
  - destruct (match_at []) eqn:Hm; [|discriminate].
    intros H. exists [], []. split; [reflexivity | congruence].
  - destruct (match_at (c :: text)) eqn:Hm.
    + intros H. exists [], (c :: text). split; [reflexivity | congruence].
    + intros H. destruct (IH H) as [before [after [-> Ha]]].
      exists (c :: before), after. split; [reflexivity | exact Ha].
Qed.

Lemma ANSA_label_at_spec R text l :
  ANSA.label_at R text = Some l ->
  exists d3 tail,
    text = py "_A" ++ d3 ++ l ++ py ".xml" ++ tail
    /\ List.length d3 = 3%nat
    /\ Forall (fun c => isdecimal R c = true) d3
    /\ number R l /\ at_end tail = true.
Proof.
  unfold ANSA.label_at.
  destruct (starts (py "_A") text) as [after|] eqn:Hs; [|discriminate].
  apply starts_spec in Hs.
  destruct (span_digits_spec R after) as [Ha [Hd _]].
  destruct (span_digits R after) as [ds rest]; cbn [fst snd] in *.
  destruct (starts (py ".xml") rest) as [tail|] eqn:Hx; [|discriminate].
  apply starts_spec in Hx.
  destruct ((4 <=? List.length ds)%nat && at_end tail) eqn:Hc; [|discriminate].
  apply andb_true_iff in Hc as [Hlen Hend]. apply Nat.leb_le in Hlen.
  intros H. inversion H; subst l; clear H.
  exists (firstn 3 ds), tail.
  rewrite <- (firstn_skipn 3 ds) in Hd. apply Forall_app in Hd as [Hd3 Hdl].
  split.
  { rewrite Hs, Ha, Hx, <- (firstn_skipn 3 ds) at 1.
    rewrite <- !app_assoc. reflexivity. }
  split; [rewrite length_firstn; lia|].
  split; [exact Hd3|]. split; [|exact Hend].
  split; [|exact Hdl].
  destruct ds as [|a [|b [|c [|d ds]]]]; simpl in Hlen; try lia.
  discriminate.
Qed.

Lemma MAP_FR_label_at_spec R text l :
  MAP_FR.label_at R text = Some l ->
  exists rest,
    text = py "MAP" ++ l ++ rest /\ number R l /\ no_digit_ahead R rest.
Proof.
  unfold MAP_FR.label_at.
  destruct (starts (py "MAP") text) as [after|] eqn:Hs; [|discriminate].
  apply starts_spec in Hs.
  destruct (span_digits_spec R after) as [Ha [Hd Hn]].
  destruct (fst (span_digits R after)) as [|c ds] eqn:Hds; [discriminate|].
  intros H. inversion H; subst l; clear H.
  exists (snd (span_digits R after)).
  split; [rewrite Hs, Ha at 1; reflexivity|].
  split; [split; [discriminate | exact Hd] | exact Hn].
Qed.

Lemma AZERTAC_FR_label_at_spec R text l :
  AZERTAC_FR.label_at R text = Some l ->
  exists tail,
    text = py "_" ++ l ++ py ".xml" ++ tail
    /\ number R l /\ at_end tail = true.
Proof.
  unfold AZERTAC_FR.label_at.
  destruct (starts (py "_") text) as [after|] eqn:Hs; [|discriminate].
  apply starts_spec in Hs.
  destruct (span_digits_spec R after) as [Ha [Hd _]].
  destruct (span_digits R after) as [[|c ds] rest]; cbn [fst snd] in *;
    [discriminate|].
  destruct (starts (py ".xml") rest) as [tail|] eqn:Hx; [|discriminate].
  apply starts_spec in Hx.
  destruct (at_end tail) eqn:Hend; [|discriminate].
  intros H. inversion H; subst l; clear H.
  exists tail.
  split; [rewrite Hs, Ha, Hx; reflexivity|].
  split; [split; [discriminate | exact Hd] | exact Hend].
Qed.

Lemma counter_at_spec R text letters ds :
  APS_CHINE.counter_at R text = Some (letters, ds) ->
  exists u after,
    text = letters ++ u :: ds ++ 95%N :: after
    /\ List.length letters = 3%nat
    /\ forallb APS_CHINE.islower_az letters = true
    /\ APS_CHINE.isupper_AZ u = true
    /\ List.length ds = 6%nat
    /\ Forall (fun c => isdecimal R c = true) ds.
Proof.
  unfold APS_CHINE.counter_at.
  destruct text as [|a [|b [|c [|u rest]]]]; try discriminate.
  cbv zeta. remember (firstn 6 rest) as ds0 eqn:Hds0.
  destruct (_ && _) eqn:Hc; [|discriminate].
  intros H. inversion H; subst letters ds; clear H.
  rewrite !andb_true_iff in Hc.
  destruct Hc as [[[[[[Ha Hb] Hcc] Hu] Hlen] Hd] Hunder].
  apply Nat.eqb_eq in Hlen.
  destruct (skipn 6 rest) as [|x after] eqn:Hsk; [discriminate|].
  destruct x; try discriminate.
  assert (Hx : N.pos p = 95%N).
  { destruct p as [p|p|]; try discriminate Hunder.
    repeat (destruct p as [p|p|]; try discriminate Hunder).
    reflexivity. }
  exists u, after.
  split.
  { cbn [app]. do 4 f_equal. rewrite <- Hx, <- Hsk, Hds0. symmetry.
    apply firstn_skipn. }
  split; [reflexivity|].
  split; [simpl; rewrite Ha, Hb, Hcc; reflexivity|].
  split; [exact Hu|]. split; [exact Hlen|].
  apply Forall_forall. apply forallb_forall. exact Hd.
Qed.

Lemma match_counter_spec R text groups :
  APS_CHINE.match_counter R text = Some groups ->
  exists before after,
    text = before ++ after /\ ~ In 10%N before
    /\ APS_CHINE.counter_at R after = Some groups.
Proof.
  induction text as [|c text IH]; cbn [APS_CHINE.match_counter].
  - destruct (APS_CHINE.counter_at R []) eqn:Hm; [|discriminate].
    intros H. exists [], []. split; [reflexivity|].
    split; [intros [] | congruence].
  - destruct (APS_CHINE.counter_at R (c :: text)) eqn:Hm.
    + intros H. exists [], (c :: text). split; [reflexivity|].
      split; [intros [] | congruence].
    + destruct (c =? 10)%N eqn:Hc; [discriminate|].
      apply N.eqb_neq in Hc.
      intros H. destruct (IH H) as [before [after [-> [Hno Ha]]]].
      exists (c :: before), after. split; [reflexivity|].
      split; [|exact Ha].
      intros [Heq|Hin]; [congruence | exact (Hno Hin)].
Qed.

(** X12. Where the label of a file comes from. In ANSA it is the digits
    after the first three of the number that follows [_A] and ends the
    name before [.xml]; in AZERTAC_FR the number between [_] and the
    final [.xml]; in MAP_FR the whole number that follows the first
    [MAP] with a digit after it in the second line, and ["0"] only when
    there is none; in MENA the whole number the third line starts with;
    in APS_CHINE, for the two Chinese folders only, three small letters
    followed by a capital, six digits and [_] in the name, joined to the
    first four characters of the six digits read as a number. *)
Theorem label_is_read_from_the_pattern R :
  (forall name l,
      ANSA.extract_label R name = Some l ->
      exists before d3 tail,
        name = before ++ py "_A" ++ d3 ++ l ++ py ".xml" ++ tail
        /\ List.length d3 = 3%nat
        /\ Forall (fun c => isdecimal R c = true) d3
        /\ number R l /\ at_end tail = true)
  /\ (forall name,
        AZERTAC_FR.get_label R name <> py "0" ->
        exists before tail,
          name = before ++ py "_" ++ AZERTAC_FR.get_label R name
                 ++ py ".xml" ++ tail
          /\ number R (AZERTAC_FR.get_label R name) /\ at_end tail = true)
  /\ (forall text,
        MAP_FR.get_label R text <> py "0" ->
        exists before rest,
          text = before ++ py "MAP" ++ MAP_FR.get_label R text ++ rest
          /\ number R (MAP_FR.get_label R text) /\ no_digit_ahead R rest)
  /\ (forall text l,
        MENA.get_label R text = Some l ->
        exists rest,
          text = l ++ rest /\ number R l /\ no_digit_ahead R rest)
  /\ (forall name folder l,
        APS_CHINE.extract_label R name folder = Some l ->
        (folder = "chine_nouvelles_fr"%string
         \/ folder = "chine_nouvelles_ar"%string)
        /\ exists before letters u ds after,
             name = before ++ letters ++ u :: ds ++ 95%N :: after
             /\ ~ In 10%N before
             /\ List.length letters = 3%nat
             /\ forallb APS_CHINE.islower_az letters = true
             /\ APS_CHINE.isupper_AZ u = true
             /\ List.length ds = 6%nat
             /\ Forall (fun c => isdecimal R c = true) ds
             /\ l = letters
                    ++ firstn 4
                         (APS_CHINE.str_of_int (APS_CHINE.int_of R ds))).
Proof.
  split; [|split; [|split; [|split]]].
  - intros name l. unfold ANSA.extract_label.
    destruct (re_search (ANSA.label_at R) name) as [g|] eqn:Hs;
      [|discriminate].
    intros H; inversion H; subst g; clear H.
    apply re_search_spec in Hs as [before [after [-> Ha]]].
    apply ANSA_label_at_spec in Ha as [d3 [tail [-> Hrest]]].
    exists before, d3, tail. split; [reflexivity | exact Hrest].
  - intros name. unfold AZERTAC_FR.get_label.
    destruct (re_search (AZERTAC_FR.label_at R) name) as [g|] eqn:Hs;
      [|intros H; exfalso; apply H; reflexivity].
    intros _.
    apply re_search_spec in Hs as [before [after [-> Ha]]].
    apply AZERTAC_FR_label_at_spec in Ha as [tail [-> Hrest]].
    exists before, tail. split; [reflexivity | exact Hrest].
  - intros text. unfold MAP_FR.get_label.
    destruct (re_search (MAP_FR.label_at R) text) as [g|] eqn:Hs;
      [|intros H; exfalso; apply H; reflexivity].
    intros _.
    apply re_search_spec in Hs as [before [after [-> Ha]]].
    apply MAP_FR_label_at_spec in Ha as [rest [-> Hrest]].
    exists before, rest. split; [reflexivity | exact Hrest].
  - intros text l. unfold MENA.get_label.
    destruct (span_digits_spec R text) as [Ht [Hd Hn]].
    destruct (fst (span_digits R text)) as [|c ds] eqn:Hds; [discriminate|].
    intros H; inversion H; subst l; clear H.
    exists (snd (span_digits R text)).
    split; [exact Ht|]. split; [split; [discriminate | exact Hd] | exact Hn].
  - intros name folder l. unfold APS_CHINE.extract_label.
    destruct (String.eqb folder "chine_nouvelles_fr") eqn:Hfr;
      [|destruct (String.eqb folder "chine_nouvelles_ar") eqn:Har];
      cbn [orb]; try discriminate.
    + apply String.eqb_eq in Hfr.
      destruct (APS_CHINE.match_counter R name) as [[letters ds]|] eqn:Hm;
        [|discriminate].
      intros H; inversion H; subst l; clear H.
      apply match_counter_spec in Hm as [before [after' [-> [Hno Hc]]]].
      apply counter_at_spec in Hc as [u [after [-> Hrest]]].
      split; [left; exact Hfr|].
      exists before, letters, u, ds, after.
      split; [reflexivity|]. split; [exact Hno|].
      destruct Hrest as [H1 [H2 [H3 [H4 H5]]]]. auto 10.
    + apply String.eqb_eq in Har.
      destruct (APS_CHINE.match_counter R name) as [[letters ds]|] eqn:Hm;
        [|discriminate].
      intros H; inversion H; subst l; clear H.
      apply match_counter_spec in Hm as [before [after' [-> [Hno Hc]]]].
      apply counter_at_spec in Hc as [u [after [-> Hrest]]].
      split; [right; exact Har|].
      exists before, letters, u, ds, after.
      split; [reflexivity|]. split; [exact Hno|].
      destruct Hrest as [H1 [H2 [H3 [H4 H5]]]]. auto 10.
Qed.

Lemma label_is_read_from_the_pattern_witness :
  exists before d3 tail,
    py "20240301_A0011234.xml"
    = before ++ py "_A" ++ d3 ++ py "1234" ++ py ".xml" ++ tail
    /\ List.length d3 = 3%nat
    /\ Forall (fun c => isdecimal Sample.ascii_runtime c = true) d3
    /\ number Sample.ascii_runtime (py "1234") /\ at_end tail = true.
Proof.
  apply (proj1 (label_is_read_from_the_pattern Sample.ascii_runtime)
           (py "20240301_A0011234.xml") (py "1234")).
  reflexivity.
Defined.

(** ** The fields of a plain-text dispatch *)

Lemma re_sub_class_control_free s : control_free (re_sub_class control_codes s).
Proof.
  induction s as [|c s IH]; simpl; [constructor|].
  destruct (in_class control_codes c) eqn:Hc; [exact IH|].
  constructor; [|exact IH].
  intros Hs. apply in_class_control_codes in Hs. congruence.
Qed.

(** X10. Whatever the file holds, the title, the slug and the text that a
    plain-text parser returns are strings without any of the control
    characters U+0000-U+0008, U+000B, U+000C, U+000E-U+001F and
    U+007F-U+009F. *)
Theorem text_fields_are_control_free R :
  (forall f d,
      MENA.parse_txt R f = Ok d ->
      exists t s b,
        title d = VStr t /\ slug d = VStr s /\ full_text d = VStr b
        /\ control_free t /\ control_free s /\ control_free b)
  /\ (forall raw name d,
        MAP_FR.parse_txt_try R raw name = Ok d ->
        exists t s b,
          title d = VStr t /\ slug d = VStr s /\ full_text d = VStr b
          /\ control_free t /\ control_free s /\ control_free b).
Proof.
  split.
  - intros f d H. unfold MENA.parse_txt, rbind in H.
    repeat (first [ discriminate H | case_scrutinee_in H ]).
    inversion H; subst d; clear H. cbn [title slug full_text].
    do 3 eexists. repeat (split; [reflexivity|]).
    repeat split; apply re_sub_class_control_free.
  - intros raw name d H. unfold MAP_FR.parse_txt_try, rbind in H.
    repeat (first [ discriminate H | case_scrutinee_in H ]).
    inversion H; subst d; clear H. cbn [title slug full_text].
    do 3 eexists. repeat (split; [reflexivity|]).
    repeat split; apply re_sub_class_control_free.
Qed.

Lemma text_fields_are_control_free_witness :
  exists d,
    MAP_FR.parse_txt_try Sample.ascii_runtime
      (Sample.text_of Sample.map_dispatch) (py "m1.txt") = Ok d
    /\ exists t s b,
         title d = VStr t /\ slug d = VStr s /\ full_text d = VStr b
         /\ control_free t /\ control_free s /\ control_free b.
Proof.
  assert (Hp : exists d,
             MAP_FR.parse_txt_try Sample.ascii_runtime
               (Sample.text_of Sample.map_dispatch) (py "m1.txt") = Ok d)
    by (eexists; vm_compute; reflexivity).
  destruct Hp as [d Hp]. exists d. split; [exact Hp|].
  exact (proj2 (text_fields_are_control_free Sample.ascii_runtime)
           (Sample.text_of Sample.map_dispatch) (py "m1.txt") d Hp).
Defined.

Lemma title_loop_until_blank rest : forall line title_lines,
  snd (MENA.title_loop rest line title_lines)
  = title_lines ++ map strip (until_blank rest).
Proof.
  induction rest as [|l rest IH]; intros line tl; simpl.
  - symmetry. apply app_nil_r.
  - destruct (str_eqb (strip l) []); simpl.
    + symmetry. apply app_nil_r.
    + rewrite IH, <- app_assoc. reflexivity.
Qed.

(** X11. What [parse_txt] of MENA takes from a file it reads: the label
    in the third line and the slug in the fourth, and as title the lines
    from the fifth to the first line that is empty or white space only,
    each without its surrounding white space, joined by single spaces;
    when no such line follows, every line from the fifth on is part of
    the title. *)
Theorem MENA_title_runs_to_the_first_blank_line R f raw text d :
  f_data f = Ok raw ->
  open_read R (chardet_detect R raw) raw = Ok text ->
  MENA.parse_txt R f = Ok d ->
  exists line2 line3,
    nth_error (readlines text) 2 = Some line2
    /\ nth_error (readlines text) 3 = Some line3
    /\ label d = label_value (MENA.get_label R (strip line2))
    /\ slug d = VStr (MENA.clean_text (strip line3))
    /\ title d
       = VStr (MENA.clean_text
                 (join (py " ")
                    (map strip (until_blank (skipn 4 (readlines text)))))).
Proof.
  intros Hraw Htext. unfold MENA.parse_txt. rewrite Hraw. cbn [rbind].
  rewrite Htext. cbn [rbind]. unfold getitem.
  destruct (nth_error (readlines text) 2) as [line2|]; [|discriminate].
  cbn [rbind].
  destruct (nth_error (readlines text) 3) as [line3|]; [|discriminate].
  cbn [rbind].
  pose proof (title_loop_until_blank (skipn 4 (readlines text)) None [])
    as Hloop.
  destruct (MENA.title_loop (skipn 4 (readlines text)) None [])
    as [line title_lines].
  cbn [snd app] in Hloop. subst title_lines.
  destruct (match line with Some _ => _ | None => _ end); [|discriminate].
  cbn [rbind]. intros H. inversion H; subst d; clear H.
  exists line2, line3. repeat split; reflexivity.
Qed.

Lemma MENA_title_runs_to_the_first_blank_line_witness :
  exists d line2 line3,
    nth_error (readlines (Sample.text_of Sample.dispatch)) 2 = Some line2
    /\ nth_error (readlines (Sample.text_of Sample.dispatch)) 3 = Some line3
    /\ label d
       = label_value (MENA.get_label Sample.ascii_runtime (strip line2))
    /\ slug d = VStr (MENA.clean_text (strip line3))
    /\ title d
       = VStr (MENA.clean_text
                 (join (py " ")
                    (map strip
                       (until_blank
                          (skipn 4
                             (readlines (Sample.text_of Sample.dispatch))))))).
Proof.
  assert (Hp : exists d,
             MENA.parse_txt Sample.ascii_runtime
               (Sample.plain_file "d1.txt" 100 Sample.dispatch) = Ok d)
    by (eexists; vm_compute; reflexivity).
  destruct Hp as [d Hp]. exists d.
  refine (MENA_title_runs_to_the_first_blank_line Sample.ascii_runtime
            (Sample.plain_file "d1.txt" 100 Sample.dispatch)
            (Sample.text_of Sample.dispatch) (Sample.text_of Sample.dispatch)
            d _ _ Hp).
  - reflexivity.
  - vm_compute. reflexivity.
Defined.

(** ** What a pass commits *)

Lemma sorted_reverse_perm files : Permutation files (sorted_reverse files).
Proof.
  unfold sorted_reverse. induction files as [|x l IH]; simpl; [constructor|].
  eapply perm_trans; [apply perm_skip, IH | apply insert_by_mtime_perm].
Qed.

Lemma sorted_reverse_NoDup files :
  NoDup (map f_name files) -> NoDup (map f_name (sorted_reverse files)).
Proof.
  apply Permutation_NoDup, Permutation_map, sorted_reverse_perm.
Qed.

Lemma has_file_name_names name rows rows' :
  (In name (map p_file_name rows) <-> In name (map p_file_name rows')) ->
  has_file_name name rows = has_file_name name rows'.
Proof.
  intros H. apply eq_true_iff_eq. rewrite !has_file_name_In. exact H.
Qed.

(** With a store that answers, the body of a loop writes the two rows of
    the file exactly when the file is committable. *)
Lemma handled_reliable E agency last policy name accepted stamp content
    w r w' made :
  reliable E -> lookup_returns E name = true ->
  (accepted = true -> guards_reads policy = false ->
   exists t, stamp = Ok t) ->
  handled E agency last policy name accepted stamp content w r w' made ->
  r = Ok tt
  /\ map p_file_name (processedfiles w')
     = (if committable last (processedfiles w) name accepted stamp content
        then [name] else [])
       ++ map p_file_name (processedfiles w)
  /\ map a_file_name (online2024_articles w')
     = (if committable last (processedfiles w) name accepted stamp content
        then [name] else [])
       ++ map a_file_name (online2024_articles w).
Proof.
  intros Hrel Hlook Hdate H. destruct (Hrel name) as [Hio Hmo].
  unfold committable.
  handled_cases H.
  - destruct Hsame as [Ha Hp]. rewrite Ha, Hp.
    destruct Hskip as [Hskip|[_ [e Hskip]]]; rewrite Hskip;
      [|rewrite andb_false_r]; auto.
  - rewrite Hw, Hacc, Hst, Hna. auto.
  - rewrite Hw, Hacc, Hst, Hna, Hled. auto.
  - destruct Hsame as [Ha Hp].
    rewrite Ha, Hp, Hacc, Hst, Hna, Hled, Hc. auto.
  - rewrite Hio, Hmo in *. rewrite Hacc, Hst, Hna, Hled, Hc.
    rewrite Harts, Hrows. cbn. rewrite Hfn. auto.
  - congruence.
  - destruct (Hdate Hacc Hguard) as [t Ht]. congruence.
Qed.

Lemma steps_respects {C} (P : world -> world -> list call -> Prop)
    (HP : composable P)
    (step : C -> world -> result unit -> world -> list call -> Prop)
    xs w r w' made :
  (forall c w r w' made, step c w r w' made -> P w w' made) ->
  steps step xs w r w' made -> P w w' made.
Proof.
  intros Hstep H. induction H.
  - apply comp_refl, HP.
  - eapply (comp_trans HP); [eapply Hstep; eassumption | exact IHsteps].
  - eapply Hstep; eassumption.
  - rewrite <- (app_nil_r made).
    eapply (comp_trans HP); [apply (comp_same HP); eassumption|].
    exact IHsteps.
Qed.

Section Commits.

Context (C : Type) (name : C -> str) (accepted : C -> bool)
  (stamp : C -> result Z) (content : C -> result parsed)
  (agency : Z) (policy : policy) (E : storage).

Hypothesis E_reliable : reliable E.
Hypothesis E_readable : readable E.

Local Abbreviation step last :=
  (fun c =>
     handled E agency last policy (name c) (accepted c) (stamp c) (content c)).

Local Abbreviation selected last w :=
  (fun c =>
     committable last (processedfiles w) (name c) (accepted c) (stamp c)
       (content c)).

Local Abbreviation dated xs :=
  (forall c, In c xs -> accepted c = true -> guards_reads policy = false ->
             exists t, stamp c = Ok t).

Lemma steps_commit last xs w r w' made :
  steps (step last) xs w r w' made ->
  NoDup (map name xs) -> dated xs ->
  r = Ok tt
  /\ map p_file_name (processedfiles w')
     = rev (map name (filter (selected last w) xs))
       ++ map p_file_name (processedfiles w)
  /\ map a_file_name (online2024_articles w')
     = rev (map name (filter (selected last w) xs))
       ++ map a_file_name (online2024_articles w).
Proof.
  intros H.
  induction H as [w|x xs w w1 made1 r w2 made2 Hh Hrest IH
                 |x xs w e w1 made1 Hh|xs w w1 r w2 made Hs Hrest IH];
    intros Hnd Hd.
  - repeat split.
  - destruct (handled_reliable _ _ _ _ _ _ _ _ _ _ _ _ E_reliable
                (proj1 E_readable _) (Hd x (or_introl eq_refl)) Hh)
      as [_ [Hp1 Ha1]].
    inversion Hnd as [|? ? Hx Hnd']; subst.
    destruct (IH Hnd' (fun c Hin => Hd c (or_intror Hin))) as [Hr2 [Hp2 Ha2]].
    assert (Hsel :
      filter (selected last w1) xs = filter (selected last w) xs).
    { apply filter_ext_in. intros c Hin. unfold committable.
      rewrite (has_file_name_names (name c) (processedfiles w1)
                 (processedfiles w)); [reflexivity|].
      rewrite Hp1. rewrite in_app_iff. split; [|auto].
      intros [Hnew|Hold]; [|exact Hold].
      exfalso. apply Hx.
      destruct (committable _ _ _ _ _ _); [|destruct Hnew].
      destruct Hnew as [Hnew|[]]. rewrite Hnew. apply in_map, Hin. }
    rewrite Hsel in Hp2, Ha2.
    split; [exact Hr2|]. rewrite Hp2, Ha2, Hp1, Ha1. cbn [filter].
    destruct (committable _ _ _ _ _ _); cbn [map rev app];
      rewrite <- ?app_assoc; split; reflexivity.
  - destruct (handled_reliable _ _ _ _ _ _ _ _ _ _ _ _ E_reliable
                (proj1 E_readable _) (Hd x (or_introl eq_refl)) Hh)
      as [Hr _].
    discriminate Hr.
  - destruct (IH Hnd Hd) as [Hr [Hp Ha]]. destruct Hs as [Hsa Hsp].
    unfold committable in *. rewrite Hsa, Hsp in *. auto.
Qed.

(** The pass: the watermark read from the state it starts in, then the
    loop. *)
Lemma watermarked_commits xs (loop : option Z -> M unit) w ws r w' made :
  NoDup (map name xs) -> dated xs ->
  (forall last w r w' made,
      loop last w = (r, w', made) -> steps (step last) xs w r w' made) ->
  same_tables w ws ->
  watermark_then E agency loop ws = (r, w', made) ->
  r = Ok tt
  /\ map p_file_name (processedfiles w')
     = rev (map name
              (filter
                 (selected (max_created_date agency (processedfiles w)) w)
                 xs))
       ++ map p_file_name (processedfiles w)
  /\ map a_file_name (online2024_articles w')
     = rev (map name
              (filter
                 (selected (max_created_date agency (processedfiles w)) w)
                 xs))
       ++ map a_file_name (online2024_articles w).
Proof.
  intros Hnd Hd Hloop [Hsa Hsp] H.
  apply watermark_then_inv in H as [[_ [made0 [H _]]]|[Hk _]];
    [|rewrite (proj2 E_readable) in Hk; discriminate Hk].
  apply Hloop in H.
  destruct (steps_commit _ _ _ _ _ _ H Hnd Hd) as [Hr [Hp Ha]].
  unfold committable in *. rewrite Hsa, Hsp in *. auto.
Qed.

Lemma guarded_commits xs (loop : option Z -> M unit) l message subject
    w ws r w' made :
  NoDup (map name xs) -> dated xs ->
  (forall last w r w' made,
      loop last w = (r, w', made) -> steps (step last) xs w r w' made) ->
  same_tables w ws ->
  try_except (watermark_then E agency loop)
    (fun _ => logging l message subject) ws = (r, w', made) ->
  r = Ok tt
  /\ map p_file_name (processedfiles w')
     = rev (map name
              (filter
                 (selected (max_created_date agency (processedfiles w)) w)
                 xs))
       ++ map p_file_name (processedfiles w)
  /\ map a_file_name (online2024_articles w')
     = rev (map name
              (filter
                 (selected (max_created_date agency (processedfiles w)) w)
                 xs))
       ++ map a_file_name (online2024_articles w).
Proof.
  intros Hnd Hd Hloop Hs H.
  apply try_except_logging_inv in H as [Hr [ri [wi [H [Hsa Hsp]]]]].
  destruct (watermarked_commits _ _ _ _ _ _ _ Hnd Hd Hloop Hs H)
    as [_ [Hp Ha]].
  rewrite Hsa, Hsp. auto.
Qed.

End Commits.

(** X6. What a pass commits when the store answers every query and every
    write, the listing is obtained and names each file once, and the date
    of each file that ANSA, MENA or APS_CHINE asks for can be read: the
    pass returns, and the rows it adds to [online2024_articles] and to
    [processedfiles] are those of the files that pass the extension filter
    of the script, have a date, which is after the watermark the pass
    started with, are not in the ledger the pass started with, and are
    read and parsed; one row for each in either table, in the order the
    loop handles them, no row for any other file. For MAP_FR the files are
    the lines of the listing that have a name, the first line having
    one. *)
Theorem reliable_pass_commits_the_new_files R E :
  reliable E -> readable E ->
  (forall agency d files,
      listdir d = Ok files ->
      NoDup (map f_name files) ->
      (forall f, In f files -> ANSA_accepted (f_name f) = true ->
                 exists t, getmtime d (f_name f) = Ok t) ->
      commits_exactly (ANSA.main_folder R E agency d) f_name
        (fun w f =>
           committable (max_created_date agency (processedfiles w))
             (processedfiles w) (f_name f) (ANSA_accepted (f_name f))
             (getmtime d (f_name f)) (ANSA.parse_xml_try R f))
        (sorted_reverse files))
  /\ (forall agency d files,
        listdir d = Ok files ->
        NoDup (map f_name files) ->
        (forall f, In f files -> exists t, getmtime d (f_name f) = Ok t) ->
        commits_exactly (MENA.main_folder R E agency d) f_name
          (fun w f =>
             committable (max_created_date agency (processedfiles w))
               (processedfiles w) (f_name f) true
               (getmtime d (f_name f)) (MENA.parse_txt R f))
          (sorted_reverse files))
  /\ (forall folder agency d files,
        listdir d = Ok files ->
        NoDup (map f_name files) ->
        (forall f, In f files -> exists t, getmtime d (f_name f) = Ok t) ->
        commits_exactly (APS_CHINE.main_folder R E folder agency d) f_name
          (fun w f =>
             committable (max_created_date agency (processedfiles w))
               (processedfiles w) (f_name f) true
               (getmtime d (f_name f)) (APS_CHINE.parse_xml_try R f folder))
          (sorted_reverse files))
  /\ (forall server clock agency lines,
        MAP_FR.ftp_login server = Ok tt ->
        MAP_FR.ftp_list server = Ok lines ->
        named_first lines ->
        NoDup (map MAP_FR.e_name (entries lines)) ->
        commits_exactly
          (MAP_FR.process_mapl_from_ftp R E server clock agency)
          MAP_FR.e_name
          (fun w e =>
             committable (max_created_date agency (processedfiles w))
               (processedfiles w) (MAP_FR.e_name e)
               (MAP_FR_accepted (MAP_FR.e_name e))
               (MAP_FR_stamp (clock (MAP_FR.e_name e)) e)
               (MAP_FR_content R e))
          (entries lines))
  /\ (forall server agency files,
        AZERTAC_FR.sftp_connect server = Ok tt ->
        AZERTAC_FR.sftp_chdir server = Ok tt ->
        AZERTAC_FR.sftp_listdir_attr server = Ok files ->
        NoDup (map f_name files) ->
        commits_exactly
          (AZERTAC_FR.process_azertacFr_from_sftp R E server agency) f_name
          (fun w f =>
             committable (max_created_date agency (processedfiles w))
               (processedfiles w) (f_name f) true (Ok (st_mtime f))
               (AZERTAC_FR_content R f))
          (sorted_reverse files)).
Proof.
  intros Hrel Hread. split; [|split; [|split; [|split]]].
  - intros agency d files Hl Hnd Hd w r w' made H.
    rewrite (ANSA_main_folder_is_loop R E agency d files w Hl) in H.
    apply (watermarked_commits file f_name
             (fun f => ANSA_accepted (f_name f))
             (fun f => getmtime d (f_name f)) (ANSA.parse_xml_try R)
             agency Raises_again E Hrel Hread (sorted_reverse files) _
             w w r w' made (sorted_reverse_NoDup files Hnd)
             (fun f Hin Ha _ => Hd f (proj1 (In_sorted_reverse f files) Hin)
                                  Ha)
             (fun last =>
                for_each_steps _ _ _
                  (ANSA_main_file_handled R E agency last d))
             (same_tables_refl w) H).
  - intros agency d files Hl Hnd Hd w r w' made H.
    rewrite (MENA_main_folder_is_loop R E agency d files w Hl) in H.
    apply (watermarked_commits file f_name (fun _ => true)
             (fun f => getmtime d (f_name f)) (MENA.parse_txt R)
             agency Raises_again E Hrel Hread (sorted_reverse files) _
             w w r w' made (sorted_reverse_NoDup files Hnd)
             (fun f Hin _ _ => Hd f (proj1 (In_sorted_reverse f files) Hin))
             (fun last =>
                for_each_steps _ _ _
                  (MENA_main_file_handled R E agency last d))
             (same_tables_refl w) H).
  - intros folder agency d files Hl Hnd Hd w r w' made H.
    rewrite (APS_CHINE_main_folder_is_loop R E folder agency d files w Hl)
      in H.
    apply (watermarked_commits file f_name (fun _ => true)
             (fun f => getmtime d (f_name f))
             (fun f => APS_CHINE.parse_xml_try R f folder)
             agency Logs_writes E Hrel Hread (sorted_reverse files) _
             w w r w' made (sorted_reverse_NoDup files Hnd)
             (fun f Hin _ _ => Hd f (proj1 (In_sorted_reverse f files) Hin))
             (fun last =>
                for_each_steps _ _ _
                  (APS_CHINE_main_file_handled R E folder agency last d))
             (same_tables_refl w) H).
  - intros server clock agency lines Hlogin Hlist Hnamed Hnd w r w' made H.
    rewrite (MAP_FR_pass_is_loop R E server clock agency lines w
               Hlogin Hlist) in H.
    apply (guarded_commits MAP_FR.ftp_entry MAP_FR.e_name
             (fun e => MAP_FR_accepted (MAP_FR.e_name e))
             (fun e => MAP_FR_stamp (clock (MAP_FR.e_name e)) e)
             (MAP_FR_content R) agency Logs_all E Hrel Hread
             (entries lines) _ _ _ _ w _ r w' made Hnd
             (fun e _ _ Hg => False_ind _ (Bool.diff_true_false Hg))
             (fun last w r w' made H =>
                match MAP_FR_loop_is_steps R E agency clock lines last
                        w r w' made Hnamed H with
                | conj Hst Hr =>
                    eq_ind_r (fun r => steps _ (entries lines) w r w' made)
                      Hst Hr
                end)
             (logged_same _ _ _ _) H).
  - intros server agency files Hconnect Hchdir Hlist Hnd w r w' made H.
    rewrite (AZERTAC_FR_pass_is_loop R E server agency files w
               Hconnect Hchdir Hlist) in H.
    apply (guarded_commits file f_name (fun _ => true)
             (fun f => Ok (st_mtime f)) (AZERTAC_FR_content R)
             agency Logs_all E Hrel Hread
             (sorted_reverse files) _ _ _ _ w _ r w' made
             (sorted_reverse_NoDup files Hnd)
             (fun e _ _ Hg => False_ind _ (Bool.diff_true_false Hg))
             (fun last =>
                for_each_steps _ _ _
                  (AZERTAC_FR_process_file_attr_handled R E agency last))
             (logged_same _ _ _ _) H).
Qed.

Lemma reliable_pass_commits_the_new_files_witness :
  reliable Sample.always_done /\ readable Sample.always_done
  /\ listdir (Sample.folder_of Sample.mena_files) = Ok Sample.mena_files
  /\ NoDup (map f_name Sample.mena_files)
  /\ (forall f, In f Sample.mena_files ->
        exists t,
          getmtime (Sample.folder_of Sample.mena_files) (f_name f) = Ok t)
  /\ map p_file_name
       (processedfiles
          (snd (fst (MENA.main_folder Sample.ascii_runtime Sample.always_done
                       9 (Sample.folder_of Sample.mena_files)
                       Sample.empty_world))))
     = [py "d1.txt"; py "d2.txt"].
Proof.
  destruct always_done_answers as [Hrel Hread].
  assert (Hnd : NoDup (map f_name Sample.mena_files)).
  { vm_compute. repeat constructor; simpl; intuition discriminate. }
  assert (Hd : forall f, In f Sample.mena_files ->
                 exists t,
                   getmtime (Sample.folder_of Sample.mena_files) (f_name f)
                   = Ok t).
  { intros f [<-|[<-|[<-|[]]]]; eexists; vm_compute; reflexivity. }
  split; [exact Hrel|]. split; [exact Hread|]. split; [reflexivity|].
  split; [exact Hnd|]. split; [exact Hd|].
  destruct (MENA.main_folder Sample.ascii_runtime Sample.always_done 9
              (Sample.folder_of Sample.mena_files) Sample.empty_world)
    as [[r w'] made] eqn:H.
  cbn [fst snd].
  destruct (proj1 (proj2 (reliable_pass_commits_the_new_files
                            Sample.ascii_runtime Sample.always_done
                            Hrel Hread))
              9%Z (Sample.folder_of Sample.mena_files) Sample.mena_files
              eq_refl Hnd Hd _ _ _ _ H) as [_ [Hp _]].
  rewrite Hp. vm_compute. reflexivity.
Defined.

(** ** The dates of the rows of a pass *)

Lemma adds_after_composable agency last : composable (adds_after agency last).
Proof.
  split.
  - intros w w' [Ha Hp]. exists [], []. repeat split; auto.
  - intros w agency' answer. exists [], []. repeat split; auto.
  - intros w1 w2 w3 m1 m2 [a1 [p1 [Ha1 [Hp1 [Fa1 Fp1]]]]]
      [a2 [p2 [Ha2 [Hp2 [Fa2 Fp2]]]]].
    exists (a2 ++ a1), (p2 ++ p1).
    rewrite Ha2, Ha1, Hp2, Hp1, <- !app_assoc.
    split; [reflexivity|]. split; [reflexivity|].
    split; apply Forall_app; auto.
Qed.

Lemma adds_after_same agency last w0 w w' made :
  same_tables w0 w -> adds_after agency last w w' made ->
  adds_after agency last w0 w' made.
Proof.
  intros [Ha Hp] [a [p H]]. exists a, p. rewrite <- Ha, <- Hp. exact H.
Qed.

Lemma adds_after_then_same agency last w w1 w' made made' :
  adds_after agency last w w1 made -> same_tables w1 w' ->
  adds_after agency last w w' made'.
Proof.
  intros [a [p H]] [Ha Hp]. exists a, p. rewrite Ha, Hp. exact H.
Qed.

Lemma handled_adds_after E agency last policy name accepted stamp content
    w r w' made :
  handled E agency last policy name accepted stamp content w r w' made ->
  adds_after agency last w w' made.
Proof.
  intros H. handled_cases H.
  - rewrite Hm. apply (comp_same (adds_after_composable agency last)), Hsame.
  - rewrite Hm, Hw. apply comp_refl, adds_after_composable.
  - rewrite Hw. exists [], []. repeat split; auto.
  - exists [], []. destruct Hsame as [Ha Hp]. repeat split; auto.
  - eexists _, _. split; [exact Harts|]. split; [exact Hrows|].
    split.
    + destruct (article_stored _); repeat constructor. exact Hna.
    + destruct (marked _ _); repeat constructor. exact Hna.
  - exists [], []. destruct Hsame as [Ha Hp]. repeat split; auto.
  - rewrite Hw. exists [], []. repeat split; auto.
Qed.

(** A pass that reads the watermark and then takes the files one after
    the other, whatever it raises logged or not. *)
Lemma watermarked_adds_after {C} E agency policy (name : C -> str) accepted
    stamp content xs (loop : option Z -> M unit) w ws r w' made :
  (forall last w r w' made,
      loop last w = (r, w', made) ->
      steps
        (fun c =>
           handled E agency last policy (name c) (accepted c) (stamp c)
             (content c))
        xs w r w' made) ->
  same_tables w ws ->
  watermark_then E agency loop ws = (r, w', made) ->
  adds_after agency (max_created_date agency (processedfiles w)) w w' made.
Proof.
  intros Hloop Hs H.
  apply watermark_then_inv in H as [[_ [made0 [H _]]]|[_ [_ [-> _]]]].
  - apply Hloop in H. rewrite (proj2 Hs) in H.
    apply (adds_after_same _ _ _ _ _ _ Hs).
    apply (adds_after_then_same _ _ _ _ _ made0 _)
      with (2 := same_tables_refl w').
    revert H. apply (steps_respects _ (adds_after_composable agency _)).
    intros c w1 r1 w1' made1. apply handled_adds_after.
  - apply (comp_same (adds_after_composable agency _)), Hs.
Qed.

Lemma guarded_adds_after {C} E agency policy (name : C -> str) accepted
    stamp content xs (loop : option Z -> M unit) l message subject
    w ws r w' made :
  (forall last w r w' made,
      loop last w = (r, w', made) ->
      steps
        (fun c =>
           handled E agency last policy (name c) (accepted c) (stamp c)
             (content c))
        xs w r w' made) ->
  same_tables w ws ->
  try_except (watermark_then E agency loop)
    (fun _ => logging l message subject) ws = (r, w', made) ->
  adds_after agency (max_created_date agency (processedfiles w)) w w' made.
Proof.
  intros Hloop Hs H.
  apply try_except_logging_inv in H as [_ [ri [wi [H Hsi]]]].
  eapply adds_after_then_same; [|exact Hsi].
  eapply watermarked_adds_after; eassumption.
Qed.

(** X13. The rows a pass adds are rows of the agency of the pass, on top
    of the rows that were there, and each is dated after the watermark the
    pass started with: a file modified at the time of the latest row of
    its agency, or before, gets no row, whatever became of it in the
    passes before. *)
Theorem pass_adds_rows_after_the_watermark R E :
  (forall agency d,
      respects
        (fun w => adds_after agency
                    (max_created_date agency (processedfiles w)) w)
        (ANSA.main_folder R E agency d))
  /\ (forall agency d,
        respects
          (fun w => adds_after agency
                      (max_created_date agency (processedfiles w)) w)
          (MENA.main_folder R E agency d))
  /\ (forall folder agency d,
        respects
          (fun w => adds_after agency
                      (max_created_date agency (processedfiles w)) w)
          (APS_CHINE.main_folder R E folder agency d))
  /\ (forall server clock agency,
        respects
          (fun w => adds_after agency
                      (max_created_date agency (processedfiles w)) w)
          (MAP_FR.process_mapl_from_ftp R E server clock agency))
  /\ (forall server agency,
        respects
          (fun w => adds_after agency
                      (max_created_date agency (processedfiles w)) w)
          (AZERTAC_FR.process_azertacFr_from_sftp R E server agency)).
Proof.
  split; [|split; [|split; [|split]]].
  - intros agency d w r w' made H.
    destruct (listdir d) as [files|e] eqn:Hl.
    + rewrite (ANSA_main_folder_is_loop R E agency d files w Hl) in H.
      eapply watermarked_adds_after;
        [|apply same_tables_refl|exact H].
      intros last. apply for_each_steps.
      apply (ANSA_main_file_handled R E agency last d).
    + unfold ANSA.main_folder in H. rewrite Hl, bind_lift_raised in H.
      inversion H; subst. apply comp_refl, adds_after_composable.
  - intros agency d w r w' made H.
    destruct (listdir d) as [files|e] eqn:Hl.
    + rewrite (MENA_main_folder_is_loop R E agency d files w Hl) in H.
      eapply watermarked_adds_after;
        [|apply same_tables_refl|exact H].
      intros last. apply for_each_steps.
      apply (MENA_main_file_handled R E agency last d).
    + unfold MENA.main_folder in H. rewrite Hl, bind_lift_raised in H.
      inversion H; subst. apply comp_refl, adds_after_composable.
  - intros folder agency d w r w' made H.
    destruct (listdir d) as [files|e] eqn:Hl.
    + rewrite (APS_CHINE_main_folder_is_loop R E folder agency d files w Hl)
        in H.
      eapply watermarked_adds_after;
        [|apply same_tables_refl|exact H].
      intros last. apply for_each_steps.
      apply (APS_CHINE_main_file_handled R E folder agency last d).
    + unfold APS_CHINE.main_folder in H. rewrite Hl, bind_lift_raised in H.
      inversion H; subst. apply comp_refl, adds_after_composable.
  - intros server clock agency w r w' made H.
    assert (Hlisted :
              (exists lines,
                  MAP_FR.ftp_login server = Ok tt
                  /\ MAP_FR.ftp_list server = Ok lines /\ named_first lines)
              \/ (forall lines,
                     MAP_FR.ftp_login server = Ok tt ->
                     MAP_FR.ftp_list server = Ok lines ->
                     ~ named_first lines)).
    { destruct (MAP_FR.ftp_login server) as [[]|e];
        [|right; intros ? Hl; discriminate Hl].
      destruct (MAP_FR.ftp_list server) as [[|[e|] lines]|e].
      - left. exists []. repeat split.
      - left. eexists. repeat split.
      - right. intros lines' _ Heq. inversion Heq; subst. intros [].
      - right. intros lines' _ Heq. discriminate Heq. }
    destruct Hlisted as [[lines [Hlogin [Hlist Hnamed]]]|Hno].
    + rewrite (MAP_FR_pass_is_loop R E server clock agency lines w
                 Hlogin Hlist) in H.
      eapply (guarded_adds_after E agency Logs_all MAP_FR.e_name
                (fun e => MAP_FR_accepted (MAP_FR.e_name e))
                (fun e => MAP_FR_stamp (clock (MAP_FR.e_name e)) e)
                (MAP_FR_content R) (entries lines));
        [|apply logged_same|exact H].
      intros last w1 r1 w1' made1 H1.
      destruct (MAP_FR_loop_is_steps R E agency clock lines last
                  w1 r1 w1' made1 Hnamed H1) as [Hst ->].
      exact Hst.
    + destruct (MAP_FR_pass_without_listing R E server clock agency
                  w r w' made Hno H) as [_ [Hs _]].
      eapply adds_after_then_same; [|exact Hs].
      apply (comp_refl _ (adds_after_composable agency _)).
  - intros server agency w r w' made H.
    assert (Hlisted :
              (exists files,
                  AZERTAC_FR.sftp_connect server = Ok tt
                  /\ AZERTAC_FR.sftp_chdir server = Ok tt
                  /\ AZERTAC_FR.sftp_listdir_attr server = Ok files)
              \/ (forall files,
                     AZERTAC_FR.sftp_connect server = Ok tt ->
                     AZERTAC_FR.sftp_chdir server = Ok tt ->
                     AZERTAC_FR.sftp_listdir_attr server <> Ok files)).
    { destruct (AZERTAC_FR.sftp_connect server) as [[]|e];
        [|right; intros ? Hl; discriminate Hl].
      destruct (AZERTAC_FR.sftp_chdir server) as [[]|e];
        [|right; intros ? _ Hl; discriminate Hl].
      destruct (AZERTAC_FR.sftp_listdir_attr server) as [files|e].
      - left. exists files. repeat split.
      - right. intros files _ _ Heq. discriminate Heq. }
    destruct Hlisted as [[files [Hconnect [Hchdir Hlist]]]|Hno].
    + rewrite (AZERTAC_FR_pass_is_loop R E server agency files w
                 Hconnect Hchdir Hlist) in H.
      eapply (guarded_adds_after E agency Logs_all f_name (fun _ => true)
                (fun f => Ok (st_mtime f)) (AZERTAC_FR_content R)
                (sorted_reverse files));
        [|apply logged_same|exact H].
      intros last. apply for_each_steps.
      apply (AZERTAC_FR_process_file_attr_handled R E agency last).
    + destruct (AZERTAC_FR_pass_without_listing R E server agency
                  w r w' made Hno H) as [_ [Hs _]].
      eapply adds_after_then_same; [|exact Hs].
      apply (comp_refl _ (adds_after_composable agency _)).
Qed.

Lemma pass_adds_rows_after_the_watermark_witness :
  let w :=
    {| online2024_articles := [];
       processedfiles :=
         [{| p_file_name := py "d0.txt"; p_id_agency := 9;
             p_created_date := 150 |}];
       log := [] |} in
  let run :=
    MENA.main_folder Sample.ascii_runtime Sample.always_done 9
      (Sample.folder_of
         [Sample.plain_file "d1.txt" 100 Sample.dispatch;
          Sample.plain_file "d2.txt" 200 Sample.dispatch]) w in
  adds_after 9 (max_created_date 9 (processedfiles w)) w
    (snd (fst run)) (snd run).
Proof.
  cbv zeta.
  destruct (MENA.main_folder Sample.ascii_runtime Sample.always_done 9
              (Sample.folder_of
                 [Sample.plain_file "d1.txt" 100 Sample.dispatch;
                  Sample.plain_file "d2.txt" 200 Sample.dispatch])
              {| online2024_articles := [];
                 processedfiles :=
                   [{| p_file_name := py "d0.txt"; p_id_agency := 9;
                       p_created_date := 150 |}];
                 log := [] |}) as [[r w'] made] eqn:H.
  cbn [fst snd].
  exact (proj1 (proj2 (pass_adds_rows_after_the_watermark
                         Sample.ascii_runtime Sample.always_done))
           9%Z _ _ _ _ _ H).
Defined.
